(** * AnarQ&Q ecosystem demo installer: the installation engine

    A shallow embedding of [AnarQQInstaller] from [install-anarqq-demo.py]
    and the properties of its orchestration workflow.

    The installer is effectful Python: it prints, appends to a log file,
    calls two optional callbacks, runs external programs and changes the
    file system.  It is embedded in a state-and-exception monad:

    - the [state] holds everything the installer can change or emit
      (file system, standard output, callback deliveries, the external
      operations it issued, its scoped temporary area);
    - the [world] holds everything the host decides (whether a tool
      answers, what a clone delivers, which OS call is refused);
    - a Python exception is a [Raise] result that keeps the state reached
      so far, so [try]/[except] is a function on results.

    Modelling assumptions, stated once:
    - a text is held as its UTF-8 encoding;
    - [print] and the two callbacks return normally;
    - an external command (git, npm) changes the file system at its
      working tree only: what it writes elsewhere, such as a cache of
      its own, is not part of the state;
    - every exception of the model is an instance of Python's [Exception]
      (asynchronous [BaseException]s such as [KeyboardInterrupt] are not
      events of a step);
    - an external operation issued twice with the same arguments during
      one run gets the same answer from the [world]. *)

From Stdlib Require Import String List ZArith Lia Bool Ascii DecimalString.
From Stdlib Require Import RelationClasses.
Import ListNotations.

#[local] Open Scope string_scope.
#[local] Open Scope Z_scope.

(* ------------------------------------------------------------------ *)
(** ** Paths and the file system *)

(** A [pathlib.Path] as the list of its components below the root. *)
Definition path := list string.

(** [p / name] *)
Definition child (p : path) (name : string) : path := (p ++ [name])%list.
Notation "p // name" := (child p name) (at level 40, left associativity).

(** [p.parent] ([Path('/').parent] is [Path('/')]). *)
Definition parent (p : path) : path := removelast p.

(** [p.name] *)
Definition name_of (p : path) : string := last p EmptyString.

Definition path_eq_dec : forall p q : path, {p = q} + {p <> q} :=
  list_eq_dec string_dec.

(** [is_under d p]: [p] is [d] or lies below it. *)
Fixpoint is_under (d p : path) : bool :=
  match d, p with
  | [], _ => true
  | _ :: _, [] => false
  | x :: d', y :: p' => String.eqb x y && is_under d' p'
  end.

Inductive node :=
| File (content : string)
| Dir.

Definition filesystem := path -> option node.

(** A directory tree by paths relative to its top; [[]] is the top. *)
Definition tree := path -> option node.

Definition fs_set (f : filesystem) (p : path) (n : node) : filesystem :=
  fun q => if path_eq_dec q p then Some n else f q.

(** Everything at or below [d] disappears ([shutil.rmtree]). *)
Definition fs_remove_tree (f : filesystem) (d : path) : filesystem :=
  fun q => if is_under d q then None else f q.

(** [d] becomes the tree [t]: what was at or below [d] is replaced. *)
Definition fs_graft (f : filesystem) (d : path) (t : tree) : filesystem :=
  fun q => if is_under d q then t (skipn (length d) q) else f q.

(** [d] and the missing directories above it are made ([os.makedirs]). *)
Definition fs_makedirs (f : filesystem) (d : path) : filesystem :=
  fun q => if is_under q d
           then match f q with Some n => Some n | None => Some Dir end
           else f q.

Definition fs_exists (f : filesystem) (p : path) : bool :=
  match f p with Some _ => true | None => false end.

Definition file_content (f : filesystem) (p : path) : string :=
  match f p with Some (File c) => c | _ => EmptyString end.

(* ------------------------------------------------------------------ *)
(** ** Exceptions and results *)

(** The exception classes the installer tells apart in its [except]
    clauses; [OtherException] is any other subclass of [Exception]
    ([PermissionError], [URLError], [BadZipFile], ...). *)
Inductive exn_class :=
| CalledProcessError
| TimeoutExpired
| FileNotFoundError
| OtherException.

(** An exception: its class and [str(e)]. *)
Record exn := mk_exn { exn_kind : exn_class; exn_str : string }.

Definition exn_class_eqb (a b : exn_class) : bool :=
  match a, b with
  | CalledProcessError, CalledProcessError
  | TimeoutExpired, TimeoutExpired
  | FileNotFoundError, FileNotFoundError
  | OtherException, OtherException => true
  | _, _ => false
  end.

Inductive result (A : Type) :=
| Ok (a : A)
| Raise (e : exn).
Arguments Ok {A} a.
Arguments Raise {A} e.

(* ------------------------------------------------------------------ *)
(** ** External operations *)

(** The operations the installer asks of the host, as they appear in
    the source; the state records them in the order issued. *)
Inductive op :=
| RunVersion (command : string)            (* subprocess.run([command, '--version'], timeout=10) *)
| DiskUsage (p : path)                     (* shutil.disk_usage(p) *)
| Mkdir (p : path)                         (* p.mkdir(exist_ok=True) *)
| Touch (p : path)                         (* p.touch() *)
| GitPull (cwd : path)                     (* git pull origin main, check=True *)
| GitClone (repo_url : string) (destination : path)
| MkTemp                                   (* tempfile.TemporaryDirectory().__enter__ *)
| RmTemp (d : path)                        (* ... .__exit__ *)
| UrlRetrieve (url : string) (destination : path)
| ExtractAll (zip_path extract_to : path)
| IterDir (p : path)
| RmTree (p : path)
| Move (src dst : path)
| NpmInstall (cwd : path)
| NpmRunBuild (cwd : path)
| Copy2 (src dst : path)
| WriteText (p : path)                     (* open(p, 'w') and its writes *)
| Chmod (p : path).

(** What a downloaded archive unpacks to: the top-level entries that
    [extractall] followed by [iterdir] finds, or the error of a broken
    archive. *)
Definition archive := result (list (string * tree)).

Record world := mk_world {
  os_name : string;                                (* os.name *)
  python_version : string;                         (* sys.version_info, dotted *)
  home : path;                                     (* Path.home() *)
  (* returncode and stdout of [command --version] *)
  run_version : string -> result (Z * string);
  (* [free] of shutil.disk_usage *)
  disk_usage : path -> result Z;
  (* an OS refusal of a file operation *)
  os_error : op -> option exn;
  (* an OS refusal to open a file for appending *)
  append_error : path -> option exn;
  (* check=True runs: a non-zero exit is Raise of a CalledProcessError;
     a successful run leaves the given working tree *)
  git_pull : path -> result tree;
  git_clone : string -> path -> result tree;
  npm_install : path -> result tree;
  npm_run_build : path -> result tree;
  mkdtemp : result path;
  (* reporthook calls (block_num, block_size, total_size) of urlretrieve,
     then its outcome *)
  url_blocks : string -> list (N * N * Z);
  url_fetch : string -> result archive
}.

(* ------------------------------------------------------------------ *)
(** ** State *)

(** The scoped temporary area of an archive fallback. *)
Inductive tmp_node :=
| TmpZip (a : archive)
| TmpDir (entries : list (string * tree)).

Record state := mk_state {
  fs : filesystem;
  tmp : path -> option tmp_node;
  stdout : list string;                 (* lines printed *)
  log_calls : list string;              (* arguments of log_callback *)
  progress_calls : list (Z * string);   (* arguments of progress_callback *)
  ops : list op                         (* external operations issued *)
}.

Definition set_fs (f : filesystem) (s : state) : state :=
  mk_state f (tmp s) (stdout s) (log_calls s) (progress_calls s) (ops s).
Definition set_tmp (t : path -> option tmp_node) (s : state) : state :=
  mk_state (fs s) t (stdout s) (log_calls s) (progress_calls s) (ops s).
Definition add_stdout (l : string) (s : state) : state :=
  mk_state (fs s) (tmp s) (stdout s ++ [l]) (log_calls s) (progress_calls s) (ops s).
Definition add_log_call (l : string) (s : state) : state :=
  mk_state (fs s) (tmp s) (stdout s) (log_calls s ++ [l]) (progress_calls s) (ops s).
Definition add_progress_call (v : Z) (m : string) (s : state) : state :=
  mk_state (fs s) (tmp s) (stdout s) (log_calls s) (progress_calls s ++ [(v, m)]) (ops s).
Definition add_op (o : op) (s : state) : state :=
  mk_state (fs s) (tmp s) (stdout s) (log_calls s) (progress_calls s) (ops s ++ [o]).

(* ------------------------------------------------------------------ *)
(** ** The monad *)

Definition M (A : Type) : Type := state -> result A * state.

Definition ret {A} (a : A) : M A := fun s => (Ok a, s).

Definition bind {A B} (m : M A) (k : A -> M B) : M B :=
  fun s => match m s with
           | (Ok a, s') => k a s'
           | (Raise e, s') => (Raise e, s')
           end.

Definition raise {A} (e : exn) : M A := fun s => (Raise e, s).

(** [try: body  except <classes> as e: handler e]; an exception whose
    class is not listed passes through. *)
Definition try_except {A} (body : M A) (catches : exn -> bool)
    (handler : exn -> M A) : M A :=
  fun s => match body s with
           | (Ok a, s') => (Ok a, s')
           | (Raise e, s') => if catches e then handler e s' else (Raise e, s')
           end.

Definition gets {A} (f : state -> A) : M A := fun s => (Ok (f s), s).
Definition modify (f : state -> state) : M unit := fun s => (Ok tt, f s).

(** The answer of the host to a call that returns or raises. *)
Definition answer {A} (r : result A) : M A := fun s => (r, s).

Declare Scope monad_scope.
Delimit Scope monad_scope with monad.
Notation "x <- m ;; k" := (bind m (fun x => k))
  (at level 100, m at next level, right associativity) : monad_scope.
Notation "' pat <- m ;; k" := (bind m (fun x => match x with pat => k end))
  (at level 100, pat pattern, m at next level, right associativity) : monad_scope.
Notation "m ;; k" := (bind m (fun _ => k))
  (at level 100, right associativity) : monad_scope.
#[local] Open Scope monad_scope.

Definition when (b : bool) (m : M unit) : M unit := if b then m else ret tt.

Fixpoint for_each {A} (l : list A) (body : A -> M unit) : M unit :=
  match l with
  | [] => ret tt
  | x :: l' => body x ;; for_each l' body
  end.

Definition catch_all (e : exn) : bool := true.           (* except Exception *)
Definition catch_class (c : exn_class) (e : exn) : bool := (* except c *)
  exn_class_eqb (exn_kind e) c.

(* ------------------------------------------------------------------ *)
(** ** Text helpers *)

Definition nl : string := String (ascii_of_nat 10) EmptyString.
Definition dq : string := String (ascii_of_nat 34) EmptyString.

Definition str_of_Z (z : Z) : string := NilZero.string_of_int (Z.to_int z).

(** [a or b] on strings. *)
Definition str_or (a b : string) : string :=
  match a with EmptyString => b | _ => a end.

(** [str(p)]: the components joined by the separator of the host. *)
Definition str_of_path (w : world) (p : path) : string :=
  if String.eqb (os_name w) "nt"
  then String.concat "\" p
  else "/" ++ String.concat "/" p.

(** The white space of [str.strip()]: the characters for which
    [str.isspace()] holds.  A text is held in UTF-8, so a character is
    one to three bytes here.

    U+0009..U+000D and U+001C..U+0020, one byte each. *)
Definition is_space (c : ascii) : bool :=
  let n := nat_of_ascii c in
  ((9 <=? n) && (n <=? 13) || (28 <=? n) && (n <=? 32))%nat.

(** U+0085 and U+00A0: C2 85 and C2 A0. *)
Definition is_space2 (a b : ascii) : bool :=
  let a := nat_of_ascii a in
  let b := nat_of_ascii b in
  ((a =? 194) && ((b =? 133) || (b =? 160)))%nat.

(** U+1680 (E1 9A 80), U+2000..U+200A (E2 80 80 .. E2 80 8A), U+2028,
    U+2029 and U+202F (E2 80 A8, A9, AF), U+205F (E2 81 9F) and
    U+3000 (E3 80 80). *)
Definition is_space3 (a b c : ascii) : bool :=
  let a := nat_of_ascii a in
  let b := nat_of_ascii b in
  let c := nat_of_ascii c in
  ((a =? 225) && (b =? 154) && (c =? 128)
   || (a =? 226) && (b =? 128)
      && ((128 <=? c) && (c <=? 138) || (c =? 168) || (c =? 169) || (c =? 175))
   || (a =? 226) && (b =? 129) && (c =? 159)
   || (a =? 227) && (b =? 128) && (c =? 128))%nat.

(** [s.lstrip()] *)
Fixpoint lstrip (s : string) : string :=
  match s with
  | String a s1 =>
      if is_space a then lstrip s1
      else match s1 with
           | String b s2 =>
               if is_space2 a b then lstrip s2
               else match s2 with
                    | String c s3 => if is_space3 a b c then lstrip s3 else s
                    | EmptyString => s
                    end
           | EmptyString => s
           end
  | EmptyString => EmptyString
  end.

(** [s.rstrip()]: the text up to its longest end of white space.  An
    end that begins inside a character is not white space, since no
    white space character begins with a continuation byte. *)
Fixpoint rstrip (s : string) : string :=
  match s with
  | String a s1 =>
      match lstrip s with
      | EmptyString => EmptyString
      | _ => String a (rstrip s1)
      end
  | EmptyString => EmptyString
  end.

(** [s.strip()] *)
Definition strip (s : string) : string := rstrip (lstrip s).

(** [f"{free / 1024**3:.1f}"]: the quotient rounded to one decimal, ties
    to even; the float quotient is exact below 2^53 bytes. *)
Definition format_gb (free : Z) : string :=
  let q := (free * 10) / 1024 ^ 3 in
  let r := (free * 10) mod 1024 ^ 3 in
  let tenths :=
    if 2 * r <? 1024 ^ 3 then q
    else if 1024 ^ 3 <? 2 * r then q + 1
    else if Z.even q then q else q + 1 in
  str_of_Z (tenths / 10) ++ "." ++ str_of_Z (tenths mod 10).

(* ------------------------------------------------------------------ *)
(** ** Configuration and the installer object *)

Record config := mk_config {
  demo_repo : string;
  core_repo : string;
  demo_zip : string;
  core_zip : string;
  min_node_version : string;
  min_python_version : string;
  required_disk_gb : Z;
  required_memory_gb : Z
}.

Definition CONFIG : config := {|
  demo_repo := "https://github.com/AnarQorp/anarqq-ecosystem-demo.git";
  core_repo := "https://github.com/AnarQorp/anarqq-ecosystem-core.git";
  demo_zip := "https://github.com/AnarQorp/anarqq-ecosystem-demo/archive/refs/heads/main.zip";
  core_zip := "https://github.com/AnarQorp/anarqq-ecosystem-core/archive/refs/heads/main.zip";
  min_node_version := "18.0.0";
  min_python_version := "3.8.0";
  required_disk_gb := 5;
  required_memory_gb := 2
|}.

(** The fields of [AnarQQInstaller]; a callback field says whether a
    callback is installed, its calls are recorded in the state. *)
Record installer := mk_installer {
  install_dir : path;
  demo_dir : path;
  core_dir : path;
  log_file : path;
  progress_callback : bool;
  log_callback : bool
}.

(** The four assignments every front end makes when it chooses the
    installation directory (and [__init__] with the default). *)
Definition installer_at (dir : path) (progress_cb log_cb : bool) : installer := {|
  install_dir := dir;
  demo_dir := dir // "demo";
  core_dir := dir // "core";
  log_file := dir // "install.log";
  progress_callback := progress_cb;
  log_callback := log_cb
|}.

(** [AnarQQInstaller.__init__] *)
Definition new_installer (w : world) : installer :=
  installer_at (home w // "anarqq-ecosystem") false false.

(* ------------------------------------------------------------------ *)
(** ** Primitive effects *)

Section Installer.

Variable w : world.

Definition print (line : string) : M unit := modify (add_stdout line).

Definition perform (o : op) : M unit := modify (add_op o).

(** An OS call the host may refuse. *)
Definition os_call (o : op) : M unit :=
  perform o ;;
  match os_error w o with
  | Some e => raise e
  | None => ret tt
  end.

Definition path_exists (p : path) : M bool := gets (fun s => fs_exists (fs s) p).

(** [with open(p, 'a') as f: f.write(text)]; the log uses it on every
    record, so it is kept out of the recorded operations. *)
Definition append_text (p : path) (text : string) : M unit :=
  match append_error w p with
  | Some e => raise e
  | None =>
      modify (fun s => set_fs (fs_set (fs s) p (File (file_content (fs s) p ++ text))) s)
  end.

(** [with open(p, 'w') as f: f.write(text)] *)
Definition write_text (p : path) (text : string) : M unit :=
  os_call (WriteText p) ;;
  modify (fun s => set_fs (fs_set (fs s) p (File text)) s).

(** [p.mkdir(exist_ok=True)] *)
Definition mkdir (p : path) : M unit :=
  os_call (Mkdir p) ;;
  modify (fun s => if fs_exists (fs s) p then s else set_fs (fs_set (fs s) p Dir) s).

(** [p.touch()] *)
Definition touch (p : path) : M unit :=
  os_call (Touch p) ;;
  modify (fun s => if fs_exists (fs s) p then s
                   else set_fs (fs_set (fs s) p (File EmptyString)) s).

Definition chmod (p : path) : M unit := os_call (Chmod p).

(** [shutil.copy2(src, dst)] *)
Definition copy2 (src dst : path) : M unit :=
  os_call (Copy2 src dst) ;;
  modify (fun s => match fs s src with
                   | Some (File c) => set_fs (fs_set (fs s) dst (File c)) s
                   | _ => s
                   end).

Definition no_such_file (p : path) : exn :=
  mk_exn FileNotFoundError
    ("[Errno 2] No such file or directory: '" ++ str_of_path w p ++ "'").

(** [shutil.rmtree(p)] *)
Definition rmtree (p : path) : M unit :=
  os_call (RmTree p) ;;
  modify (fun s => set_fs (fs_remove_tree (fs s) p) s).

(** [shutil.move(src, dst)] of an extracted entry, [dst] not existing.
    Where the parent of [dst] exists the entry is renamed to [dst].
    Where it is missing the rename fails and [shutil.move] copies the
    entry instead: for a directory [copytree] first makes the missing
    directories above [dst]; the copy of a file raises. *)
Definition move (src : path) (t : tree) (dst : path) : M unit :=
  os_call (Move src dst) ;;
  parent_exists <- path_exists (parent dst) ;;
  if parent_exists : bool
  then modify (fun s => set_fs (fs_graft (fs s) dst t) s)
  else match t [] with
       | Some (File _) => raise (no_such_file dst)
       | _ => modify (fun s => set_fs (fs_graft (fs_makedirs (fs s) (parent dst)) dst t) s)
       end.

(** [subprocess.run(..., cwd=cwd, check=True)]: [o] names the command,
    [r] is the host's answer: the working tree the command leaves at
    [cwd] (for a clone, at its destination) when it exits with 0. *)
Definition run_checked (o : op) (r : result tree) (cwd : path) : M unit :=
  perform o ;;
  t <- answer r ;;
  modify (fun s => set_fs (fs_graft (fs s) cwd t) s).

Definition tmp_set (p : path) (n : tmp_node) (s : state) : state :=
  set_tmp (fun q => if path_eq_dec q p then Some n else tmp s q) s.

Definition tmp_cleanup (d : path) (s : state) : state :=
  set_tmp (fun q => if is_under d q then None else tmp s q) s.

(** [with tempfile.TemporaryDirectory() as temp_dir: body]; the
    directory is removed on every way out of [body]. *)
Definition with_temporary_directory {A} (body : path -> M A) : M A :=
  perform MkTemp ;;
  temp_dir <- answer (mkdtemp w) ;;
  (fun s => let (r, s') := body temp_dir s in
            (r, tmp_cleanup temp_dir (add_op (RmTemp temp_dir) s'))).

(** [list(p.iterdir())] in the temporary area. *)
Definition iterdir (p : path) : M (list (string * tree)) :=
  perform (IterDir p) ;;
  d <- gets (fun s => tmp s p) ;;
  match d with
  | Some (TmpDir entries) => ret entries
  | _ => raise (no_such_file p)
  end.

(* ------------------------------------------------------------------ *)
(** ** The methods of [AnarQQInstaller] *)

Definition log (self : installer) (message : string) (level : string) : M unit :=
  let log_entry := "[" ++ level ++ "] " ++ message in
  print log_entry ;;
  (* Write to log file *)
  parent_exists <- path_exists (parent (log_file self)) ;;
  when parent_exists (append_text (log_file self) (log_entry ++ nl)) ;;
  (* Call GUI callback if available *)
  when (log_callback self) (modify (add_log_call log_entry)).

Definition update_progress (self : installer) (value : Z) (message : string) : M unit :=
  when (progress_callback self) (modify (add_progress_call value message)).

Definition check_command (command : string) : M (bool * string) :=
  try_except
    (perform (RunVersion command) ;;
     ' (returncode, out) <- answer (run_version w command) ;;
     ret (returncode =? 0, strip out))
    (fun e => catch_class TimeoutExpired e || catch_class FileNotFoundError e)
    (fun _ => ret (false, EmptyString)).

(** The body of [check_system_requirements] up to its [return]: the
    value is the local [errors]. *)
Definition requirement_errors (self : installer) : M Z :=
  log self "Checking system requirements..." "INFO" ;;
  let errors := 0 in
  (* Check Python version *)
  log self ("Python version: " ++ python_version w) "INFO" ;;
  (* Check Node.js *)
  ' (node_available, node_version) <- check_command "node" ;;
  errors <- (if node_available
             then log self ("✅ Node.js found: " ++ node_version) "INFO" ;; ret errors
             else log self "❌ Node.js not found" "ERROR" ;; ret (errors + 1)) ;;
  (* Check npm *)
  ' (npm_available, npm_version) <- check_command "npm" ;;
  errors <- (if npm_available
             then log self ("✅ npm found: " ++ npm_version) "INFO" ;; ret errors
             else log self "❌ npm not found" "ERROR" ;; ret (errors + 1)) ;;
  (* Check Git *)
  ' (git_available, git_version) <- check_command "git" ;;
  (if git_available
   then log self ("✅ Git found: " ++ git_version) "INFO"
   else log self "⚠️ Git not found (will use ZIP download)" "WARNING") ;;
  (* Check Docker (optional) *)
  ' (docker_available, docker_version) <- check_command "docker" ;;
  (if docker_available
   then log self ("✅ Docker found: " ++ docker_version) "INFO"
   else log self "ℹ️ Docker not found (optional)" "INFO") ;;
  (* Check disk space: free / 1024**3 >= required_disk_gb, a float
     comparison that agrees with the integer one *)
  try_except
    (perform (DiskUsage (home w)) ;;
     free <- answer (disk_usage w (home w)) ;;
     if required_disk_gb CONFIG * 1024 ^ 3 <=? free
     then log self ("✅ Disk space: " ++ format_gb free ++ "GB available") "INFO" ;;
          ret errors
     else log self ("❌ Insufficient disk space: " ++ format_gb free
                    ++ "GB (required: " ++ str_of_Z (required_disk_gb CONFIG) ++ "GB)")
            "ERROR" ;;
          ret (errors + 1))
    catch_all
    (fun e => log self ("⚠️ Could not check disk space: " ++ exn_str e) "WARNING" ;;
              ret errors).

Definition check_system_requirements (self : installer) : M bool :=
  errors <- requirement_errors self ;;
  ret (errors =? 0).

Definition setup_directories (self : installer) : M unit :=
  log self "Setting up directories..." "INFO" ;;
  mkdir (install_dir self) ;;
  mkdir (demo_dir self) ;;
  mkdir (core_dir self) ;;
  (* Create log file *)
  touch (log_file self) ;;
  log self ("✅ Directories created at: " ++ str_of_path w (install_dir self)) "INFO".

Definition progress_hook (self : installer) (description : string)
    (block : N * N * Z) : M unit :=
  let '(block_num, block_size, total_size) := block in
  if 0 <? total_size
  then let percent :=
         Z.min 100 ((Z.of_N block_num * Z.of_N block_size * 100) / total_size) in
       update_progress self percent
         ("Downloading " ++ description ++ "... " ++ str_of_Z percent ++ "%")
  else ret tt.

Definition download_file (self : installer) (url : string) (destination : path)
    (description : string) : M unit :=
  log self ("Downloading " ++ str_or description url ++ "...") "INFO" ;;
  perform (UrlRetrieve url destination) ;;
  for_each (url_blocks w url) (progress_hook self description) ;;
  a <- answer (url_fetch w url) ;;
  modify (tmp_set destination (TmpZip a)) ;;
  log self ("✅ Downloaded: " ++ str_of_path w destination) "INFO".

Definition extract_zip (self : installer) (zip_path extract_to : path)
    (description : string) : M unit :=
  log self ("Extracting " ++ str_or description (name_of zip_path) ++ "...") "INFO" ;;
  perform (ExtractAll zip_path extract_to) ;;
  z <- gets (fun s => tmp s zip_path) ;;
  entries <- match z with
             | Some (TmpZip a) => answer a
             | _ => raise (no_such_file zip_path)
             end ;;
  (* an archive without members creates nothing *)
  match entries with
  | [] => ret tt
  | _ => modify (tmp_set extract_to (TmpDir entries))
  end ;;
  log self ("✅ Extracted to: " ++ str_of_path w extract_to) "INFO".

(** The part of [clone_or_download_repo] under its comment
    "Fallback to ZIP download". *)
Definition zip_fallback (self : installer) (zip_url : string)
    (destination : path) (name : string) : M unit :=
  log self ("Downloading " ++ name ++ " as ZIP...") "INFO" ;;
  with_temporary_directory (fun temp_dir =>
    let zip_path := temp_dir // (name ++ ".zip") in
    download_file self zip_url zip_path (name ++ " repository") ;;
    (* Extract ZIP *)
    let extract_path := temp_dir // "extracted" in
    extract_zip self zip_path extract_path (name ++ " repository") ;;
    (* Move contents to destination *)
    extracted_dirs <- iterdir extract_path ;;
    match extracted_dirs with
    | [] => ret tt
    | (entry, t) :: _ =>
        let source_dir := extract_path // entry in  (* Usually the first directory *)
        dest_exists <- path_exists destination ;;
        when dest_exists (rmtree destination) ;;
        move source_dir t destination ;;
        log self ("✅ Downloaded and extracted " ++ name) "INFO"
    end).

(** The [try] statement of [clone_or_download_repo]: [true] is its
    [return], [false] leaves the statement after the warning. *)
Definition git_attempt (self : installer) (repo_url : string)
    (destination : path) (name : string) : M bool :=
  try_except
    (log self ("Cloning " ++ name ++ " repository...") "INFO" ;;
     dest_exists <- path_exists destination ;;
     dot_git_exists <- path_exists (destination // ".git") ;;
     (if dest_exists && dot_git_exists
      then (* Update existing repository *)
           run_checked (GitPull destination) (git_pull w destination) destination ;;
           log self ("✅ Updated " ++ name ++ " repository") "INFO"
      else (* Clone new repository *)
           run_checked (GitClone repo_url destination)
             (git_clone w repo_url destination) destination ;;
           log self ("✅ Cloned " ++ name ++ " repository") "INFO") ;;
     ret true)
    (catch_class CalledProcessError)
    (fun e => log self ("⚠️ Git clone failed: " ++ exn_str e) "WARNING" ;;
              ret false).

Definition clone_or_download_repo (self : installer) (repo_url zip_url : string)
    (destination : path) (name : string) : M unit :=
  ' (git_available, _) <- check_command "git" ;;
  returned <- (if git_available : bool
               then git_attempt self repo_url destination name
               else ret false) ;;
  if returned : bool then ret tt
  else (* Fallback to ZIP download *)
       zip_fallback self zip_url destination name.

Definition install_dependencies (self : installer) (directory : path)
    (name : string) : M unit :=
  log self ("Installing " ++ name ++ " dependencies...") "INFO" ;;
  try_except
    ((* Install dependencies *)
     run_checked (NpmInstall directory) (npm_install w directory) directory ;;
     log self ("✅ " ++ name ++ " dependencies installed") "INFO" ;;
     (* Try to build *)
     try_except
       (run_checked (NpmRunBuild directory) (npm_run_build w directory) directory ;;
        log self ("✅ " ++ name ++ " built successfully") "INFO")
       (catch_class CalledProcessError)
       (fun _ => log self ("⚠️ " ++ name ++ " build failed (not critical)") "WARNING"))
    (catch_class CalledProcessError)
    (fun e => log self ("❌ Failed to install " ++ name ++ " dependencies: " ++ exn_str e)
                "ERROR" ;;
              raise e).

Definition setup_environment (self : installer) : M unit :=
  log self "Setting up environment..." "INFO" ;;
  (* Copy .env.example to .env in demo directory *)
  let env_example := demo_dir self // ".env.example" in
  let env_file := demo_dir self // ".env" in
  example_exists <- path_exists env_example ;;
  file_exists <- path_exists env_file ;;
  when (example_exists && negb file_exists)
    (copy2 env_example env_file ;;
     log self "✅ Environment file created" "INFO").

Definition create_launchers (self : installer) : M unit :=
  log self "Creating launcher scripts..." "INFO" ;;
  (if String.eqb (os_name w) "nt"
   then (* Windows *)
     let start_script := install_dir self // "start-demo.bat" in
     write_text start_script
       ("@echo off" ++ nl ++
        "echo 🚀 Starting AnarQ&Q Demo..." ++ nl ++
        "cd /d " ++ dq ++ str_of_path w (demo_dir self) ++ dq ++ nl ++
        "npm run dev" ++ nl ++
        "pause" ++ nl) ;;
     let stop_script := install_dir self // "stop-services.bat" in
     write_text stop_script
       ("@echo off" ++ nl ++
        "echo 🛑 Stopping AnarQ&Q services..." ++ nl ++
        "cd /d " ++ dq ++ str_of_path w (demo_dir self) ++ dq ++ nl ++
        "if exist " ++ dq ++ "docker-compose.yml" ++ dq ++ " docker-compose down" ++ nl ++
        "echo Services stopped" ++ nl ++
        "pause" ++ nl)
   else (* Unix-like *)
     let start_script := install_dir self // "start-demo.sh" in
     write_text start_script
       ("#!/bin/bash" ++ nl ++
        "echo " ++ dq ++ "🚀 Starting AnarQ&Q Demo..." ++ dq ++ nl ++
        "cd " ++ dq ++ str_of_path w (demo_dir self) ++ dq ++ nl ++
        "npm run dev" ++ nl) ;;
     chmod start_script ;;
     let stop_script := install_dir self // "stop-services.sh" in
     write_text stop_script
       ("#!/bin/bash" ++ nl ++
        "echo " ++ dq ++ "🛑 Stopping AnarQ&Q services..." ++ dq ++ nl ++
        "cd " ++ dq ++ str_of_path w (demo_dir self) ++ dq ++ nl ++
        "if [ -f " ++ dq ++ "docker-compose.yml" ++ dq ++ " ]; then" ++ nl ++
        "    docker-compose down" ++ nl ++
        "fi" ++ nl ++
        "echo " ++ dq ++ "Services stopped" ++ dq ++ nl) ;;
     chmod stop_script) ;;
  log self "✅ Launcher scripts created" "INFO".

(** The [try] block of [install]. *)
Definition install_steps (self : installer) (install_core : bool) : M bool :=
  update_progress self 0 "Starting installation..." ;;
  (* Check requirements *)
  met <- check_system_requirements self ;;
  if negb met
  then log self "❌ System requirements not met" "ERROR" ;;
       ret false
  else
    update_progress self 10 "System requirements checked" ;;
    (* Setup directories *)
    setup_directories self ;;
    update_progress self 20 "Directories created" ;;
    (* Download demo repository *)
    clone_or_download_repo self (demo_repo CONFIG) (demo_zip CONFIG) (demo_dir self) "Demo" ;;
    update_progress self 40 "Demo repository downloaded" ;;
    (* Download core repository if requested *)
    (if install_core
     then clone_or_download_repo self (core_repo CONFIG) (core_zip CONFIG)
            (core_dir self) "Core" ;;
          update_progress self 60 "Core repository downloaded"
     else update_progress self 60 "Skipping core repository") ;;
    (* Install demo dependencies *)
    install_dependencies self (demo_dir self) "Demo" ;;
    update_progress self 80 "Dependencies installed" ;;
    (* Setup environment *)
    setup_environment self ;;
    update_progress self 90 "Environment configured" ;;
    (* Create launchers *)
    create_launchers self ;;
    update_progress self 100 "Installation completed" ;;
    log self "🎉 Installation completed successfully!" "INFO" ;;
    ret true.

(** [install]: main installation process. *)
Definition install (self : installer) (install_core : bool) : M bool :=
  try_except (install_steps self install_core)
    catch_all
    (fun e => log self ("❌ Installation failed: " ++ exn_str e) "ERROR" ;;
              ret false).

End Installer.

(* ------------------------------------------------------------------ *)
(** * Derived notions used in the statements *)

(** [preserves R m]: every run of [m], returning or raising, takes a
    state to an [R]-related one. *)
Definition preserves {A} (R : state -> state -> Prop) (m : M A) : Prop :=
  forall s, R s (snd (m s)).

(** A component of the state is the same. *)
Definition same {T} (f : state -> T) (s s' : state) : Prop := f s' = f s.

(** The file system is the same on the paths in [P]. *)
Definition fs_same_on (P : path -> Prop) (s s' : state) : Prop :=
  forall p, P p -> fs s' p = fs s p.

(** A list component grew by elements that satisfy [Q]. *)
Definition grows {T} (f : state -> list T) (Q : T -> Prop) (s s' : state) : Prop :=
  exists l, f s' = (f s ++ l)%list /\ Forall Q l.

(** The state after a log record. *)
Definition logged (w : world) (self : installer) (message level : string) (s : state)
  : state :=
  snd (log w self message level s).

(** In state [s] a log record can be written: where the directory of
    the log file exists, the host lets the file be opened for appending. *)
Definition log_works (w : world) (self : installer) (s : state) : Prop :=
  fs_exists (fs s) (parent (log_file self)) = true ->
  append_error w (log_file self) = None.

(** The host lets the log file be opened for appending. *)
Definition log_sink_ok (w : world) (self : installer) : Prop :=
  append_error w (log_file self) = None.

(** The line a log record prints. *)
Definition log_entry (message level : string) : string :=
  "[" ++ level ++ "] " ++ message.

(** The state after a progress update. *)
Definition progressed (self : installer) (value : Z) (message : string) (s : state) : state :=
  if progress_callback self then add_progress_call value message s else s.

(** What [check_command] returns: the host's answer, with a missing
    executable and a timeout turned into "not available". *)
Definition probe (w : world) (command : string) : result (bool * string) :=
  match run_version w command with
  | Ok (returncode, out) => Ok (returncode =? 0, strip out)
  | Raise e =>
      if catch_class TimeoutExpired e || catch_class FileNotFoundError e
      then Ok (false, EmptyString)
      else Raise e
  end.

(** [available w c]: [check_command c] answers "available". *)
Definition available (w : world) (command : string) : bool :=
  match probe w command with
  | Ok (true, _) => true
  | _ => false
  end.

(** The free space is known and below the configured minimum. *)
Definition insufficient_disk (w : world) : bool :=
  match disk_usage w (home w) with
  | Ok free => negb (required_disk_gb CONFIG * 1024 ^ 3 <=? free)
  | Raise _ => false
  end.

(** The error tally of the requirements check, read off the host. *)
Definition error_tally (w : world) : Z :=
  (if available w "node" then 0 else 1)
  + (if available w "npm" then 0 else 1)
  + (if insufficient_disk w then 1 else 0).

(** Every version query comes back or fails in one of the two ways
    [check_command] handles. *)
Definition answers (w : world) (command : string) : bool :=
  match probe w command with Ok _ => true | Raise _ => false end.

Definition probes_answer (w : world) : bool :=
  forallb (answers w) ["node"; "npm"; "git"; "docker"].

(** The value of [requirement_errors], which no state influences. *)
Definition requirement_errors_value (w : world) : result Z :=
  match probe w "node", probe w "npm", probe w "git", probe w "docker" with
  | Ok _, Ok _, Ok _, Ok _ => Ok (error_tally w)
  | Raise e, _, _, _ => Raise e
  | _, Raise e, _, _ => Raise e
  | _, _, Raise e, _ => Raise e
  | _, _, _, Raise e => Raise e
  end.

Definition requirements_value (w : world) : result bool :=
  match requirement_errors_value w with
  | Ok errors => Ok (errors =? 0)
  | Raise e => Raise e
  end.

(** The read-only queries of the requirements check. *)
Definition is_probe (o : op) : Prop :=
  match o with
  | RunVersion _ | DiskUsage _ => True
  | _ => False
  end.

(** No directory appears. *)
Definition no_new_dir (s s' : state) : Prop :=
  forall p, fs s' p = Some Dir -> fs s p = Some Dir.

(** While the parent of the log file is missing, the file system stays
    as it is. *)
Definition unlogged (self : installer) (s s' : state) : Prop :=
  fs_exists (fs s) (parent (log_file self)) = false -> fs s' = fs s.

(* ------------------------------------------------------------------ *)
(** * Example hosts *)

Definition user_home : path := ["home"; "user"].

(** A repository working tree: version-control metadata, a manifest and
    an environment template. *)
Definition demo_tree : tree :=
  fun p => if path_eq_dec p [] then Some Dir
           else if path_eq_dec p [".git"] then Some Dir
           else if path_eq_dec p ["package.json"] then Some (File "{}")
           else if path_eq_dec p [".env.example"] then Some (File "VITE_PORT=5173")
           else None.

Definition version_banner (command : string) : result (Z * string) :=
  Ok (0, command ++ " 1.0" ++ nl).

Definition not_installed (command : string) : result (Z * string) :=
  Raise (mk_exn FileNotFoundError
           ("[Errno 2] No such file or directory: '" ++ command ++ "'")).

(** A host on which every tool answers and every operation succeeds;
    a download reports three blocks. *)
Definition host_ready : world := {|
  os_name := "posix";
  python_version := "3.11.4";
  home := user_home;
  run_version := version_banner;
  disk_usage := fun _ => Ok (100 * 1024 ^ 3);
  os_error := fun _ => None;
  append_error := fun _ => None;
  git_pull := fun _ => Ok demo_tree;
  git_clone := fun _ _ => Ok demo_tree;
  npm_install := fun _ => Ok demo_tree;
  npm_run_build := fun _ => Ok demo_tree;
  mkdtemp := Ok ["tmp"; "tmpq1w2e3"];
  url_blocks := fun _ => [(0%N, 8192%N, 16384); (1%N, 8192%N, 16384); (2%N, 8192%N, 16384)];
  url_fetch := fun _ => Ok (Ok [("anarqq-ecosystem-demo-main", demo_tree)])
|}.

(** The same host with one tool's version query replaced. *)
Definition with_tool (w : world) (command : string) (r : result (Z * string)) : world := {|
  os_name := os_name w;
  python_version := python_version w;
  home := home w;
  run_version := fun c => if String.eqb c command then r else run_version w c;
  disk_usage := disk_usage w;
  os_error := os_error w;
  append_error := append_error w;
  git_pull := git_pull w;
  git_clone := git_clone w;
  npm_install := npm_install w;
  npm_run_build := npm_run_build w;
  mkdtemp := mkdtemp w;
  url_blocks := url_blocks w;
  url_fetch := url_fetch w
|}.

Definition host_without_git : world := with_tool host_ready "git" (not_installed "git").
Definition host_without_node : world := with_tool host_ready "node" (not_installed "node").

(** A home directory and nothing below it. *)
Definition fresh_fs : filesystem :=
  fun p => if is_under p user_home then Some Dir else None.

Definition state_of (f : filesystem) : state := mk_state f (fun _ => None) [] [] [] [].

Definition fresh_state : state := state_of fresh_fs.

(** The installer as the graphical front end sets it up. *)
Definition gui_installer : installer :=
  installer_at (user_home // "anarqq-ecosystem") true true.

(** A host where the installation root is already there. *)
Definition rerun_state : state :=
  state_of (fs_set fresh_fs (install_dir gui_installer) Dir).

(** A host with a configured demo: the template and a live environment
    file edited by the user. *)
Definition configured_state : state :=
  state_of
    (fs_set
       (fs_set fresh_fs (demo_dir gui_installer // ".env.example") (File "VITE_PORT=5173"))
       (demo_dir gui_installer // ".env") (File "VITE_PORT=8080")).

(** The version-control commands. *)
Definition is_vcs (o : op) : bool :=
  match o with
  | GitPull _ | GitClone _ _ => true
  | _ => false
  end.

(** The version-control command [git_attempt] chooses in a state, and
    the host's answer to it. *)
Definition has_working_copy (s : state) (destination : path) : bool :=
  fs_exists (fs s) destination && fs_exists (fs s) (destination // ".git").

Definition vcs_op (s : state) (repo_url : string) (destination : path) : op :=
  if has_working_copy s destination then GitPull destination
  else GitClone repo_url destination.

Definition vcs_answer (w : world) (s : state) (repo_url : string) (destination : path)
  : result tree :=
  if has_working_copy s destination then git_pull w destination
  else git_clone w repo_url destination.

Definition vcs_done_message (s : state) (destination : path) (name : string) : string :=
  if has_working_copy s destination
  then "✅ Updated " ++ name ++ " repository"
  else "✅ Cloned " ++ name ++ " repository".

(** The state in which [git_attempt] has issued its command. *)
Definition vcs_issued (w : world) (self : installer) (s : state) (repo_url : string)
    (destination : path) (name : string) : state :=
  add_op (vcs_op s repo_url destination)
    (logged w self ("Cloning " ++ name ++ " repository...") "INFO" s).

Definition is_called_process_error (e : exn) : Prop := exn_kind e = CalledProcessError.

(** The state after the report hook ran on the given blocks. *)
Definition hooked (self : installer) (description : string) (blocks : list (N * N * Z))
    (s : state) : state :=
  snd (for_each blocks (progress_hook self description) s).

(** The percentage the report hook computes for a block, when the
    total size is known. *)
Definition hook_percent (block : N * N * Z) : option Z :=
  let '(block_num, block_size, total_size) := block in
  if 0 <? total_size
  then Some (Z.min 100 ((Z.of_N block_num * Z.of_N block_size * 100) / total_size))
  else None.

(** The percentages a download of [url] reports. *)
Definition download_percents (w : world) (url : string) : list Z :=
  flat_map (fun b => match hook_percent b with Some p => [p] | None => [] end)
    (url_blocks w url).

(** The archive cannot be had: the download fails or what it delivers
    does not unpack. *)
Definition archive_fails (w : world) (zip_url : string) (e : exn) : Prop :=
  url_fetch w zip_url = Raise e \/ url_fetch w zip_url = Ok (Raise e).

(** Version control cannot deliver [destination]: git is not available,
    or both the pull and the clone exit non-zero. *)
Definition vcs_unusable (w : world) (repo_url : string) (destination : path) : Prop :=
  (exists version, probe w "git" = Ok (false, version)) \/
  (available w "git" = true /\
   (exists e, git_pull w destination = Raise e /\ is_called_process_error e) /\
   (exists e, git_clone w repo_url destination = Raise e /\ is_called_process_error e)).

(** A host whose network is down: git is missing and no archive can be
    downloaded. *)
Definition network_down : exn := mk_exn OtherException "<urlopen error [Errno 101] Network is unreachable>".

Definition host_offline : world := {|
  os_name := os_name host_without_git;
  python_version := python_version host_without_git;
  home := home host_without_git;
  run_version := run_version host_without_git;
  disk_usage := disk_usage host_without_git;
  os_error := os_error host_without_git;
  append_error := append_error host_without_git;
  git_pull := git_pull host_without_git;
  git_clone := git_clone host_without_git;
  npm_install := npm_install host_without_git;
  npm_run_build := npm_run_build host_without_git;
  mkdtemp := mkdtemp host_without_git;
  url_blocks := fun _ => [];
  url_fetch := fun _ => Raise network_down
|}.

(** The states of [install_dependencies] in which the install command
    and the build command have been issued. *)
Definition npm_install_issued (w : world) (self : installer) (directory : path)
    (name : string)
    (s : state) : state :=
  add_op (NpmInstall directory)
    (logged w self ("Installing " ++ name ++ " dependencies...") "INFO" s).

Definition npm_build_issued (w : world) (self : installer) (directory : path)
    (name : string)
    (t : tree) (s : state) : state :=
  let s1 := npm_install_issued w self directory name s in
  add_op (NpmRunBuild directory)
    (logged w self ("✅ " ++ name ++ " dependencies installed") "INFO"
       (set_fs (fs_graft (fs s1) directory t) s1)).

(** Everything the run needs from the host works, except the build:
    the required tools answer, no OS call is refused, git delivers, the
    package manager installs. *)
Definition healthy_but_build (w : world) (self : installer) : Prop :=
  requirements_value w = Ok true /\
  (forall o, os_error w o = None) /\
  available w "git" = true /\
  (forall d, exists t, git_pull w d = Ok t) /\
  (forall u d, exists t, git_clone w u d = Ok t) /\
  (exists t, npm_install w (demo_dir self) = Ok t).

Definition build_error : exn :=
  mk_exn CalledProcessError
    "Command '['npm', 'run', 'build']' returned non-zero exit status 1.".

Definition install_error : exn :=
  mk_exn CalledProcessError
    "Command '['npm', 'install']' returned non-zero exit status 1.".

(** A host on which the build script fails, and one on which the
    dependencies cannot be installed. *)
Definition host_build_fails : world := {|
  os_name := os_name host_ready;
  python_version := python_version host_ready;
  home := home host_ready;
  run_version := run_version host_ready;
  disk_usage := disk_usage host_ready;
  os_error := os_error host_ready;
  append_error := append_error host_ready;
  git_pull := git_pull host_ready;
  git_clone := git_clone host_ready;
  npm_install := npm_install host_ready;
  npm_run_build := fun _ => Raise build_error;
  mkdtemp := mkdtemp host_ready;
  url_blocks := url_blocks host_ready;
  url_fetch := url_fetch host_ready
|}.

Definition host_install_fails : world := {|
  os_name := os_name host_ready;
  python_version := python_version host_ready;
  home := home host_ready;
  run_version := run_version host_ready;
  disk_usage := disk_usage host_ready;
  os_error := os_error host_ready;
  append_error := append_error host_ready;
  git_pull := git_pull host_ready;
  git_clone := git_clone host_ready;
  npm_install := fun _ => Raise install_error;
  npm_run_build := npm_run_build host_ready;
  mkdtemp := mkdtemp host_ready;
  url_blocks := url_blocks host_ready;
  url_fetch := url_fetch host_ready
|}.

(* ------------------------------------------------------------------ *)
(** * The steps of a run *)

(** The steps the [try] block of [install] calls, in order. *)
Inductive step :=
| CheckRequirements
| SetupDirectories
| AcquireDemo
| AcquireCore
| InstallDependencies
| SetupEnvironment
| CreateLaunchers.

Section Steps.

Variable w : world.
Variable self : installer.
Variable install_core : bool.

(** The rest of the [try] block from a step on. *)
Definition from_launchers : M bool :=
  create_launchers w self ;;
  update_progress self 100 "Installation completed" ;;
  log w self "🎉 Installation completed successfully!" "INFO" ;;
  ret true.

Definition from_environment : M bool :=
  setup_environment w self ;;
  update_progress self 90 "Environment configured" ;;
  from_launchers.

Definition from_dependencies : M bool :=
  install_dependencies w self (demo_dir self) "Demo" ;;
  update_progress self 80 "Dependencies installed" ;;
  from_environment.

Definition from_core : M bool :=
  clone_or_download_repo w self (core_repo CONFIG) (core_zip CONFIG) (core_dir self) "Core" ;;
  update_progress self 60 "Core repository downloaded" ;;
  from_dependencies.

Definition from_demo : M bool :=
  clone_or_download_repo w self (demo_repo CONFIG) (demo_zip CONFIG) (demo_dir self) "Demo" ;;
  update_progress self 40 "Demo repository downloaded" ;;
  if install_core then from_core
  else update_progress self 60 "Skipping core repository" ;;
       from_dependencies.

Definition from_directories : M bool :=
  setup_directories w self ;;
  update_progress self 20 "Directories created" ;;
  from_demo.

Definition from_requirements : M bool :=
  met <- check_system_requirements w self ;;
  if negb met
  then log w self "❌ System requirements not met" "ERROR" ;;
       ret false
  else update_progress self 10 "System requirements checked" ;;
       from_directories.

Definition resume (st : step) : M bool :=
  match st with
  | CheckRequirements => from_requirements
  | SetupDirectories => from_directories
  | AcquireDemo => from_demo
  | AcquireCore => from_core
  | InstallDependencies => from_dependencies
  | SetupEnvironment => from_environment
  | CreateLaunchers => from_launchers
  end.

(** [enters s st s_k]: the run of [install] that starts in [s] calls
    step [st], in state [s_k]. *)
Inductive enters (s : state) : step -> state -> Prop :=
| enters_requirements :
    enters s CheckRequirements (progressed self 0 "Starting installation..." s)
| enters_directories s0 s1 :
    enters s CheckRequirements s0 ->
    check_system_requirements w self s0 = (Ok true, s1) ->
    enters s SetupDirectories (progressed self 10 "System requirements checked" s1)
| enters_demo s0 s1 :
    enters s SetupDirectories s0 ->
    setup_directories w self s0 = (Ok tt, s1) ->
    enters s AcquireDemo (progressed self 20 "Directories created" s1)
| enters_core s0 s1 :
    install_core = true ->
    enters s AcquireDemo s0 ->
    clone_or_download_repo w self (demo_repo CONFIG) (demo_zip CONFIG) (demo_dir self)
      "Demo" s0 = (Ok tt, s1) ->
    enters s AcquireCore (progressed self 40 "Demo repository downloaded" s1)
| enters_dependencies_after_core s0 s1 :
    enters s AcquireCore s0 ->
    clone_or_download_repo w self (core_repo CONFIG) (core_zip CONFIG) (core_dir self)
      "Core" s0 = (Ok tt, s1) ->
    enters s InstallDependencies (progressed self 60 "Core repository downloaded" s1)
| enters_dependencies_without_core s0 s1 :
    install_core = false ->
    enters s AcquireDemo s0 ->
    clone_or_download_repo w self (demo_repo CONFIG) (demo_zip CONFIG) (demo_dir self)
      "Demo" s0 = (Ok tt, s1) ->
    enters s InstallDependencies
      (progressed self 60 "Skipping core repository"
         (progressed self 40 "Demo repository downloaded" s1))
| enters_environment s0 s1 :
    enters s InstallDependencies s0 ->
    install_dependencies w self (demo_dir self) "Demo" s0 = (Ok tt, s1) ->
    enters s SetupEnvironment (progressed self 80 "Dependencies installed" s1)
| enters_launchers s0 s1 :
    enters s SetupEnvironment s0 ->
    setup_environment w self s0 = (Ok tt, s1) ->
    enters s CreateLaunchers (progressed self 90 "Environment configured" s1).

(** Step [st], called in state [s_k], raises [e] and leaves state [s1]. *)
Definition step_raises (st : step) (s_k : state) (e : exn) (s1 : state) : Prop :=
  match st with
  | CheckRequirements => check_system_requirements w self s_k = (Raise e, s1)
  | SetupDirectories => setup_directories w self s_k = (Raise e, s1)
  | AcquireDemo =>
      clone_or_download_repo w self (demo_repo CONFIG) (demo_zip CONFIG) (demo_dir self)
        "Demo" s_k = (Raise e, s1)
  | AcquireCore =>
      clone_or_download_repo w self (core_repo CONFIG) (core_zip CONFIG) (core_dir self)
        "Core" s_k = (Raise e, s1)
  | InstallDependencies =>
      install_dependencies w self (demo_dir self) "Demo" s_k = (Raise e, s1)
  | SetupEnvironment => setup_environment w self s_k = (Raise e, s1)
  | CreateLaunchers => create_launchers w self s_k = (Raise e, s1)
  end.

End Steps.

Definition permission_denied : exn :=
  mk_exn OtherException "[Errno 13] Permission denied".

(** A host that refuses every append to a file, as for a log file the
    user may not write. *)
Definition host_unwritable_log : world := {|
  os_name := os_name host_ready;
  python_version := python_version host_ready;
  home := home host_ready;
  run_version := run_version host_ready;
  disk_usage := disk_usage host_ready;
  os_error := os_error host_ready;
  append_error := fun _ => Some permission_denied;
  git_pull := git_pull host_ready;
  git_clone := git_clone host_ready;
  npm_install := npm_install host_ready;
  npm_run_build := npm_run_build host_ready;
  mkdtemp := mkdtemp host_ready;
  url_blocks := url_blocks host_ready;
  url_fetch := url_fetch host_ready
|}.

(** A host on which no directory can be created. *)
Definition host_readonly : world := {|
  os_name := os_name host_ready;
  python_version := python_version host_ready;
  home := home host_ready;
  run_version := run_version host_ready;
  disk_usage := disk_usage host_ready;
  os_error := fun o => match o with
                       | Mkdir _ => Some permission_denied
                       | _ => None
                       end;
  append_error := append_error host_ready;
  git_pull := git_pull host_ready;
  git_clone := git_clone host_ready;
  npm_install := npm_install host_ready;
  npm_run_build := npm_run_build host_ready;
  mkdtemp := mkdtemp host_ready;
  url_blocks := url_blocks host_ready;
  url_fetch := url_fetch host_ready
|}.


(* ------------------------------------------------------------------ *)
(** * Progress values *)

(** The checkpoints of the [try] block of [install]. *)
Definition checkpoints : list Z := [0; 10; 20; 40; 60; 80; 90; 100].

Fixpoint nondecreasing (l : list Z) : Prop :=
  match l with
  | a :: (b :: _) as l' => a <= b /\ nondecreasing l'
  | _ => True
  end.

(** The values that reach the callback: all of them, or none without a
    callback. *)
Definition reported (self : installer) (l : list Z) : list Z :=
  if progress_callback self then l else [].

(** The calls of the progress callback made by the report hook. *)
Definition hook_calls (self : installer) (description : string)
    (blocks : list (N * N * Z)) : list (Z * string) :=
  if progress_callback self
  then flat_map (fun b => match hook_percent b with
                          | Some percent =>
                              [(percent, "Downloading " ++ description ++ "... "
                                         ++ str_of_Z percent ++ "%")]
                          | None => []
                          end) blocks
  else [].

(** [emits self P m]: a run of [m] makes progress calls whose values are
    an initial part of a list that satisfies [P] (as far as a callback
    is installed), and all of it when [m] returns [True]. *)
Definition emits (self : installer) (P : list Z -> Prop) (m : M bool) : Prop :=
  forall s, exists expected X rest,
    P expected /\
    progress_calls (snd (m s)) = (progress_calls s ++ X)%list /\
    (map fst X ++ rest)%list = reported self expected /\
    (fst (m s) = Ok true -> rest = []).

(** The value lists of a run from the acquisition of the core, of the
    demo, and from the start. *)
Definition core_values (w : world) (l : list Z) : Prop :=
  exists D2, (D2 = [] \/ D2 = download_percents w (core_zip CONFIG)) /\
             l = (D2 ++ [60; 80; 90; 100])%list.

Definition demo_values (w : world) (install_core : bool) (l : list Z) : Prop :=
  exists D1 D2,
    (D1 = [] \/ D1 = download_percents w (demo_zip CONFIG)) /\
    (D2 = [] \/ install_core = true /\ D2 = download_percents w (core_zip CONFIG)) /\
    l = (D1 ++ [40] ++ D2 ++ [60; 80; 90; 100])%list.

Definition run_values (w : world) (install_core : bool) (l : list Z) : Prop :=
  exists D1 D2,
    (D1 = [] \/ D1 = download_percents w (demo_zip CONFIG)) /\
    (D2 = [] \/ install_core = true /\ D2 = download_percents w (core_zip CONFIG)) /\
    l = ([0; 10; 20] ++ D1 ++ [40] ++ D2 ++ [60; 80; 90; 100])%list.

(* ------------------------------------------------------------------ *)
(** * Hosts on which version control fails *)

(** The archive can be had, and the first entry it unpacks to is a
    directory. *)
Definition archive_delivers (w : world) (zip_url : string) : Prop :=
  exists entry t rest,
    url_fetch w zip_url = Ok (Ok ((entry, t) :: rest)) /\ t [] = Some Dir.

(** Everything the run needs from the host works except version
    control: git answers its version query, but every pull and every
    clone exits non-zero. *)
Definition healthy_but_vcs (w : world) (self : installer) (install_core : bool) : Prop :=
  requirements_value w = Ok true /\
  (forall o, os_error w o = None) /\
  available w "git" = true /\
  (forall d, exists e, git_pull w d = Raise e /\ is_called_process_error e) /\
  (forall u d, exists e, git_clone w u d = Raise e /\ is_called_process_error e) /\
  (exists d, mkdtemp w = Ok d) /\
  archive_delivers w (demo_zip CONFIG) /\
  (install_core = true -> archive_delivers w (core_zip CONFIG)) /\
  (exists t, npm_install w (demo_dir self) = Ok t) /\
  (exists t, npm_run_build w (demo_dir self) = Ok t).

Definition clone_error : exn :=
  mk_exn CalledProcessError
    "Command '['git', 'clone', 'https://github.com/AnarQorp/anarqq-ecosystem-demo.git', '/home/user/anarqq-ecosystem/demo']' returned non-zero exit status 128.".

(** A host on which git is installed but cannot reach the repositories. *)
Definition host_clone_fails : world := {|
  os_name := os_name host_ready;
  python_version := python_version host_ready;
  home := home host_ready;
  run_version := run_version host_ready;
  disk_usage := disk_usage host_ready;
  os_error := os_error host_ready;
  append_error := append_error host_ready;
  git_pull := fun _ => Raise clone_error;
  git_clone := fun _ _ => Raise clone_error;
  npm_install := npm_install host_ready;
  npm_run_build := npm_run_build host_ready;
  mkdtemp := mkdtemp host_ready;
  url_blocks := url_blocks host_ready;
  url_fetch := url_fetch host_ready
|}.

(* ------------------------------------------------------------------ *)
(** * Notions used in the further properties *)

(** The log file keeps what it held: its content only grows at the end. *)
Definition log_kept (self : installer) (s s' : state) : Prop :=
  exists t, file_content (fs s') (log_file self)
            = file_content (fs s) (log_file self) ++ t.

(** Records as the log file holds them, one per line. *)
Fixpoint lines (l : list string) : string :=
  match l with
  | [] => EmptyString
  | entry :: l' => entry ++ nl ++ lines l'
  end.

(** Where the installation root exists, it stays, and the log file
    gains exactly the records printed. *)
Definition log_mirrors (self : installer) (s s' : state) : Prop :=
  fs_exists (fs s) (parent (log_file self)) = true ->
  fs_exists (fs s') (parent (log_file self)) = true /\
  exists l, stdout s' = (stdout s ++ l)%list /\
            file_content (fs s') (log_file self)
            = file_content (fs s) (log_file self) ++ lines l.

(** A printed record of level ERROR. *)
Definition is_error_record (entry : string) : bool := String.prefix "[ERROR] " entry.


(** The temporary area is the same outside [d]. *)
Definition tmp_same_outside (d : path) (s s' : state) : Prop :=
  forall q, is_under d q = false -> tmp s' q = tmp s q.

(** The operations of an archive download. *)
Definition is_download (o : op) : bool :=
  match o with
  | MkTemp | RmTemp _ | UrlRetrieve _ _ | ExtractAll _ _ | IterDir _ => true
  | _ => false
  end.

(** Where the fresh temporary directory holds nothing, the temporary
    area is as before. *)
Definition tmp_restored (w : world) (s s' : state) : Prop :=
  (forall d q, mkdtemp w = Ok d -> is_under d q = true -> tmp s q = None) ->
  forall q, tmp s' q = tmp s q.

(** A path that exists still exists. *)
Definition exists_kept (p : path) (s s' : state) : Prop :=
  fs_exists (fs s) p = true -> fs_exists (fs s') p = true.

(** The log callback has received exactly the records printed. *)
Definition callback_mirrors (s s' : state) : Prop :=
  exists l, stdout s' = (stdout s ++ l)%list /\ log_calls s' = (log_calls s ++ l)%list.

(** The launcher scripts of the host's OS family. *)
Definition start_script (w : world) (self : installer) : path :=
  install_dir self // (if String.eqb (os_name w) "nt" then "start-demo.bat" else "start-demo.sh").

Definition stop_script (w : world) (self : installer) : path :=
  install_dir self
  // (if String.eqb (os_name w) "nt" then "stop-services.bat" else "stop-services.sh").

(* ------------------------------------------------------------------ *)
(** * The front ends

    [console_install], [main], the [__main__] block and the methods of
    [InstallerGUI] that drive the engine.  What the user types is a
    parameter: the lines typed at the console, the values held by the
    widgets.  Calls into Tk are taken to return normally; the window
    and its event loop are not modelled. *)

(** U+00A0 NO-BREAK SPACE, in UTF-8. *)
Definition no_break_space : string :=
  String (ascii_of_nat 194) (String (ascii_of_nat 160) EmptyString).

(** [s.lower()] on the ASCII letters (in UTF-8 no byte of another
    character is one); a character outside ASCII is left as it is,
    where Python also maps the cased letters outside ASCII.  The
    installer only compares the result with [y], and the characters
    whose lower case is [y] are [y] and [Y] alone, so the comparison is
    the one the code makes. *)
Definition lower_ascii (c : ascii) : ascii :=
  let n := nat_of_ascii c in
  if ((65 <=? n) && (n <=? 90))%nat then ascii_of_nat (n + 32) else c.

Fixpoint lower (s : string) : string :=
  match s with
  | String c s' => String (lower_ascii c) (lower s')
  | EmptyString => EmptyString
  end.

(** [s * n] *)
Fixpoint str_repeat (s : string) (n : nat) : string :=
  match n with
  | O => EmptyString
  | S n' => s ++ str_repeat s n'
  end.

(** Truth of a string in a condition. *)
Definition nonempty (s : string) : bool :=
  match s with EmptyString => false | _ => true end.

(** The four assignments of a front end that moves the installer to
    another directory; the callbacks stay. *)
Definition relocate (self : installer) (dir : path) : installer := {|
  install_dir := dir;
  demo_dir := dir // "demo";
  core_dir := dir // "core";
  log_file := dir // "install.log";
  progress_callback := progress_callback self;
  log_callback := log_callback self
|}.

Definition eof_error : exn := mk_exn OtherException "EOF when reading a line".

(** [input(prompt)]: the prompt is written to standard output (recorded
    like a printed line), the answer is the next line typed; at the end
    of the input [EOFError] is raised. *)
Definition input (prompt : string) (typed : list string) : M (string * list string) :=
  print prompt ;;
  match typed with
  | line :: rest => ret (line, rest)
  | [] => raise eof_error
  end.

Inductive dialog :=
| ShowInfo (title message : string)      (* messagebox.showinfo *)
| ShowError (title message : string).    (* messagebox.showerror *)

(** The installer of [InstallerGUI], the values of its widgets and the
    message boxes it has shown. *)
Record gui := mk_gui {
  gui_installer_of : installer;
  install_dir_var : string;
  install_core_var : bool;
  progress_var : Z;
  progress_label : string;
  log_text : string;
  install_btn_normal : bool;
  dialogs : list dialog
}.

Definition set_installer (self : installer) (g : gui) : gui :=
  mk_gui self (install_dir_var g) (install_core_var g) (progress_var g) (progress_label g)
    (log_text g) (install_btn_normal g) (dialogs g).
Definition set_install_dir_var (text : string) (g : gui) : gui :=
  mk_gui (gui_installer_of g) text (install_core_var g) (progress_var g) (progress_label g)
    (log_text g) (install_btn_normal g) (dialogs g).
Definition set_install_btn (normal : bool) (g : gui) : gui :=
  mk_gui (gui_installer_of g) (install_dir_var g) (install_core_var g) (progress_var g)
    (progress_label g) (log_text g) normal (dialogs g).
Definition show_dialog (d : dialog) (g : gui) : gui :=
  mk_gui (gui_installer_of g) (install_dir_var g) (install_core_var g) (progress_var g)
    (progress_label g) (log_text g) (install_btn_normal g) (dialogs g ++ [d]).

(** [InstallerGUI.update_progress] *)
Definition gui_update_progress (value : Z) (message : string) (g : gui) : gui :=
  mk_gui (gui_installer_of g) (install_dir_var g) (install_core_var g)
    value
    (if nonempty message then message else progress_label g)
    (log_text g) (install_btn_normal g) (dialogs g).

(** [InstallerGUI.add_log] *)
Definition gui_add_log (message : string) (g : gui) : gui :=
  mk_gui (gui_installer_of g) (install_dir_var g) (install_core_var g) (progress_var g)
    (progress_label g)
    (log_text g ++ message ++ nl)
    (install_btn_normal g) (dialogs g).

(** The calls of the two callbacks that a run added to the state,
    delivered to the methods they are bound to.  The two methods write
    to different widgets, so their interleaving does not matter. *)
Definition deliver_callbacks (s s' : state) (g : gui) : gui :=
  let g := fold_left (fun g c => gui_update_progress (fst c) (snd c) g)
             (skipn (length (progress_calls s)) (progress_calls s')) g in
  fold_left (fun g entry => gui_add_log entry g)
    (skipn (length (log_calls s)) (log_calls s')) g.

Section FrontEnds.

Variable w : world.

(** [Path(text)]: the path the host reads from a text. *)
Variable Path : string -> path.

(** [InstallerGUI.__init__] with [setup_ui]: the installer with both
    callbacks bound, the widgets at their initial values. *)
Definition new_gui : gui := {|
  gui_installer_of := installer_at (install_dir (new_installer w)) true true;
  install_dir_var := str_of_path w (install_dir (new_installer w));
  install_core_var := false;
  progress_var := 0;
  progress_label := "Ready to install";
  log_text := EmptyString;
  install_btn_normal := true;
  dialogs := []
|}.

(** [InstallerGUI.browse_directory]; [directory] is what the directory
    chooser returns, empty when it is cancelled. *)
Definition browse_directory (directory : string) (g : gui) : gui :=
  if nonempty directory
  then set_installer (relocate (gui_installer_of g) (Path directory))
         (set_install_dir_var directory g)
  else g.

(** [InstallerGUI.start_installation] *)
Definition start_installation (g : gui) (s : state) : gui * state :=
  let g := set_install_btn false g in
  (* Update installer paths *)
  let self := relocate (gui_installer_of g) (Path (install_dir_var g)) in
  let g := set_installer self g in
  (* Start installation *)
  let (r, s') := install w self (install_core_var g) s in
  let g := deliver_callbacks s s' g in
  let g :=
    match r with
    | Ok true =>
        show_dialog
          (ShowInfo "Success"
             ("Installation completed successfully!" ++ nl ++ nl ++
              "Installation directory: " ++ str_of_path w (install_dir self) ++ nl ++ nl ++
              "Use the launcher scripts to start the demo.")) g
    | Ok false =>
        show_dialog (ShowError "Error" "Installation failed. Check the log for details.") g
    | Raise e =>
        show_dialog (ShowError "Error" ("Installation failed: " ++ exn_str e)) g
    end in
  (set_install_btn true g, s').

(** [console_install]; [typed] are the lines typed at the prompts. *)
Definition console_install (typed : list string) : M bool :=
  print "🚀 AnarQ&Q Ecosystem Demo Installer (Console Mode)" ;;
  print (str_repeat "=" 50) ;;
  let installer := new_installer w in
  (* Get installation directory *)
  let default_dir := install_dir installer in
  ' (line, typed) <- input ("Installation directory [" ++ str_of_path w default_dir ++ "]: ")
                       typed ;;
  let install_dir_text := strip line in
  let installer := if nonempty install_dir_text
                   then relocate installer (Path install_dir_text)
                   else installer in
  (* Ask for core installation *)
  ' (line, _) <- input "Install complete ecosystem (core repository)? (y/N): " typed ;;
  let install_core := String.eqb (lower (strip line)) "y" in
  print (nl ++ "Starting installation...") ;;
  success <- install w installer install_core ;;
  if success : bool
  then
    print (nl ++ "🎉 Installation completed successfully!") ;;
    print ("📍 Installation directory: " ++ str_of_path w (install_dir installer)) ;;
    print ("📋 Log file: " ++ str_of_path w (log_file installer)) ;;
    print (nl ++ "🚀 To start the demo:") ;;
    (if String.eqb (os_name w) "nt"
     then print ("   " ++ str_of_path w (install_dir installer) ++ "\start-demo.bat")
     else print ("   " ++ str_of_path w (install_dir installer) ++ "/start-demo.sh")) ;;
    ret true
  else
    print (nl ++ "❌ Installation failed. Check the log for details.") ;;
    ret false.

(** [main]; [gui_available] is [GUI_AVAILABLE], [gui_session] stands
    for [app = InstallerGUI(); app.run()]. *)
Definition main (argv : list string) (gui_available : bool) (gui_session : M unit)
    (typed : list string) : M bool :=
  if (1 <? length argv)%nat && String.eqb (nth 1 argv EmptyString) "--console"
  then (* Force console mode *)
    console_install typed
  else if gui_available
  then try_except
         (gui_session ;;
          ret true)
         catch_all
         (fun e => print ("GUI failed: " ++ exn_str e) ;;
                   print "Falling back to console mode..." ;;
                   console_install typed)
  else console_install typed.

(** The import of Tk at the top of the module and the [__main__]
    block: the exit status of the process. *)
Definition run_script (argv : list string) (gui_available : bool) (gui_session : M unit)
    (typed : list string) (s : state) : Z * state :=
  let s := if gui_available then s
           else add_stdout "GUI not available, running in console mode" s in
  match main argv gui_available gui_session typed s with
  | (Ok success, s') => ((if success then 0 else 1), s')
  | (Raise e, s') => (1, add_stdout (nl ++ "Unexpected error: " ++ exn_str e) s')
  end.

End FrontEnds.

(** A host whose demo archive has no entries. *)
Definition host_empty_archive : world := {|
  os_name := os_name host_ready;
  python_version := python_version host_ready;
  home := home host_ready;
  run_version := run_version host_without_git;
  disk_usage := disk_usage host_ready;
  os_error := os_error host_ready;
  append_error := append_error host_ready;
  git_pull := git_pull host_ready;
  git_clone := git_clone host_ready;
  npm_install := npm_install host_ready;
  npm_run_build := npm_run_build host_ready;
  mkdtemp := mkdtemp host_ready;
  url_blocks := url_blocks host_ready;
  url_fetch := fun _ => Ok (Ok [])
|}.

(** A host on which the git executable cannot be run once a command is
    given to it. *)
Definition host_git_breaks : world := {|
  os_name := os_name host_ready;
  python_version := python_version host_ready;
  home := home host_ready;
  run_version := run_version host_ready;
  disk_usage := disk_usage host_ready;
  os_error := os_error host_ready;
  append_error := append_error host_ready;
  git_pull := fun _ => Raise permission_denied;
  git_clone := fun _ _ => Raise permission_denied;
  npm_install := npm_install host_ready;
  npm_run_build := npm_run_build host_ready;
  mkdtemp := mkdtemp host_ready;
  url_blocks := url_blocks host_ready;
  url_fetch := url_fetch host_ready
|}.

(** A host whose docker executable may not be run. *)
Definition host_docker_denied : world :=
  with_tool host_ready "docker" (Raise permission_denied).

(** A host with an installation: the root, the demo directory, its
    template and the environment file the user edited. *)
Definition installed_state : state :=
  state_of
    (fs_set
       (fs_set
          (fs_set
             (fs_set fresh_fs (install_dir gui_installer) Dir)
             (demo_dir gui_installer) Dir)
          (demo_dir gui_installer // ".env.example") (File "VITE_PORT=5173"))
       (demo_dir gui_installer // ".env") (File "VITE_PORT=8080")).
(* ------------------------------------------------------------------ *)
(** * Reasoning about runs *)

Section Runs.

Context {A B : Type}.

Lemma bind_ok (m : M A) (k : A -> M B) s a s1 :
  m s = (Ok a, s1) -> bind m k s = k a s1.
Proof. intros E. unfold bind. now rewrite E. Qed.

Lemma bind_raise (m : M A) (k : A -> M B) s e s1 :
  m s = (Raise e, s1) -> bind m k s = (Raise e, s1).
Proof. intros E. unfold bind. now rewrite E. Qed.

Lemma bind_cases (m : M A) (k : A -> M B) s :
  (exists a s1, m s = (Ok a, s1) /\ bind m k s = k a s1) \/
  (exists e s1, m s = (Raise e, s1) /\ bind m k s = (Raise e, s1)).
Proof.
  unfold bind. destruct (m s) as [[a | e] s1]; [left | right]; eauto.
Qed.

Lemma bind_ret (a : A) (k : A -> M B) s : bind (ret a) k s = k a s.
Proof. reflexivity. Qed.

Lemma bind_ext (m : M A) (k1 k2 : A -> M B) s :
  (forall a s1, k1 a s1 = k2 a s1) -> bind m k1 s = bind m k2 s.
Proof. intros H. unfold bind. destruct (m s) as [[a | e] s1]; [apply H | reflexivity]. Qed.

Lemma bind_assoc {C} (m : M A) (k : A -> M B) (h : B -> M C) s :
  bind (bind m k) h s = bind m (fun a => bind (k a) h) s.
Proof. unfold bind. now destruct (m s) as [[a | e] s1]. Qed.

End Runs.

Section Preservation.

Context (R : state -> state -> Prop) `{!PreOrder R}.

Lemma preserves_ret {A} (a : A) : preserves R (ret a).
Proof. intros s. reflexivity. Qed.

Lemma preserves_raise {A} e : preserves R (@raise A e).
Proof. intros s. reflexivity. Qed.

Lemma preserves_answer {A} (r : result A) : preserves R (answer r).
Proof. intros s. reflexivity. Qed.

Lemma preserves_gets {A} (f : state -> A) : preserves R (gets f).
Proof. intros s. reflexivity. Qed.

Lemma preserves_modify f : (forall s, R s (f s)) -> preserves R (modify f).
Proof. intros H s. apply H. Qed.

Lemma preserves_bind {A B} (m : M A) (k : A -> M B) :
  preserves R m -> (forall a, preserves R (k a)) -> preserves R (bind m k).
Proof.
  intros Hm Hk s. unfold bind. specialize (Hm s).
  destruct (m s) as [[a | e] s1]; simpl in *; [| assumption].
  etransitivity; [eassumption | apply Hk].
Qed.

Lemma preserves_try_except {A} (body : M A) catches handler :
  preserves R body -> (forall e, preserves R (handler e)) ->
  preserves R (try_except body catches handler).
Proof.
  intros Hb Hh s. unfold try_except. specialize (Hb s).
  destruct (body s) as [[a | e] s1]; simpl in *; [assumption |].
  destruct (catches e); [| assumption].
  etransitivity; [eassumption | apply Hh].
Qed.

Lemma preserves_when b m : preserves R m -> preserves R (when b m).
Proof. intros H. destruct b; [assumption | apply preserves_ret]. Qed.

Lemma preserves_for_each {A} (l : list A) body :
  (forall x, preserves R (body x)) -> preserves R (for_each l body).
Proof.
  intros H. induction l as [| x l IH]; simpl.
  - apply preserves_ret.
  - apply preserves_bind; auto.
Qed.

Lemma preserves_with_temporary_directory {A} w (body : path -> M A) :
  (forall s, R s (add_op MkTemp s)) ->
  (forall d s, R s (tmp_cleanup d (add_op (RmTemp d) s))) ->
  (forall d, preserves R (body d)) ->
  preserves R (with_temporary_directory w body).
Proof.
  intros Hmk Hrm Hb. unfold with_temporary_directory, perform.
  apply preserves_bind; [apply preserves_modify, Hmk | intros _].
  apply preserves_bind; [apply preserves_answer | intros d].
  intros s. specialize (Hb d s). destruct (body d s) as [r s1]. simpl in *.
  etransitivity; [eassumption | apply Hrm].
Qed.

End Preservation.

(** The relations of the frame properties are preorders. *)

#[local] Instance same_preorder {T} (f : state -> T) : PreOrder (same f).
Proof.
  split; [intros s; reflexivity |].
  intros a b c H1 H2. unfold same in *. congruence.
Qed.

#[local] Instance fs_same_on_preorder P : PreOrder (fs_same_on P).
Proof.
  split; [intros s p _; reflexivity |].
  intros a b c H1 H2 p Hp. rewrite (H2 p Hp). now apply H1.
Qed.

#[local] Instance grows_preorder {T} (f : state -> list T) Q : PreOrder (grows f Q).
Proof.
  split.
  - intros s. exists []. split; [now rewrite app_nil_r | constructor].
  - intros a b c [l1 [E1 F1]] [l2 [E2 F2]]. exists (l1 ++ l2)%list. split.
    + now rewrite E2, E1, app_assoc.
    + apply Forall_app. now split.
Qed.

Lemma grows_same {T} (f : state -> list T) Q s s' : same f s s' -> grows f Q s s'.
Proof. intros E. exists []. split; [now rewrite app_nil_r | constructor]. Qed.

Lemma grows_one {T} (f : state -> list T) (Q : T -> Prop) s s' x :
  f s' = (f s ++ [x])%list -> Q x -> grows f Q s s'.
Proof. intros E HQ. exists [x]. split; [assumption | now constructor]. Qed.

(** Structural steps of a preservation proof; [leaf] closes the goals
    on the primitive state changes. *)
Ltac preserves_structure :=
  lazymatch goal with
  | |- preserves _ (bind _ _) => apply preserves_bind; [exact _ | | intros ?]
  | |- preserves _ (ret _) => apply preserves_ret; exact _
  | |- preserves _ (raise _) => apply preserves_raise; exact _
  | |- preserves _ (answer _) => apply preserves_answer; exact _
  | |- preserves _ (gets _) => apply preserves_gets; exact _
  | |- preserves _ (try_except _ _ _) => apply preserves_try_except; [exact _ | | intros ?]
  | |- preserves _ (when _ _) => apply preserves_when; [exact _ |]
  | |- preserves _ (for_each _ _) => apply preserves_for_each; [exact _ | intros ?]
  | |- preserves _ (with_temporary_directory _ _) =>
      apply preserves_with_temporary_directory; [exact _ | intros ? | intros ? ? | intros ?]
  | |- preserves _ (modify _) => apply preserves_modify; intros ?
  | |- preserves _ (match ?x with _ => _ end) => destruct x
  end.

Ltac unfold_primitive :=
  progress unfold print, perform, os_call, path_exists, append_text, write_text,
    mkdir, touch, chmod, copy2, rmtree, move, run_checked, iterdir,
    update_progress, progress_hook.

Ltac preserves_with leaf :=
  repeat first
    [ solve [eauto with preserves]
    | preserves_structure
    | unfold_primitive
    | solve [leaf] ].

Ltac same_leaf :=
  repeat match goal with
         | |- same _ ?s (if ?b then _ else _) => destruct b
         | |- same _ ?s (match ?x with _ => _ end) => destruct x
         end;
  reflexivity.

Create HintDb preserves.

Section Frames.

Variable w : world.
Variable self : installer.

(** Logging touches neither the operations issued nor the progress
    calls nor the temporary area. *)
Lemma log_same_ops message level : preserves (same ops) (log w self message level).
Proof. unfold log. preserves_with same_leaf. Qed.

Lemma log_same_progress message level :
  preserves (same progress_calls) (log w self message level).
Proof. unfold log. preserves_with same_leaf. Qed.

End Frames.

(* ------------------------------------------------------------------ *)
(** * Running the primitives *)

Lemma log_sink_ok_works w self s : log_sink_ok w self -> log_works w self s.
Proof. intros H _. exact H. Qed.

Lemma log_run w self message level s :
  log_works w self s ->
  log w self message level s = (Ok tt, logged w self message level s).
Proof.
  unfold log_works, logged, log, bind, print, modify, path_exists, gets, when, append_text,
    ret.
  cbn [fs add_stdout]. destruct (fs_exists _ _).
  - intros H. rewrite (H eq_refl). now destruct (log_callback self).
  - intros _. now destruct (log_callback self).
Qed.

(** A refused append leaves the record on standard output and raises. *)
Lemma log_refused w self message level s e :
  fs_exists (fs s) (parent (log_file self)) = true ->
  append_error w (log_file self) = Some e ->
  log w self message level s = (Raise e, add_stdout (log_entry message level) s).
Proof.
  unfold log, bind, print, modify, path_exists, gets, when, append_text, raise.
  cbn [fs add_stdout]. now intros -> ->.
Qed.

(** A record is written or refused. *)
Lemma log_cases w self message level s :
  log w self message level s = (Ok tt, logged w self message level s) \/
  exists e, log w self message level s = (Raise e, add_stdout (log_entry message level) s).
Proof.
  destruct (fs_exists (fs s) (parent (log_file self))) eqn:Hex.
  - destruct (append_error w (log_file self)) as [e |] eqn:Ha.
    + right. exists e. now apply log_refused.
    + left. apply log_run. intros _. exact Ha.
  - left. apply log_run. intros Hex'. congruence.
Qed.

Lemma bind_log_cases {B} w self message level (k : unit -> M B) s :
  bind (log w self message level) k s = k tt (logged w self message level s) \/
  exists e, bind (log w self message level) k s
            = (Raise e, add_stdout (log_entry message level) s).
Proof.
  destruct (log_cases w self message level s) as [E | [e E]].
  - left. apply bind_ok, E.
  - right. exists e. apply bind_raise, E.
Qed.

Lemma bind_log {B} w self message level (k : unit -> M B) s :
  log_works w self s ->
  bind (log w self message level) k s = k tt (logged w self message level s).
Proof. intros H. apply bind_ok, log_run, H. Qed.

Lemma logged_stdout w self message level s :
  stdout (logged w self message level s) = (stdout s ++ [log_entry message level])%list.
Proof.
  unfold logged, log, bind, print, modify, path_exists, gets, when, append_text, ret, raise.
  cbn [fs add_stdout].
  destruct (fs_exists _ _), (append_error w (log_file self)), (log_callback self);
    reflexivity.
Qed.

Lemma logged_log_calls w self message level s :
  log_works w self s ->
  log_calls (logged w self message level s) =
  (log_calls s ++ if log_callback self then [log_entry message level] else [])%list.
Proof.
  unfold log_works, logged, log, bind, print, modify, path_exists, gets, when, append_text,
    ret.
  cbn [fs add_stdout]. destruct (fs_exists _ _).
  - intros H. rewrite (H eq_refl).
    destruct (log_callback self); cbn; now rewrite ?app_nil_r.
  - intros _. destruct (log_callback self); cbn; now rewrite ?app_nil_r.
Qed.

Lemma logged_fs w self message level s :
  fs (logged w self message level s) =
  if fs_exists (fs s) (parent (log_file self))
  then match append_error w (log_file self) with
       | None =>
           fs_set (fs s) (log_file self)
             (File (file_content (fs s) (log_file self) ++ log_entry message level ++ nl))
       | Some _ => fs s
       end
  else fs s.
Proof.
  unfold logged, log, bind, print, modify, path_exists, gets, when, append_text, ret, raise.
  cbn [fs add_stdout].
  destruct (fs_exists _ _), (append_error w (log_file self)), (log_callback self);
    reflexivity.
Qed.

Lemma logged_ops w self message level s : ops (logged w self message level s) = ops s.
Proof. apply log_same_ops. Qed.

Lemma logged_progress w self message level s :
  progress_calls (logged w self message level s) = progress_calls s.
Proof. apply log_same_progress. Qed.

(** Once a record can be written, the next one can. *)
Lemma log_works_logged w self message level s :
  log_works w self s -> log_works w self (logged w self message level s).
Proof.
  unfold log_works. rewrite logged_fs.
  destruct (fs_exists (fs s) (parent (log_file self))) eqn:Hex.
  - intros H _. now apply H.
  - now rewrite Hex.
Qed.

Lemma log_works_same_fs w self s s' : fs s' = fs s -> log_works w self s -> log_works w self s'.
Proof. unfold log_works. now intros ->. Qed.

Lemma log_works_add_op w self o s : log_works w self s -> log_works w self (add_op o s).
Proof. exact (fun H => H). Qed.

Lemma update_progress_run self value message s :
  update_progress self value message s = (Ok tt, progressed self value message s).
Proof. unfold update_progress, progressed, when. now destruct (progress_callback self). Qed.

Lemma bind_update_progress {B} self value message (k : unit -> M B) s :
  bind (update_progress self value message) k s = k tt (progressed self value message s).
Proof. apply bind_ok, update_progress_run. Qed.

Lemma check_command_run w command s :
  check_command w command s = (probe w command, add_op (RunVersion command) s).
Proof.
  unfold check_command, probe, try_except, bind, perform, modify, answer, ret.
  destruct (run_version w command) as [[rc out] | e]; [reflexivity |].
  now destruct (_ || _).
Qed.

Lemma bind_check_command {B} w command (k : bool * string -> M B) s :
  bind (check_command w command) k s =
  match probe w command with
  | Ok r => k r (add_op (RunVersion command) s)
  | Raise e => (Raise e, add_op (RunVersion command) s)
  end.
Proof. unfold bind. rewrite check_command_run. now destruct (probe w command). Qed.

(** The side condition of a log step. *)
Ltac log_side :=
  solve [ repeat match goal with
                 | H : log_works ?w ?self ?s |- log_works ?w ?self ?s => exact H
                 | H : log_sink_ok ?w ?self |- log_works ?w ?self ?s =>
                     exact (log_sink_ok_works w self s H)
                 | |- log_works _ _ (logged _ _ _ _ _) => apply log_works_logged
                 | |- log_works _ _ (add_op _ _) => apply log_works_add_op
                 end ].

(** Case analysis on a log step: the record is written and the rest
    runs, or it is refused and the sequence raises. *)
Ltac log_split :=
  lazymatch goal with
  | |- context [bind (log ?w ?self ?m ?l) ?k ?s] =>
      let e := fresh "e" in
      destruct (bind_log_cases w self m l k s) as [-> | [e ->]]
  end.

Ltac run_logs :=
  repeat first [ rewrite bind_assoc | rewrite bind_log by log_side | rewrite bind_ret ].

Ltac probe_case w c :=
  run_logs; rewrite bind_check_command;
  destruct (probe w c) as [[[|] ?] | ?]; [| | reflexivity].

Ltac disk_case w :=
  run_logs; unfold try_except; unfold bind at 1; unfold perform, modify, answer;
  (destruct (disk_usage w (home w)) as [free | e];
   [ unfold bind at 1; destruct (_ <=? free); run_logs; unfold ret; cbn [fst]; reflexivity
   | unfold bind at 1, catch_all; run_logs; unfold ret; cbn [fst]; reflexivity ]).

Lemma requirement_errors_fst w self s :
  log_works w self s ->
  fst (requirement_errors w self s) = requirement_errors_value w.
Proof.
  intros Hw.
  unfold requirement_errors, requirement_errors_value, error_tally, available,
    insufficient_disk.
  probe_case w "node"; probe_case w "npm"; probe_case w "git"; probe_case w "docker";
    disk_case w.
Qed.

Lemma check_system_requirements_fst w self s :
  log_works w self s ->
  fst (check_system_requirements w self s) = requirements_value w.
Proof.
  intros Hw. unfold check_system_requirements, requirements_value, bind.
  rewrite <- (requirement_errors_fst w self s Hw).
  now destruct (requirement_errors w self s) as [[n | e] s1].
Qed.

(** The check begins with a log record: if it returns, that record
    could be written. *)
Lemma check_system_requirements_returns_log_works w self s b :
  fst (check_system_requirements w self s) = Ok b -> log_works w self s.
Proof.
  intros H Hex. destruct (append_error w (log_file self)) as [e |] eqn:Ha; [| reflexivity].
  exfalso. revert H. unfold check_system_requirements, requirement_errors.
  rewrite !bind_assoc.
  rewrite (bind_raise _ _ _ _ _ (log_refused w self _ _ s e Hex Ha)). discriminate.
Qed.

Lemma probes_answer_value w :
  probes_answer w = true -> requirement_errors_value w = Ok (error_tally w).
Proof.
  unfold probes_answer, answers, requirement_errors_value. simpl.
  destruct (probe w "node"), (probe w "npm"), (probe w "git"), (probe w "docker");
    simpl; intros H; try discriminate H; reflexivity.
Qed.

(* ------------------------------------------------------------------ *)
(** * What the steps leave alone *)

Ltac grows_leaf :=
  first [ apply grows_same; same_leaf
        | eapply grows_one; [reflexivity | simpl; auto] ].

Ltac fs_leaf :=
  idtac;
  let p := fresh "p" in
  let Hp := fresh "Hp" in
  intros p Hp; simpl;
  repeat match goal with
         | |- context [if ?b then _ else _] => destruct b
         | |- context [match ?x with _ => _ end] => destruct x
         end;
  simpl; unfold fs_set;
  repeat match goal with
         | |- context [path_eq_dec ?a ?b] => destruct (path_eq_dec a b)
         end;
  solve [reflexivity | congruence | contradiction | tauto].

Section RequirementFrames.

Variable w : world.
Variable self : installer.

Lemma log_grows_ops Q message level : preserves (grows ops Q) (log w self message level).
Proof. unfold log. preserves_with grows_leaf. Qed.

Lemma log_same_tmp message level : preserves (same tmp) (log w self message level).
Proof. unfold log. preserves_with same_leaf. Qed.

(** A log record changes the file system at the log file only. *)
Lemma log_fs_frame (P : path -> Prop) message level :
  (forall p, P p -> p <> log_file self) ->
  preserves (fs_same_on P) (log w self message level).
Proof.
  intros HP. unfold log. preserves_with fs_leaf.
  intros p Hp. simpl. unfold fs_set. specialize (HP p Hp).
  now destruct (path_eq_dec p (log_file self)).
Qed.

#[local] Hint Resolve log_same_ops log_same_progress log_grows_ops log_same_tmp : preserves.

Lemma check_system_requirements_probes_only :
  preserves (grows ops is_probe) (check_system_requirements w self).
Proof.
  unfold check_system_requirements, requirement_errors, check_command.
  preserves_with grows_leaf.
Qed.

Lemma check_system_requirements_same_progress :
  preserves (same progress_calls) (check_system_requirements w self).
Proof.
  unfold check_system_requirements, requirement_errors, check_command.
  preserves_with same_leaf.
Qed.

Lemma check_system_requirements_fs_frame (P : path -> Prop) :
  (forall p, P p -> p <> log_file self) ->
  preserves (fs_same_on P) (check_system_requirements w self).
Proof.
  intros HP. pose proof (fun m l => log_fs_frame P m l HP) as Hlog.
  unfold check_system_requirements, requirement_errors, check_command.
  preserves_with fs_leaf.
Qed.

End RequirementFrames.

#[local] Instance no_new_dir_preorder : PreOrder no_new_dir.
Proof.
  split; [intros s p H; exact H |].
  intros a b c H1 H2 p Hp. apply H1, H2, Hp.
Qed.

#[local] Instance unlogged_preorder self : PreOrder (unlogged self).
Proof.
  split; [intros s _; reflexivity |].
  intros a b c H1 H2 Ha. specialize (H1 Ha).
  rewrite <- H1. apply H2. now rewrite H1.
Qed.

Section RequirementFrames2.

Variable w : world.
Variable self : installer.

Lemma log_no_new_dir message level : preserves no_new_dir (log w self message level).
Proof.
  unfold log. preserves_with ltac:(intros p; exact (fun H => H)).
  intros p. simpl. unfold fs_set.
  destruct (path_eq_dec p (log_file self)); [discriminate | exact (fun H => H)].
Qed.

Lemma log_unlogged message level : preserves (unlogged self) (log w self message level).
Proof.
  intros s Hs. fold (logged w self message level s). now rewrite logged_fs, Hs.
Qed.

#[local] Hint Resolve log_no_new_dir log_unlogged : preserves.

Lemma check_system_requirements_no_new_dir :
  preserves no_new_dir (check_system_requirements w self).
Proof.
  unfold check_system_requirements, requirement_errors, check_command.
  preserves_with ltac:(intros p; exact (fun H => H)).
Qed.

Lemma check_system_requirements_unlogged :
  preserves (unlogged self) (check_system_requirements w self).
Proof.
  unfold check_system_requirements, requirement_errors, check_command.
  preserves_with ltac:(intros _; reflexivity).
Qed.

End RequirementFrames2.

(* ------------------------------------------------------------------ *)
(** * The requirements check *)

(** C4. Where its records can be written, [check_system_requirements]
    passes exactly when the error tally is zero.  The tally counts an
    unavailable node, an unavailable npm and a known free space below
    the configured minimum, and nothing else: hosts that differ in git
    and docker only have the same tally. *)
Theorem requirements_pass_iff_tally_zero w self s :
  log_works w self s ->
  probes_answer w = true ->
  fst (requirement_errors w self s) = Ok (error_tally w) /\
  fst (check_system_requirements w self s) = Ok (error_tally w =? 0) /\
  (error_tally w = 0 <->
   available w "node" = true /\ available w "npm" = true /\ insufficient_disk w = false) /\
  (forall w', run_version w' "node" = run_version w "node" ->
              run_version w' "npm" = run_version w "npm" ->
              disk_usage w' (home w') = disk_usage w (home w) ->
              error_tally w' = error_tally w).
Proof.
  intros Hw H. apply probes_answer_value in H.
  repeat split.
  - now rewrite requirement_errors_fst.
  - rewrite check_system_requirements_fst by exact Hw. unfold requirements_value.
    now rewrite H.
  - unfold error_tally in *.
    destruct (available w "node"), (available w "npm"), (insufficient_disk w);
      try reflexivity; lia.
  - unfold error_tally in *.
    destruct (available w "node"), (available w "npm"), (insufficient_disk w);
      try reflexivity; lia.
  - unfold error_tally in *.
    destruct (available w "node"), (available w "npm"), (insufficient_disk w);
      try reflexivity; lia.
  - intros [Hn [Hm Hd]]. unfold error_tally. now rewrite Hn, Hm, Hd.
  - intros w' Hn Hm Hd. unfold error_tally, available, insufficient_disk, probe.
    now rewrite Hn, Hm, Hd.
Qed.

(** On a host without git the check still passes. *)
Lemma requirements_pass_without_git :
  fst (check_system_requirements host_without_git gui_installer fresh_state) = Ok true.
Proof.
  exact (proj1 (proj2 (requirements_pass_iff_tally_zero
                         host_without_git gui_installer fresh_state
                         (fun _ => eq_refl) eq_refl))).
Defined.

Lemma progressed_fs self value message s : fs (progressed self value message s) = fs s.
Proof. unfold progressed. now destruct (progress_callback self). Qed.

Lemma progressed_ops self value message s : ops (progressed self value message s) = ops s.
Proof. unfold progressed. now destruct (progress_callback self). Qed.

Lemma progressed_progress self value message s :
  progress_calls (progressed self value message s) =
  (progress_calls s ++ if progress_callback self then [(value, message)] else [])%list.
Proof.
  unfold progressed. destruct (progress_callback self); simpl; now rewrite ?app_nil_r.
Qed.

(** While the installation root is missing nothing is written, so a
    step that leaves the file system alone there keeps the log usable. *)
Lemma log_works_unlogged w self s s' :
  unlogged self s s' -> log_works w self s -> log_works w self s'.
Proof.
  unfold log_works, unlogged. intros Hu Hw Hex'.
  destruct (fs_exists (fs s) (parent (log_file self))) eqn:Hex.
  - now apply Hw.
  - rewrite (Hu eq_refl) in Hex'. congruence.
Qed.

Lemma log_works_progressed w self value message s :
  log_works w self s -> log_works w self (progressed self value message s).
Proof. apply log_works_same_fs, progressed_fs. Qed.

Lemma install_requirements_unmet w self install_core s s2 :
  check_system_requirements w self (progressed self 0 "Starting installation..." s)
  = (Ok false, s2) ->
  log_works w self s2 ->
  install w self install_core s
  = (Ok false, logged w self "❌ System requirements not met" "ERROR" s2).
Proof.
  intros E Hw. unfold install, try_except, install_steps.
  rewrite bind_update_progress. rewrite (bind_ok _ _ _ _ _ E).
  cbn [negb]. now rewrite bind_log by exact Hw.
Qed.

(** C5. When the requirements check fails, [install] returns [False]
    at once, after an ERROR record: only the read-only queries of the
    check were issued, no directory appeared, the file system is as
    before except for the records appended to the log file (and wholly
    as before where the installation root does not exist), and the only
    progress value is the initial 0. *)
Theorem failed_requirements_stop_before_any_step w self install_core s :
  fst (check_system_requirements w self s) = Ok false ->
  fst (install w self install_core s) = Ok false /\
  last (stdout (snd (install w self install_core s))) EmptyString
  = log_entry "❌ System requirements not met" "ERROR" /\
  (forall p, p <> log_file self ->
             fs (snd (install w self install_core s)) p = fs s p) /\
  (forall p, fs (snd (install w self install_core s)) p = Some Dir -> fs s p = Some Dir) /\
  (fs_exists (fs s) (parent (log_file self)) = false ->
   fs (snd (install w self install_core s)) = fs s) /\
  (exists l, ops (snd (install w self install_core s)) = (ops s ++ l)%list /\
             Forall is_probe l) /\
  progress_calls (snd (install w self install_core s)) =
  progress_calls (progressed self 0 "Starting installation..." s).
Proof.
  intros H.
  pose proof (check_system_requirements_returns_log_works _ _ _ _ H) as Hw.
  rewrite check_system_requirements_fst in H by exact Hw.
  apply (log_works_progressed w self 0 "Starting installation...") in Hw.
  set (s1 := progressed self 0 "Starting installation..." s) in *.
  pose proof (check_system_requirements_fst w self s1 Hw) as Hv.
  pose proof (check_system_requirements_probes_only w self s1) as Ho.
  pose proof (check_system_requirements_same_progress w self s1) as Hp.
  pose proof (check_system_requirements_no_new_dir w self s1) as Hd.
  pose proof (check_system_requirements_fs_frame w self (fun p => p <> log_file self)
                (fun p Hp => Hp) s1) as Hf.
  pose proof (check_system_requirements_unlogged w self s1) as Hu.
  destruct (check_system_requirements w self s1) as [[met | e] s2] eqn:E;
    simpl in Hv, Ho, Hp, Hd, Hf, Hu; rewrite H in Hv; [| discriminate Hv].
  injection Hv as ->.
  rewrite (install_requirements_unmet _ _ _ _ _ E (log_works_unlogged _ _ _ _ Hu Hw)).
  cbn [fst snd].
  split; [reflexivity |]. split; [| split; [| split; [| split; [| split]]]].
  - rewrite logged_stdout. apply last_last.
  - intros p Hne. unfold logged.
    rewrite (log_fs_frame w self (fun p => p <> log_file self) _ _ (fun p Hp => Hp) s2 p Hne).
    rewrite (Hf p Hne). subst s1. now rewrite progressed_fs.
  - intros p Hdir. unfold logged in Hdir.
    apply (log_no_new_dir w self _ _ s2) in Hdir. apply Hd in Hdir.
    subst s1. now rewrite progressed_fs in Hdir.
  - intros Hfresh. unfold unlogged in Hu. subst s1. rewrite progressed_fs in Hu.
    specialize (Hu Hfresh). now rewrite logged_fs, Hu, Hfresh.
  - destruct Ho as [l [El Fl]]. exists l. split; [| assumption].
    rewrite logged_ops, El. subst s1. now rewrite progressed_ops.
  - rewrite logged_progress. exact Hp.
Qed.

(** On a host without node the run of the graphical installer stops
    after the check. *)
Lemma failed_requirements_without_node :
  fst (install host_without_node gui_installer true fresh_state) = Ok false.
Proof.
  exact (proj1 (failed_requirements_stop_before_any_step
                  host_without_node gui_installer true fresh_state eq_refl)).
Defined.

(* ------------------------------------------------------------------ *)
(** * The log *)

Lemma parent_child p name : parent (p // name) = p.
Proof. unfold parent, child. apply removelast_last. Qed.

(** C10, as the code has it.  A record always reaches standard output
    first; it is appended to the log file exactly when the directory of
    the log file (the installation root) exists at that moment and the
    host accepts the append, and changes nothing else; a refused append
    raises before the log callback is reached, otherwise the callback,
    when one is installed, receives the record.  So on a host where the
    root does not exist yet, the requirements check leaves the file
    system as it was, and a run that fails the check ends with the file
    system unchanged although its ERROR record was printed. *)
Theorem log_persists_only_under_existing_root w self :
  (forall dir progress_cb log_cb,
      parent (log_file (installer_at dir progress_cb log_cb)) = dir) /\
  (forall message level s,
      stdout (logged w self message level s)
      = (stdout s ++ [log_entry message level])%list /\
      (log_works w self s ->
       log w self message level s = (Ok tt, logged w self message level s) /\
       log_calls (logged w self message level s)
       = (log_calls s ++ if log_callback self then [log_entry message level] else [])%list) /\
      (fs_exists (fs s) (parent (log_file self)) = false ->
       fs (logged w self message level s) = fs s) /\
      (fs_exists (fs s) (parent (log_file self)) = true ->
       append_error w (log_file self) = None ->
       fs (logged w self message level s) (log_file self)
       = Some (File (file_content (fs s) (log_file self)
                     ++ log_entry message level ++ nl))) /\
      (forall e,
          fs_exists (fs s) (parent (log_file self)) = true ->
          append_error w (log_file self) = Some e ->
          log w self message level s = (Raise e, add_stdout (log_entry message level) s)) /\
      (forall p, p <> log_file self -> fs (logged w self message level s) p = fs s p)) /\
  (forall s,
      fs_exists (fs s) (parent (log_file self)) = false ->
      fs (snd (check_system_requirements w self s)) = fs s /\
      (forall install_core,
          fst (check_system_requirements w self s) = Ok false ->
          fs (snd (install w self install_core s)) = fs s /\
          In (log_entry "❌ System requirements not met" "ERROR")
             (stdout (snd (install w self install_core s))))).
Proof.
  split; [| split].
  - intros dir pcb lcb. apply parent_child.
  - intros message level s. split; [| split; [| split; [| split; [| split]]]].
    + apply logged_stdout.
    + intros Hw. split; [now apply log_run | now apply logged_log_calls].
    + intros H. now rewrite logged_fs, H.
    + intros H Ha. rewrite logged_fs, H, Ha. unfold fs_set.
      now destruct (path_eq_dec (log_file self) (log_file self)).
    + intros e H Ha. now apply log_refused.
    + intros p Hp. rewrite logged_fs.
      destruct (fs_exists _ _), (append_error w (log_file self)); try reflexivity.
      unfold fs_set. now destruct (path_eq_dec p (log_file self)).
  - intros s Hs.
    assert (Hw : log_works w self s) by (intros Hex; congruence).
    split.
    + now apply check_system_requirements_unlogged.
    + intros install_core Hc. rewrite check_system_requirements_fst in Hc by exact Hw.
      apply (log_works_progressed w self 0 "Starting installation...") in Hw.
      set (s1 := progressed self 0 "Starting installation..." s) in *.
      assert (Hs1 : fs s1 = fs s) by apply progressed_fs.
      pose proof (check_system_requirements_fst w self s1 Hw) as Hv.
      pose proof (check_system_requirements_unlogged w self s1) as Hu.
      destruct (check_system_requirements w self s1) as [[met | e] s2] eqn:E;
        simpl in Hv, Hu; rewrite Hc in Hv; [| discriminate Hv].
      injection Hv as ->.
      rewrite (install_requirements_unmet _ _ _ _ _ E (log_works_unlogged _ _ _ _ Hu Hw)).
      cbn [snd].
      unfold unlogged in Hu. rewrite Hs1 in Hu. specialize (Hu Hs). split.
      * rewrite logged_fs, Hu, Hs. reflexivity.
      * rewrite logged_stdout. apply in_or_app. right. now left.
Qed.

(** The run of the graphical installer on a host without node and
    without the installation root leaves no trace in the file system. *)
Lemma log_nothing_persisted_on_fresh_host :
  fs (snd (install host_without_node gui_installer false fresh_state)) = fs fresh_state.
Proof.
  exact (proj1 (proj2 (proj2 (proj2 (log_persists_only_under_existing_root
                                       host_without_node gui_installer))
                         fresh_state eq_refl) false eq_refl)).
Defined.

(** C10 as stated fails where the root already exists (a second run):
    directory setup is never reached, no directory operation was
    issued, and every record of the failed check, ERROR records
    included, is in the log file. *)
Lemma log_early_records_persisted_on_rerun :
  let s' := snd (install host_without_node gui_installer false rerun_state) in
  ops s' = [RunVersion "node"; RunVersion "npm"; RunVersion "git"; RunVersion "docker";
            DiskUsage user_home] /\
  fs rerun_state (log_file gui_installer) = None /\
  file_content (fs s') (log_file gui_installer)
  = String.concat EmptyString (map (fun l => l ++ nl) (stdout s')) /\
  In "[ERROR] ❌ Node.js not found" (stdout s') /\
  In "[ERROR] ❌ System requirements not met" (stdout s').
Proof.
  vm_compute. repeat split; auto 10.
Qed.

(* ------------------------------------------------------------------ *)
(** * Symbolic execution of the primitives *)

Section Execution.

Context {B : Type}.
Variable w : world.

Lemma bind_gets {T} (f : state -> T) (k : T -> M B) s : bind (gets f) k s = k (f s) s.
Proof. reflexivity. Qed.

Lemma bind_path_exists p (k : bool -> M B) s :
  bind (path_exists p) k s = k (fs_exists (fs s) p) s.
Proof. reflexivity. Qed.

Lemma bind_modify f (k : unit -> M B) s : bind (modify f) k s = k tt (f s).
Proof. reflexivity. Qed.

Lemma bind_perform o (k : unit -> M B) s : bind (perform o) k s = k tt (add_op o s).
Proof. reflexivity. Qed.

Lemma bind_answer {T} (r : result T) (k : T -> M B) s :
  bind (answer r) k s = match r with Ok a => k a s | Raise e => (Raise e, s) end.
Proof. unfold bind, answer. now destruct r. Qed.

Lemma bind_raise_now {T} e (k : T -> M B) s : bind (raise e) k s = (Raise e, s).
Proof. reflexivity. Qed.

Lemma bind_os_call o (k : unit -> M B) s :
  bind (os_call w o) k s =
  match os_error w o with
  | Some e => (Raise e, add_op o s)
  | None => k tt (add_op o s)
  end.
Proof. unfold os_call. rewrite bind_assoc, bind_perform. now destruct (os_error w o). Qed.

Lemma bind_when_true m (k : unit -> M B) s : bind (when true m) k s = bind m k s.
Proof. reflexivity. Qed.

Lemma bind_when_false m (k : unit -> M B) s : bind (when false m) k s = k tt s.
Proof. reflexivity. Qed.

End Execution.

Lemma logged_fs_other w self message level s p :
  p <> log_file self -> fs (logged w self message level s) p = fs s p.
Proof.
  intros Hp. rewrite logged_fs.
  destruct (fs_exists _ _), (append_error w (log_file self)); try reflexivity.
  unfold fs_set. now destruct (path_eq_dec p (log_file self)).
Qed.

Lemma logged_exists_other w self message level s p :
  p <> log_file self ->
  fs_exists (fs (logged w self message level s)) p = fs_exists (fs s) p.
Proof. intros Hp. unfold fs_exists. now rewrite logged_fs_other. Qed.

(** One step of symbolic execution through a primitive that cannot
    raise. *)
Ltac run1 :=
  first [ rewrite bind_assoc | rewrite bind_log by log_side | rewrite bind_ret
        | rewrite bind_perform | rewrite bind_modify | rewrite bind_path_exists
        | rewrite bind_gets | rewrite bind_update_progress
        | rewrite bind_when_true | rewrite bind_when_false ];
  cbn beta.
Ltac run := repeat run1.

(** Two paths below the same directory differ when their remainders do. *)
Ltac path_neq :=
  cbn [demo_dir core_dir log_file install_dir installer_at]; unfold child;
  rewrite <- ?app_assoc; simpl;
  let H := fresh in intros H; apply app_inv_head in H; discriminate H.

(* ------------------------------------------------------------------ *)
(** * The environment file *)

(** C7. Where the log file accepts its records, [setup_environment]
    issues the copy of [.env.example] to [.env] exactly when the
    template exists and the live file does not.  With
    an existing live file it returns normally and the file is the same
    node with the same content; without a template it returns normally
    and the file system is unchanged apart from the record appended to
    the log file; and a copy the host lets through gives the live file
    the content of the template. *)
Theorem environment_copied_only_when_missing w dir progress_cb log_cb s :
  let self := installer_at dir progress_cb log_cb in
  let env_example := demo_dir self // ".env.example" in
  let env_file := demo_dir self // ".env" in
  let r := setup_environment w self s in
  log_sink_ok w self ->
  ops (snd r)
  = (ops s ++ if fs_exists (fs s) env_example && negb (fs_exists (fs s) env_file)
              then [Copy2 env_example env_file] else [])%list /\
  (fs_exists (fs s) env_file = true ->
   fst r = Ok tt /\ fs (snd r) env_file = fs s env_file) /\
  (fs_exists (fs s) env_example = false ->
   fst r = Ok tt /\ forall p, p <> log_file self -> fs (snd r) p = fs s p) /\
  (forall content,
      fs s env_example = Some (File content) ->
      fs_exists (fs s) env_file = false ->
      os_error w (Copy2 env_example env_file) = None ->
      fst r = Ok tt /\ fs (snd r) env_file = Some (File content)).
Proof.
  intros self env_example env_file r Hlog.
  assert (Nex : env_example <> log_file self) by (subst env_example self; path_neq).
  assert (Nfile : env_file <> log_file self) by (subst env_file self; path_neq).
  subst r. unfold setup_environment. fold env_example env_file.
  rewrite bind_log by log_side. rewrite !bind_path_exists.
  set (s1 := logged w self "Setting up environment..." "INFO" s).
  assert (Eex : fs_exists (fs s1) env_example = fs_exists (fs s) env_example)
    by (apply logged_exists_other; assumption).
  assert (Efile : fs_exists (fs s1) env_file = fs_exists (fs s) env_file)
    by (apply logged_exists_other; assumption).
  assert (Eops : ops s1 = ops s) by apply logged_ops.
  assert (Efs : forall p, p <> log_file self -> fs s1 p = fs s p)
    by (intros p Hp; now apply logged_fs_other).
  clearbody s1. rewrite Eex, Efile.
  destruct (fs_exists (fs s) env_example) eqn:Hex;
    destruct (fs_exists (fs s) env_file) eqn:Hfile; cbn [andb negb when ret fst snd].
  - (* both exist *)
    rewrite Eops, app_nil_r. repeat split; try discriminate; auto.
  - (* template only: the copy *)
    unfold copy2. rewrite bind_assoc, bind_os_call.
    destruct (os_error w (Copy2 env_example env_file)) as [e |] eqn:Hos; cbn [fst snd].
    + cbn [ops add_op]. rewrite Eops. repeat split; try discriminate.
    + rewrite bind_modify, log_run by log_side. cbn [fst snd]. rewrite logged_ops.
      split; [| split; [| split]].
      * cbn beta. cbn [fs add_op].
        destruct (fs s1 env_example) as [[c |] |]; cbn [ops add_op set_fs]; now rewrite Eops.
      * discriminate.
      * discriminate.
      * intros c Hc _ _. split; [reflexivity |].
        rewrite logged_fs_other by assumption.
        cbn beta. cbn [fs add_op].
        rewrite (Efs env_example Nex), Hc. cbn [fs set_fs add_op]. unfold fs_set.
        now destruct (path_eq_dec env_file env_file).
  - (* live file only *)
    rewrite Eops, app_nil_r. repeat split; try discriminate; auto.
  - (* neither *)
    rewrite Eops, app_nil_r. repeat split; try discriminate; auto;
      unfold fs_exists in Hex;
      match goal with H : fs s env_example = Some _ |- _ => rewrite H in Hex end;
      discriminate Hex.
Qed.

(** A live environment file edited by the user survives the step. *)
Lemma environment_user_file_kept :
  fs (snd (setup_environment host_ready gui_installer configured_state))
     (demo_dir gui_installer // ".env")
  = Some (File "VITE_PORT=8080").
Proof.
  exact (proj2 (proj1 (proj2 (environment_copied_only_when_missing
                                host_ready (user_home // "anarqq-ecosystem") true true
                                configured_state eq_refl)) eq_refl)).
Defined.

(* ------------------------------------------------------------------ *)
(** * The acquirer *)

(** The handler of [install] logs the failure; the run returns [False]
    when that record could be written and raises otherwise. *)
Lemma install_run_any w self install_core s :
  install w self install_core s =
  match install_steps w self install_core s with
  | (Ok b, s') => (Ok b, s')
  | (Raise e, s') =>
      match log w self ("❌ Installation failed: " ++ exn_str e) "ERROR" s' with
      | (Ok _, s'') => (Ok false, s'')
      | (Raise e', s'') => (Raise e', s'')
      end
  end.
Proof.
  unfold install, try_except.
  destruct (install_steps w self install_core s) as [[b | e] s']; [reflexivity |].
  unfold catch_all, bind.
  now destruct (log w self ("❌ Installation failed: " ++ exn_str e) "ERROR" s')
    as [[[] | e'] s''].
Qed.

Lemma install_run w self install_core s :
  log_sink_ok w self ->
  install w self install_core s =
  match install_steps w self install_core s with
  | (Ok b, s') => (Ok b, s')
  | (Raise e, s') =>
      (Ok false, logged w self ("❌ Installation failed: " ++ exn_str e) "ERROR" s')
  end.
Proof.
  intros Hlog. rewrite install_run_any.
  destruct (install_steps w self install_core s) as [[b | e] s']; [reflexivity |].
  now rewrite log_run by log_side.
Qed.

Lemma logged_tmp w self message level s : tmp (logged w self message level s) = tmp s.
Proof. apply log_same_tmp. Qed.

#[local] Hint Resolve log_same_ops log_same_progress log_grows_ops log_same_tmp : preserves.

Section Acquirer.

Variable w : world.
Variable self : installer.
Hypothesis Hlog : log_sink_ok w self.

(** [git_attempt] logs, issues one command and ends in one of three
    ways on the host's answer. *)
Lemma git_attempt_run repo_url destination name s :
  destination <> log_file self ->
  destination // ".git" <> log_file self ->
  let s1 := vcs_issued w self s repo_url destination name in
  git_attempt w self repo_url destination name s =
  match vcs_answer w s repo_url destination with
  | Ok t =>
      (Ok true,
       logged w self (vcs_done_message s destination name) "INFO"
         (set_fs (fs_graft (fs s1) destination t) s1))
  | Raise e =>
      if catch_class CalledProcessError e
      then (Ok false, logged w self ("⚠️ Git clone failed: " ++ exn_str e) "WARNING" s1)
      else (Raise e, s1)
  end.
Proof.
  intros Hd Hg s1. subst s1.
  unfold git_attempt, try_except, vcs_issued, vcs_op, vcs_answer, vcs_done_message,
    has_working_copy.
  run. rewrite !logged_exists_other by assumption.
  destruct (fs_exists (fs s) destination && fs_exists (fs s) (destination // ".git"));
    unfold run_checked; run; rewrite bind_answer.
  - destruct (git_pull w destination) as [t | e].
    + now run.
    + destruct (catch_class CalledProcessError e); [now run | reflexivity].
  - destruct (git_clone w repo_url destination) as [t | e].
    + now run.
    + destruct (catch_class CalledProcessError e); [now run | reflexivity].
Qed.

Lemma clone_or_download_repo_run repo_url zip_url destination name s :
  let s0 := add_op (RunVersion "git") s in
  clone_or_download_repo w self repo_url zip_url destination name s =
  match probe w "git" with
  | Raise e => (Raise e, s0)
  | Ok (false, _) => zip_fallback w self zip_url destination name s0
  | Ok (true, _) =>
      match git_attempt w self repo_url destination name s0 with
      | (Ok true, s1) => (Ok tt, s1)
      | (Ok false, s1) => zip_fallback w self zip_url destination name s1
      | (Raise e, s1) => (Raise e, s1)
      end
  end.
Proof.
  intros s0. unfold clone_or_download_repo. rewrite bind_check_command. fold s0.
  destruct (probe w "git") as [[[|] v] | e]; [| reflexivity | reflexivity].
  unfold bind.
  now destruct (git_attempt w self repo_url destination name s0) as [[[|] | e] s1].
Qed.

(** The fallback issues no version-control command. *)
Lemma zip_fallback_no_vcs zip_url destination name :
  preserves (grows ops (fun o => is_vcs o = false))
    (zip_fallback w self zip_url destination name).
Proof.
  unfold zip_fallback, download_file, extract_zip.
  preserves_with grows_leaf.
Qed.

End Acquirer.

Lemma no_vcs_filter l : Forall (fun o => is_vcs o = false) l -> filter is_vcs l = [].
Proof.
  induction 1 as [| o l Ho _ IH]; [reflexivity |]. simpl. now rewrite Ho.
Qed.

Ltac ops_norm :=
  repeat first [ rewrite logged_ops | rewrite progressed_ops
               | progress cbn [ops add_op set_fs set_tmp tmp_cleanup tmp_set] ].

Section AcquirerOps.

Variable w : world.
Variable self : installer.
Hypothesis Hlog : log_sink_ok w self.

(** The fallback starts with the temporary directory and, once it has
    one, the download of the archive. *)
Lemma zip_fallback_ops zip_url destination name s :
  exists l,
    ops (snd (zip_fallback w self zip_url destination name s))
    = (ops s ++ MkTemp :: l)%list /\
    Forall (fun o => is_vcs o = false) l /\
    (forall d, mkdtemp w = Ok d ->
               exists l', l = UrlRetrieve zip_url (d // (name ++ ".zip")) :: l').
Proof.
  unfold zip_fallback, with_temporary_directory. run. rewrite bind_answer.
  destruct (mkdtemp w) as [d | e].
  - unfold download_file. run.
    lazymatch goal with
    | |- context [bind (for_each ?l ?f) ?k ?s1] =>
        assert (H : preserves (grows ops (fun o => is_vcs o = false)) (bind (for_each l f) k))
          by (unfold extract_zip; preserves_with grows_leaf);
        specialize (H s1); destruct (bind (for_each l f) k s1) as [r s2]
    end.
    cbn [snd] in *. destruct H as [l [El Fl]].
    exists (UrlRetrieve zip_url (d // (name ++ ".zip")) :: l ++ [RmTemp d])%list.
    split; [| split].
    + cbn [ops tmp_cleanup set_tmp add_op]. rewrite El. ops_norm.
      rewrite <- !app_assoc. reflexivity.
    + constructor; [reflexivity |]. apply Forall_app. split; [assumption |].
      now constructor.
    + intros d' [= <-]. eauto.
  - exists []. cbn [snd ops add_op]. rewrite logged_ops.
    split; [reflexivity |]. split; [constructor | discriminate].
Qed.

End AcquirerOps.

(** C2. Where the log file accepts its records: after the version
    query for git, the acquirer issues exactly one version-control
    command when git is available: a pull if the
    destination holds a working copy (it exists and has a [.git]
    entry), a clone otherwise.  When git is not available it issues
    none and continues as the archive fallback, which asks for a
    temporary directory and then downloads the archive. *)
Theorem acquirer_pulls_clones_or_falls_back
    w self repo_url zip_url destination name s :
  log_sink_ok w self ->
  destination <> log_file self ->
  destination // ".git" <> log_file self ->
  exists l,
    ops (snd (clone_or_download_repo w self repo_url zip_url destination name s))
    = (ops s ++ RunVersion "git" :: l)%list /\
    (available w "git" = true ->
     filter is_vcs l
     = [if fs_exists (fs s) destination && fs_exists (fs s) (destination // ".git")
        then GitPull destination
        else GitClone repo_url destination]) /\
    (forall version,
        probe w "git" = Ok (false, version) ->
        filter is_vcs l = [] /\
        clone_or_download_repo w self repo_url zip_url destination name s
        = zip_fallback w self zip_url destination name (add_op (RunVersion "git") s) /\
        exists l', l = MkTemp :: l' /\
                   forall d, mkdtemp w = Ok d ->
                             exists l'', l' = UrlRetrieve zip_url (d // (name ++ ".zip")) :: l'').
Proof.
  intros Hlog Hd Hg. rewrite clone_or_download_repo_run. unfold available.
  set (s0 := add_op (RunVersion "git") s).
  destruct (probe w "git") as [[[|] v] | e].
  - (* git available *)
    rewrite (git_attempt_run w self Hlog repo_url destination name s0 Hd Hg).
    unfold vcs_issued, vcs_answer, vcs_op, vcs_done_message, has_working_copy.
    cbn [fs add_op s0].
    set (o := if fs_exists (fs s) destination && fs_exists (fs s) (destination // ".git")
              then GitPull destination else GitClone repo_url destination).
    assert (Ho : is_vcs o = true) by (subst o; now destruct (_ && _)).
    set (s1 := add_op o (logged w self ("Cloning " ++ name ++ " repository...") "INFO" s0)).
    assert (E1 : ops s1 = (ops s ++ [RunVersion "git"; o])%list).
    { subst s1 s0. cbn [ops add_op]. rewrite logged_ops. cbn [ops add_op].
      now rewrite <- app_assoc. }
    destruct (if fs_exists (fs s) destination && fs_exists (fs s) (destination // ".git")
              then git_pull w destination else git_clone w repo_url destination)
      as [t | e].
    + exists [o]. cbn [snd]. rewrite logged_ops. cbn [ops set_fs]. rewrite E1.
      split; [rewrite <- ?app_assoc; reflexivity |]. split.
      * intros _. simpl. now rewrite Ho.
      * intros v' [=].
    + destruct (catch_class CalledProcessError e).
      * destruct (zip_fallback_ops w self Hlog zip_url destination name
                    (logged w self ("⚠️ Git clone failed: " ++ exn_str e) "WARNING" s1))
          as [l [El [Fl _]]].
        exists (o :: MkTemp :: l). rewrite El, logged_ops, E1.
        split; [rewrite <- ?app_assoc; reflexivity |]. split.
        -- intros _. simpl. rewrite Ho. simpl. now rewrite (no_vcs_filter l Fl).
        -- intros v' [=].
      * exists [o]. cbn [snd]. rewrite E1.
        split; [rewrite <- ?app_assoc; reflexivity |]. split.
        -- intros _. simpl. now rewrite Ho.
        -- intros v' [=].
  - (* git not available *)
    destruct (zip_fallback_ops w self Hlog zip_url destination name s0) as [l [El [Fl Hl]]].
    exists (MkTemp :: l). rewrite El. subst s0. cbn [ops add_op].
    split; [rewrite <- ?app_assoc; reflexivity |]. split; [discriminate |].
    intros v' _. split; [| split].
    + simpl. now apply no_vcs_filter.
    + reflexivity.
    + exists l. split; [reflexivity | exact Hl].
  - (* the query itself fails *)
    exists []. cbn [snd]. subst s0. cbn [ops add_op].
    split; [reflexivity |]. split; [discriminate | intros v' [=]].
Qed.

(** On a host without git the acquirer is the archive fallback. *)
Lemma acquirer_without_git_is_fallback :
  clone_or_download_repo host_without_git gui_installer (demo_repo CONFIG)
    (demo_zip CONFIG) (demo_dir gui_installer) "Demo" fresh_state
  = zip_fallback host_without_git gui_installer (demo_zip CONFIG)
      (demo_dir gui_installer) "Demo" (add_op (RunVersion "git") fresh_state).
Proof.
  destruct (acquirer_pulls_clones_or_falls_back host_without_git gui_installer
              (demo_repo CONFIG) (demo_zip CONFIG) (demo_dir gui_installer) "Demo"
              fresh_state) as [l [_ [_ H]]]; [reflexivity | discriminate | discriminate |].
  exact (proj1 (proj2 (H EmptyString eq_refl))).
Defined.

(* ------------------------------------------------------------------ *)
(** * Failures of the acquirer *)

Lemma catch_class_called_process_error e :
  is_called_process_error e -> catch_class CalledProcessError e = true.
Proof. unfold is_called_process_error, catch_class. now intros ->. Qed.

Lemma progress_hook_run self description block s :
  progress_hook self description block s
  = (Ok tt, snd (progress_hook self description block s)).
Proof.
  unfold progress_hook. destruct block as [[bn bs] total].
  destruct (0 <? total); [| reflexivity]. now rewrite update_progress_run.
Qed.

Lemma for_each_hook_run self description blocks s :
  for_each blocks (progress_hook self description) s
  = (Ok tt, hooked self description blocks s).
Proof.
  unfold hooked. revert s. induction blocks as [| b blocks IH]; intros s; [reflexivity |].
  cbn [for_each]. unfold bind. rewrite progress_hook_run. apply IH.
Qed.

Lemma bind_for_each_hook {B} self description blocks (k : unit -> M B) s :
  bind (for_each blocks (progress_hook self description)) k s
  = k tt (hooked self description blocks s).
Proof. apply bind_ok, for_each_hook_run. Qed.

Lemma hooked_tmp self description blocks s : tmp (hooked self description blocks s) = tmp s.
Proof.
  unfold hooked.
  assert (H : preserves (same tmp) (for_each blocks (progress_hook self description)))
    by preserves_with same_leaf.
  apply H.
Qed.

Lemma hooked_fs self description blocks s : fs (hooked self description blocks s) = fs s.
Proof.
  unfold hooked.
  assert (H : preserves (same fs) (for_each blocks (progress_hook self description)))
    by preserves_with same_leaf.
  apply H.
Qed.

Lemma hooked_ops self description blocks s : ops (hooked self description blocks s) = ops s.
Proof.
  unfold hooked.
  assert (H : preserves (same ops) (for_each blocks (progress_hook self description)))
    by preserves_with same_leaf.
  apply H.
Qed.

Section AcquirerFailures.

Variable w : world.
Variable self : installer.
Hypothesis Hlog : log_sink_ok w self.

(** A failing download or a broken archive leaves the fallback as the
    exception it raised. *)
Lemma zip_fallback_archive_fails zip_url destination name s d e :
  mkdtemp w = Ok d ->
  archive_fails w zip_url e ->
  fst (zip_fallback w self zip_url destination name s) = Raise e.
Proof.
  intros Hd Ha. unfold zip_fallback, with_temporary_directory. run.
  rewrite bind_answer, Hd. unfold download_file. run.
  rewrite bind_for_each_hook. cbn beta. rewrite bind_assoc, bind_answer.
  destruct Ha as [Ha | Ha]; rewrite Ha; [reflexivity |].
  run. unfold extract_zip. run.
  repeat first [ rewrite logged_tmp | progress cbn [tmp add_op tmp_set set_tmp] ].
  destruct (path_eq_dec (d // (name ++ ".zip")) (d // (name ++ ".zip"))); [| contradiction].
  rewrite bind_answer. reflexivity.
Qed.

(** Without a temporary directory the fallback raises as well. *)
Lemma zip_fallback_no_tempdir zip_url destination name s e :
  mkdtemp w = Raise e ->
  fst (zip_fallback w self zip_url destination name s) = Raise e.
Proof.
  intros Hd. unfold zip_fallback, with_temporary_directory. run.
  now rewrite bind_answer, Hd.
Qed.

Lemma zip_fallback_raises zip_url destination name s e :
  archive_fails w zip_url e ->
  exists e', fst (zip_fallback w self zip_url destination name s) = Raise e'.
Proof.
  intros Ha. destruct (mkdtemp w) as [d | e'] eqn:Hd.
  - exists e. now apply zip_fallback_archive_fails with d.
  - exists e'. now apply zip_fallback_no_tempdir.
Qed.

(** With version control unusable and the archive failing, the
    acquirer raises in every state. *)
Lemma acquirer_raises repo_url zip_url destination name s e :
  destination <> log_file self ->
  destination // ".git" <> log_file self ->
  vcs_unusable w repo_url destination ->
  archive_fails w zip_url e ->
  exists e', fst (clone_or_download_repo w self repo_url zip_url destination name s)
             = Raise e'.
Proof.
  intros Hd Hg Hv Ha. rewrite clone_or_download_repo_run.
  destruct Hv as [[v Hv] | [Hav [[e1 [H1 C1]] [e2 [H2 C2]]]]].
  - rewrite Hv. now apply zip_fallback_raises with e.
  - unfold available in Hav.
    destruct (probe w "git") as [[[|] v] | e0]; try discriminate Hav.
    rewrite (git_attempt_run w self Hlog repo_url destination name _ Hd Hg).
    unfold vcs_answer. rewrite H1, H2.
    apply catch_class_called_process_error in C1, C2.
    destruct (has_working_copy _ _); [rewrite C1 | rewrite C2];
      now apply zip_fallback_raises with e.
Qed.

End AcquirerFailures.

(** Case analysis on the first step of a sequence: it returns and the
    sequence continues, or it raises and the sequence raises. *)
Ltac step_bind E s' :=
  lazymatch goal with
  | |- context [bind ?m ?k ?s] =>
      let a := fresh "a" in
      let e := fresh "e" in
      let Eb := fresh "Eb" in
      destruct (bind_cases m k s) as [(a & s' & E & Eb) | (e & s' & E & Eb)];
      rewrite Eb; clear Eb; cbn beta
  end.

(** When the acquisition of the demo raises in every state, no run
    succeeds. *)
Lemma install_false_when_demo_acquisition_raises w self install_core :
  log_sink_ok w self ->
  (forall s, exists e,
        fst (clone_or_download_repo w self (demo_repo CONFIG) (demo_zip CONFIG)
               (demo_dir self) "Demo" s) = Raise e) ->
  forall s, fst (install w self install_core s) = Ok false.
Proof.
  intros Hlog Hacq s. rewrite install_run by exact Hlog. unfold install_steps. run.
  step_bind E s0; [| reflexivity].
  destruct a; cbn [negb]; [| now run].
  run. step_bind E1 s1; [| reflexivity].
  run. step_bind E2 s2; [| reflexivity].
  destruct (Hacq (progressed self 20 "Directories created" s1)) as [e He].
  rewrite E2 in He. discriminate He.
Qed.

(* ------------------------------------------------------------------ *)
(** * The dependency step *)

Section Dependencies.

Variable w : world.
Variable self : installer.
Hypothesis Hlog : log_sink_ok w self.

(** [install_dependencies] on the host's two answers. *)
Lemma install_dependencies_run directory name s :
  let s1 := npm_install_issued w self directory name s in
  install_dependencies w self directory name s =
  match npm_install w directory with
  | Raise e =>
      if catch_class CalledProcessError e
      then (Raise e,
            logged w self ("❌ Failed to install " ++ name ++ " dependencies: " ++ exn_str e)
              "ERROR" s1)
      else (Raise e, s1)
  | Ok t =>
      let s2 := npm_build_issued w self directory name t s in
      match npm_run_build w directory with
      | Ok t' =>
          (Ok tt, logged w self ("✅ " ++ name ++ " built successfully") "INFO"
                    (set_fs (fs_graft (fs s2) directory t') s2))
      | Raise e =>
          if catch_class CalledProcessError e
          then (Ok tt, logged w self ("⚠️ " ++ name ++ " build failed (not critical)")
                         "WARNING" s2)
          else (Raise e, s2)
      end
  end.
Proof.
  intros s1. subst s1.
  unfold install_dependencies, npm_build_issued, npm_install_issued. run.
  unfold try_except at 1. unfold run_checked at 1. run. rewrite bind_answer.
  destruct (npm_install w directory) as [t | e].
  - run. unfold try_except, run_checked. run. rewrite bind_answer.
    destruct (npm_run_build w directory) as [t' | e].
    + run. now rewrite log_run.
    + destruct (catch_class CalledProcessError e) eqn:C.
      * now rewrite log_run.
      * now rewrite C.
  - destruct (catch_class CalledProcessError e); [now run | reflexivity].
Qed.

(** When the install command is bound to raise, no run succeeds. *)
Lemma install_false_when_npm_install_raises install_core e :
  npm_install w (demo_dir self) = Raise e ->
  forall s, fst (install w self install_core s) = Ok false.
Proof.
  intros Hnpm s. rewrite install_run by exact Hlog. unfold install_steps. run.
  step_bind E s0; [| reflexivity].
  destruct a; cbn [negb]; [| now run].
  run. step_bind E1 s1; [| reflexivity].
  run. step_bind E2 s2; [| reflexivity].
  run.
  assert (Hdeps : forall s', exists e' s'',
               install_dependencies w self (demo_dir self) "Demo" s' = (Raise e', s'')).
  { intros s'. rewrite install_dependencies_run, Hnpm.
    destruct (catch_class CalledProcessError e); eauto. }
  destruct install_core.
  - step_bind E3 s3; [| reflexivity]. run.
    lazymatch goal with
    | |- context [bind (install_dependencies _ _ _ _) ?k ?s'] =>
        destruct (Hdeps s') as (e' & s'' & E4); now rewrite (bind_raise _ _ _ _ _ E4)
    end.
  - run.
    lazymatch goal with
    | |- context [bind (install_dependencies _ _ _ _) ?k ?s'] =>
        destruct (Hdeps s') as (e' & s'' & E4); now rewrite (bind_raise _ _ _ _ _ E4)
    end.
Qed.

End Dependencies.

(* ------------------------------------------------------------------ *)
(** * Steps on a host that refuses nothing *)

Section HealthyHost.

Variable w : world.
Variable self : installer.
Hypothesis Hlog : log_sink_ok w self.
Hypothesis os_ok : forall o, os_error w o = None.

Ltac run_os := repeat first [ run1 | rewrite bind_os_call, os_ok; cbn beta ].

Lemma setup_directories_ok s : fst (setup_directories w self s) = Ok tt.
Proof.
  unfold setup_directories, mkdir, touch. run_os. now rewrite log_run.
Qed.

Lemma setup_environment_ok s : fst (setup_environment w self s) = Ok tt.
Proof.
  unfold setup_environment. run_os.
  destruct (_ && _); [| reflexivity]. unfold when, copy2. run_os. now rewrite log_run.
Qed.

Lemma create_launchers_ok s : fst (create_launchers w self s) = Ok tt.
Proof.
  unfold create_launchers, write_text, chmod. run_os.
  destruct (String.eqb (os_name w) "nt"); run_os; now rewrite log_run.
Qed.

Lemma acquirer_ok repo_url zip_url destination name s :
  destination <> log_file self ->
  destination // ".git" <> log_file self ->
  available w "git" = true ->
  (forall d, exists t, git_pull w d = Ok t) ->
  (forall u d, exists t, git_clone w u d = Ok t) ->
  fst (clone_or_download_repo w self repo_url zip_url destination name s) = Ok tt.
Proof.
  intros Hd Hg Hav Hpull Hclone. rewrite clone_or_download_repo_run.
  unfold available in Hav. destruct (probe w "git") as [[[|] v] | e]; try discriminate Hav.
  rewrite (git_attempt_run w self Hlog repo_url destination name _ Hd Hg). unfold vcs_answer.
  destruct (Hpull destination) as [t1 ->]. destruct (Hclone repo_url destination) as [t2 ->].
  now destruct (has_working_copy _ _).
Qed.

End HealthyHost.

#[local] Instance keeps_stdout_preorder : PreOrder (grows stdout (fun _ => True)) :=
  grows_preorder stdout (fun _ => True).

Lemma log_grows_stdout w self message level :
  preserves (grows stdout (fun _ => True)) (log w self message level).
Proof. unfold log. preserves_with grows_leaf. Qed.

#[local] Hint Resolve log_grows_stdout : preserves.

Lemma setup_environment_grows_stdout w self :
  preserves (grows stdout (fun _ => True)) (setup_environment w self).
Proof. unfold setup_environment. preserves_with grows_leaf. Qed.

Lemma create_launchers_grows_stdout w self :
  preserves (grows stdout (fun _ => True)) (create_launchers w self).
Proof. unfold create_launchers. preserves_with grows_leaf. Qed.

Lemma grows_stdout_in s s' entry :
  grows stdout (fun _ => True) s s' -> In entry (stdout s) -> In entry (stdout s').
Proof. intros [l [E _]] H. rewrite E. apply in_or_app. now left. Qed.

Lemma progressed_stdout self value message s :
  stdout (progressed self value message s) = stdout s.
Proof. unfold progressed. now destruct (progress_callback self). Qed.

(** A run on a healthy host gets through the dependency step whatever
    the build does, and then to the end. *)
Lemma healthy_run_with_failed_build w self install_core s e :
  log_sink_ok w self ->
  demo_dir self <> log_file self ->
  demo_dir self // ".git" <> log_file self ->
  core_dir self <> log_file self ->
  core_dir self // ".git" <> log_file self ->
  healthy_but_build w self ->
  npm_run_build w (demo_dir self) = Raise e ->
  is_called_process_error e ->
  exists s',
    install w self install_core s
    = (Ok true,
       logged w self "🎉 Installation completed successfully!" "INFO"
         (progressed self 100 "Installation completed" s')) /\
    In (log_entry "⚠️ Demo build failed (not critical)" "WARNING") (stdout s').
Proof.
  intros Hlog Hd Hdg Hc Hcg (Hreq & Hos & Hgit & Hpull & Hclone & [t Hnpm]) Hbuild Hcpe.
  apply catch_class_called_process_error in Hcpe.
  rewrite install_run by exact Hlog. unfold install_steps. run.
  step_bind E s0;
    pose proof (check_system_requirements_fst w self
                  (progressed self 0 "Starting installation..." s)
                  (log_sink_ok_works w self _ Hlog)) as Hm;
    rewrite E, Hreq in Hm; try discriminate Hm.
  injection Hm as ->. cbn [negb]. run.
  step_bind E1 s1;
    [| pose proof (setup_directories_ok w self Hlog Hos
                     (progressed self 10 "System requirements checked" s0)) as F;
       rewrite E1 in F; discriminate F].
  run.
  step_bind E2 s2;
    [| pose proof (acquirer_ok w self Hlog (demo_repo CONFIG) (demo_zip CONFIG) (demo_dir self)
                     "Demo" (progressed self 20 "Directories created" s1)
                     Hd Hdg Hgit Hpull Hclone) as F;
       rewrite E2 in F; discriminate F].
  run.
  assert (Hdeps : forall s3, exists s4,
               install_dependencies w self (demo_dir self) "Demo" s3 = (Ok tt, s4) /\
               In (log_entry "⚠️ Demo build failed (not critical)" "WARNING") (stdout s4)).
  { intros s3. rewrite install_dependencies_run by exact Hlog. rewrite Hnpm, Hbuild, Hcpe.
    eexists. split; [reflexivity |]. rewrite logged_stdout. apply in_or_app. right. now left. }
  assert (Hfinish : forall s4,
             In (log_entry "⚠️ Demo build failed (not critical)" "WARNING") (stdout s4) ->
             exists s',
               (update_progress self 80 "Dependencies installed" ;;
                setup_environment w self ;;
                update_progress self 90 "Environment configured" ;;
                create_launchers w self ;;
                update_progress self 100 "Installation completed" ;;
                log w self "🎉 Installation completed successfully!" "INFO" ;;
                ret true) s4
               = (Ok true,
                  logged w self "🎉 Installation completed successfully!" "INFO"
                    (progressed self 100 "Installation completed" s')) /\
               In (log_entry "⚠️ Demo build failed (not critical)" "WARNING") (stdout s')).
  { intros s4 Hin. run.
    pose proof (setup_environment_ok w self Hlog Hos
                  (progressed self 80 "Dependencies installed" s4)) as F5.
    pose proof (setup_environment_grows_stdout w self
                  (progressed self 80 "Dependencies installed" s4)) as G5.
    step_bind E5 s5; [| rewrite E5 in F5; discriminate F5]. rewrite E5 in G5. cbn [snd] in G5.
    run.
    pose proof (create_launchers_ok w self Hlog Hos
                  (progressed self 90 "Environment configured" s5)) as F6.
    pose proof (create_launchers_grows_stdout w self
                  (progressed self 90 "Environment configured" s5)) as G6.
    step_bind E6 s6; [| rewrite E6 in F6; discriminate F6]. rewrite E6 in G6. cbn [snd] in G6.
    run. exists s6. split; [reflexivity |].
    apply (grows_stdout_in _ _ _ G6). rewrite progressed_stdout.
    apply (grows_stdout_in _ _ _ G5). now rewrite progressed_stdout. }
  destruct install_core.
  - run. step_bind E3 s3;
      [| pose proof (acquirer_ok w self Hlog (core_repo CONFIG) (core_zip CONFIG) (core_dir self)
                       "Core" (progressed self 40 "Demo repository downloaded" s2)
                       Hc Hcg Hgit Hpull Hclone) as F;
         rewrite E3 in F; discriminate F].
    run.
    lazymatch goal with
    | |- context [bind (install_dependencies _ _ _ _) ?k ?s3] =>
        destruct (Hdeps s3) as (s4 & E4 & Hin); rewrite (bind_ok _ _ _ _ _ E4)
    end.
    destruct (Hfinish s4 Hin) as (s' & -> & Hin'). eauto.
  - run.
    lazymatch goal with
    | |- context [bind (install_dependencies _ _ _ _) ?k ?s3] =>
        destruct (Hdeps s3) as (s4 & E4 & Hin); rewrite (bind_ok _ _ _ _ _ E4)
    end.
    destruct (Hfinish s4 Hin) as (s' & -> & Hin'). eauto.
Qed.

(** C6. Where the log file accepts its records: (1) a non-zero exit
    of the install command is logged as an ERROR record and the same exception leaves [install_dependencies];
    (2) when the install command of the demo is bound to fail, every run
    returns [False].  (3) A non-zero exit of the build command is logged
    as a WARNING record and [install_dependencies] returns normally;
    (4) on a host where everything else works, the run then goes on to
    its last progress update and returns [True]. *)
Theorem install_failure_aborts_build_failure_continues w self :
  log_sink_ok w self ->
  (forall directory name s e,
      npm_install w directory = Raise e ->
      is_called_process_error e ->
      install_dependencies w self directory name s
      = (Raise e,
         logged w self ("❌ Failed to install " ++ name ++ " dependencies: " ++ exn_str e)
           "ERROR" (npm_install_issued w self directory name s))) /\
  (forall install_core s e,
      npm_install w (demo_dir self) = Raise e ->
      fst (install w self install_core s) = Ok false) /\
  (forall directory name s t e,
      npm_install w directory = Ok t ->
      npm_run_build w directory = Raise e ->
      is_called_process_error e ->
      install_dependencies w self directory name s
      = (Ok tt,
         logged w self ("⚠️ " ++ name ++ " build failed (not critical)") "WARNING"
           (npm_build_issued w self directory name t s))) /\
  (forall install_core s e,
      demo_dir self <> log_file self ->
      demo_dir self // ".git" <> log_file self ->
      core_dir self <> log_file self ->
      core_dir self // ".git" <> log_file self ->
      healthy_but_build w self ->
      npm_run_build w (demo_dir self) = Raise e ->
      is_called_process_error e ->
      exists s',
        install w self install_core s
        = (Ok true,
           logged w self "🎉 Installation completed successfully!" "INFO"
             (progressed self 100 "Installation completed" s')) /\
        In (log_entry "⚠️ Demo build failed (not critical)" "WARNING") (stdout s')).
Proof.
  intros Hlog. split; [| split; [| split]].
  - intros directory name s e Hi Hc. rewrite install_dependencies_run by exact Hlog.
    rewrite Hi. now rewrite (catch_class_called_process_error e Hc).
  - intros install_core s e Hi. now apply install_false_when_npm_install_raises with e.
  - intros directory name s t e Hi Hb Hc. rewrite install_dependencies_run by exact Hlog.
    rewrite Hi, Hb. now rewrite (catch_class_called_process_error e Hc).
  - intros install_core s e. now apply healthy_run_with_failed_build.
Qed.

(** On a host whose build script fails the run still succeeds. *)
Lemma run_succeeds_with_failed_build :
  fst (install host_build_fails gui_installer true fresh_state) = Ok true.
Proof.
  destruct (proj2 (proj2 (proj2 (install_failure_aborts_build_failure_continues
                                   host_build_fails gui_installer eq_refl)))
              true fresh_state build_error) as (s' & E & _).
  - discriminate.
  - discriminate.
  - discriminate.
  - discriminate.
  - repeat split; try reflexivity; intros; eexists; reflexivity.
  - reflexivity.
  - reflexivity.
  - now rewrite E.
Defined.

(* ------------------------------------------------------------------ *)
(** * The run, step by step *)

Section RunBySteps.

Variable w : world.
Variable self : installer.
Variable install_core : bool.

Lemma install_steps_resume s :
  install_steps w self install_core s
  = resume w self install_core CheckRequirements
      (progressed self 0 "Starting installation..." s).
Proof.
  unfold install_steps, resume, from_requirements, from_directories, from_demo,
    from_core, from_dependencies, from_environment, from_launchers.
  run. apply bind_ext. intros met s0.
  destruct met; cbn [negb]; [| reflexivity].
  run. apply bind_ext. intros _ s1.
  run. apply bind_ext. intros _ s2.
  run. destruct install_core; run; reflexivity.
Qed.

(** A run that calls a step continues, from there, as the rest of the
    [try] block. *)
Lemma enters_resume s st s_k :
  enters w self install_core s st s_k ->
  install_steps w self install_core s = resume w self install_core st s_k.
Proof.
  induction 1 as [| s0 s1 _ IH E | s0 s1 _ IH E | s0 s1 Hc _ IH E | s0 s1 _ IH E
                 | s0 s1 Hc _ IH E | s0 s1 _ IH E | s0 s1 _ IH E ];
    try (rewrite IH; cbn [resume]).
  - apply install_steps_resume.
  - unfold from_requirements. rewrite (bind_ok _ _ _ _ _ E). cbn [negb]. now run.
  - unfold from_directories. rewrite (bind_ok _ _ _ _ _ E). now run.
  - unfold from_demo. rewrite (bind_ok _ _ _ _ _ E). run. now rewrite Hc.
  - unfold from_core. rewrite (bind_ok _ _ _ _ _ E). now run.
  - unfold from_demo. rewrite (bind_ok _ _ _ _ _ E). run. rewrite Hc. now run.
  - unfold from_dependencies. rewrite (bind_ok _ _ _ _ _ E). now run.
  - unfold from_environment. rewrite (bind_ok _ _ _ _ _ E). now run.
Qed.

Lemma step_raises_resume st s_k e s1 :
  step_raises w self st s_k e s1 ->
  resume w self install_core st s_k = (Raise e, s1).
Proof.
  destruct st; cbn [step_raises resume]; intros E;
    [ unfold from_requirements | unfold from_directories | unfold from_demo
    | unfold from_core | unfold from_dependencies | unfold from_environment
    | unfold from_launchers ];
    apply (bind_raise _ _ _ _ _ E).
Qed.

End RunBySteps.

(** Where the log file accepts its records: when a step of the run
    raises, in the state in which the run called it, [install] returns
    [False]; its final state is the state that step left plus one ERROR
    record with the text of the exception: nothing else was printed, no
    further operation was issued and no further progress reported. *)
Lemma install_returns_false_when_step_raises w self install_core s st s_k e s1 :
  log_sink_ok w self ->
  enters w self install_core s st s_k ->
  step_raises w self st s_k e s1 ->
  install w self install_core s
  = (Ok false, logged w self ("❌ Installation failed: " ++ exn_str e) "ERROR" s1) /\
  stdout (snd (install w self install_core s))
  = (stdout s1 ++ [log_entry ("❌ Installation failed: " ++ exn_str e) "ERROR"])%list /\
  ops (snd (install w self install_core s)) = ops s1 /\
  progress_calls (snd (install w self install_core s)) = progress_calls s1.
Proof.
  intros Hlog Hin Hraise.
  assert (E : install w self install_core s
              = (Ok false,
                 logged w self ("❌ Installation failed: " ++ exn_str e) "ERROR" s1)).
  { rewrite install_run by exact Hlog. rewrite (enters_resume _ _ _ _ _ _ Hin).
    now rewrite (step_raises_resume _ _ _ _ _ _ _ Hraise). }
  rewrite E. cbn [snd].
  repeat split; [apply logged_stdout | apply logged_ops | apply logged_progress].
Qed.

(* ------------------------------------------------------------------ *)
(** * The archive fallback in a run *)

Lemma hooked_stdout self description blocks s :
  stdout (hooked self description blocks s) = stdout s.
Proof.
  unfold hooked.
  assert (H : preserves (same stdout) (for_each blocks (progress_hook self description)))
    by preserves_with same_leaf.
  apply H.
Qed.

Section Fallback.

Variable w : world.
Variable self : installer.
Hypothesis Hlog : log_sink_ok w self.

(** The fallback up to the listing of the extracted entries: what is
    left to do is to put the first entry in the place of the
    destination. *)
Lemma zip_fallback_run zip_url destination name s d entry t rest :
  mkdtemp w = Ok d ->
  url_fetch w zip_url = Ok (Ok ((entry, t) :: rest)) ->
  exists s5,
    (forall q, q <> log_file self -> fs s5 q = fs s q) /\
    (exists l, stdout s5 = (stdout s ++ l)%list) /\
    ops s5
    = (ops s ++ [MkTemp; UrlRetrieve zip_url (d // (name ++ ".zip"));
                 ExtractAll (d // (name ++ ".zip")) (d // "extracted");
                 IterDir (d // "extracted")])%list /\
    zip_fallback w self zip_url destination name s
    = (let (r, s') :=
         (dest_exists <- path_exists destination ;;
          when dest_exists (rmtree w destination) ;;
          move w (d // "extracted" // entry) t destination ;;
          log w self ("✅ Downloaded and extracted " ++ name) "INFO") s5 in
       (r, tmp_cleanup d (add_op (RmTemp d) s'))).
Proof.
  intros Hd Hf.
  unfold zip_fallback, with_temporary_directory. run.
  rewrite bind_answer, Hd. unfold download_file. run.
  rewrite bind_for_each_hook. cbn beta. rewrite bind_assoc, bind_answer, Hf.
  run. unfold extract_zip. run.
  repeat first [ rewrite logged_tmp | progress cbn [tmp add_op tmp_set set_tmp] ].
  destruct (path_eq_dec (d // (name ++ ".zip")) (d // (name ++ ".zip"))); [| contradiction].
  rewrite bind_answer. run. unfold iterdir. run.
  repeat first [ rewrite logged_tmp | progress cbn [tmp add_op tmp_set set_tmp] ].
  destruct (path_eq_dec (d // "extracted") (d // "extracted")); [| contradiction].
  lazymatch goal with
  | |- context [bind (ret _) _ ?s5] => exists s5
  end.
  split; [| split; [| split]].
  - intros q Hq.
    repeat first [ rewrite logged_fs_other by exact Hq | rewrite hooked_fs
                 | progress cbn [fs add_op tmp_set set_tmp] ].
    reflexivity.
  - repeat first [ rewrite logged_stdout | rewrite hooked_stdout
                 | progress cbn [stdout add_op tmp_set set_tmp] ].
    rewrite <- !app_assoc. eexists. reflexivity.
  - repeat first [ rewrite logged_ops | rewrite hooked_ops
                 | progress cbn [ops add_op tmp_set set_tmp] ].
    rewrite <- !app_assoc. reflexivity.
  - run. reflexivity.
Qed.

(** Putting the entry in the place of the destination: what is there
    is removed first; the move renames the entry where the parent of
    the destination exists, makes the missing directories above the
    destination for a directory entry, and raises for a file entry. *)
Lemma place_entry_run src t destination name s :
  os_error w (RmTree destination) = None ->
  os_error w (Move src destination) = None ->
  let s1 := if fs_exists (fs s) destination
            then set_fs (fs_remove_tree (fs s) destination) (add_op (RmTree destination) s)
            else s in
  let s2 := add_op (Move src destination) s1 in
  (dest_exists <- path_exists destination ;;
   when dest_exists (rmtree w destination) ;;
   move w src t destination ;;
   log w self ("✅ Downloaded and extracted " ++ name) "INFO") s
  = if fs_exists (fs s1) (parent destination)
    then (Ok tt, logged w self ("✅ Downloaded and extracted " ++ name) "INFO"
                   (set_fs (fs_graft (fs s2) destination t) s2))
    else match t [] with
         | Some (File _) => (Raise (no_such_file w destination), s2)
         | _ => (Ok tt, logged w self ("✅ Downloaded and extracted " ++ name) "INFO"
                          (set_fs (fs_graft (fs_makedirs (fs s2) (parent destination))
                                     destination t) s2))
         end.
Proof.
  intros Hrm Hmv s1 s2. subst s2 s1. unfold rmtree, move. run.
  destruct (fs_exists (fs s) destination).
  - rewrite ?bind_when_true. cbn beta. rewrite ?bind_assoc, bind_os_call, Hrm.
    run. rewrite ?bind_assoc, bind_os_call, Hmv. run. cbn [fs set_fs add_op].
    destruct (fs_exists (fs_remove_tree (fs s) destination) (parent destination)).
    + run. rewrite log_run by log_side. reflexivity.
    + destruct (t []) as [[c |] |]; [reflexivity | |];
        run; rewrite log_run by log_side; reflexivity.
  - rewrite ?bind_when_false. cbn beta. rewrite ?bind_assoc, bind_os_call, Hmv. run.
    cbn [fs set_fs add_op].
    destruct (fs_exists (fs s) (parent destination)).
    + run. rewrite log_run by log_side. reflexivity.
    + destruct (t []) as [[c |] |]; [reflexivity | |];
        run; rewrite log_run by log_side; reflexivity.
Qed.

Lemma place_entry_grows_stdout src t destination name :
  preserves (grows stdout (fun _ => True))
    (dest_exists <- path_exists destination ;;
     when dest_exists (rmtree w destination) ;;
     move w src t destination ;;
     log w self ("✅ Downloaded and extracted " ++ name) "INFO").
Proof. preserves_with grows_leaf. Qed.

Lemma place_entry_grows_ops src t destination name :
  preserves (grows ops (fun _ => True))
    (dest_exists <- path_exists destination ;;
     when dest_exists (rmtree w destination) ;;
     move w src t destination ;;
     log w self ("✅ Downloaded and extracted " ++ name) "INFO").
Proof. preserves_with grows_leaf. Qed.

(** On a host that refuses nothing, the fallback returns when its
    archive delivers a directory; it has downloaded the archive. *)
Lemma zip_fallback_delivers zip_url destination name s d :
  (forall o, os_error w o = None) ->
  mkdtemp w = Ok d ->
  archive_delivers w zip_url ->
  exists s1,
    zip_fallback w self zip_url destination name s = (Ok tt, s1) /\
    (exists l, stdout s1 = (stdout s ++ l)%list) /\
    In (UrlRetrieve zip_url (d // (name ++ ".zip"))) (ops s1).
Proof.
  intros Hos Hd (entry & t & rest & Hf & Ht).
  destruct (zip_fallback_run zip_url destination name s d entry t rest Hd Hf)
    as (s5 & _ & [l5 Hout] & Hops & ->).
  pose proof (place_entry_run (d // "extracted" // entry) t destination name s5
                (Hos _) (Hos _)) as Hrun.
  pose proof (place_entry_grows_stdout (d // "extracted" // entry) t destination name s5)
    as [l6 [Hout6 _]].
  pose proof (place_entry_grows_ops (d // "extracted" // entry) t destination name s5)
    as [o6 [Hops6 _]].
  cbn zeta in Hrun. rewrite Ht in Hrun.
  lazymatch type of Hrun with
  | ?m s5 = _ => destruct (m s5) as [r s6]
  end.
  cbn [snd] in Hout6, Hops6.
  assert (Hr : r = Ok tt)
    by (destruct (fs_exists _ (parent destination)); now injection Hrun).
  subst r. eexists. split; [reflexivity |]. split.
  - exists (l5 ++ l6)%list. cbn [stdout tmp_cleanup set_tmp add_op].
    now rewrite Hout6, Hout, app_assoc.
  - cbn [ops tmp_cleanup set_tmp add_op]. rewrite Hops6, Hops.
    apply in_or_app. left. apply in_or_app. left. apply in_or_app. right.
    right. now left.
Qed.

(** On such a host, once git has exited non-zero the acquirer returns
    through the fallback. *)
Lemma acquirer_falls_back repo_url zip_url destination name s d :
  destination <> log_file self ->
  destination // ".git" <> log_file self ->
  (forall o, os_error w o = None) ->
  available w "git" = true ->
  (forall p, exists e, git_pull w p = Raise e /\ is_called_process_error e) ->
  (forall u p, exists e, git_clone w u p = Raise e /\ is_called_process_error e) ->
  mkdtemp w = Ok d ->
  archive_delivers w zip_url ->
  exists e s1,
    is_called_process_error e /\
    clone_or_download_repo w self repo_url zip_url destination name s = (Ok tt, s1) /\
    In (log_entry ("⚠️ Git clone failed: " ++ exn_str e) "WARNING") (stdout s1) /\
    In (UrlRetrieve zip_url (d // (name ++ ".zip"))) (ops s1).
Proof.
  intros Hne Hg Hos Hav Hpull Hclone Hd Ha.
  rewrite clone_or_download_repo_run. unfold available in Hav.
  destruct (probe w "git") as [[[|] v] | e0]; try discriminate Hav.
  rewrite (git_attempt_run w self Hlog repo_url destination name _ Hne Hg).
  assert (Hans : exists e, vcs_answer w (add_op (RunVersion "git") s) repo_url destination
                           = Raise e /\ is_called_process_error e).
  { unfold vcs_answer. destruct (has_working_copy _ _); [apply Hpull | apply Hclone]. }
  destruct Hans as (e & -> & Hcpe).
  rewrite (catch_class_called_process_error e Hcpe).
  lazymatch goal with
  | |- context [zip_fallback w self zip_url destination name ?s0] =>
      destruct (zip_fallback_delivers zip_url destination name s0 d Hos Hd Ha)
        as (s1 & -> & [l Hout] & Hops);
      assert (Hw : In (log_entry ("⚠️ Git clone failed: " ++ exn_str e) "WARNING")
                      (stdout s0))
        by (rewrite logged_stdout; apply in_or_app; right; now left)
  end.
  exists e, s1. split; [exact Hcpe |]. split; [reflexivity |]. split; [| exact Hops].
  rewrite Hout. apply in_or_app. now left.
Qed.

End Fallback.

Section RunGrows.

Variable w : world.
Variable self : installer.
Variable install_core : bool.

(** From any step on, a run only adds to what was printed and to the
    operations issued. *)
Lemma resume_grows_stdout st :
  preserves (grows stdout (fun _ => True)) (resume w self install_core st).
Proof.
  destruct st; cbn [resume];
    unfold from_requirements, from_directories, from_demo, from_core, from_dependencies,
      from_environment, from_launchers, check_system_requirements, requirement_errors,
      setup_directories, clone_or_download_repo, check_command, git_attempt, zip_fallback,
      download_file, extract_zip, install_dependencies, setup_environment,
      create_launchers;
    preserves_with grows_leaf.
Qed.

Lemma resume_grows_ops st :
  preserves (grows ops (fun _ => True)) (resume w self install_core st).
Proof.
  destruct st; cbn [resume];
    unfold from_requirements, from_directories, from_demo, from_core, from_dependencies,
      from_environment, from_launchers, check_system_requirements, requirement_errors,
      setup_directories, clone_or_download_repo, check_command, git_attempt, zip_fallback,
      download_file, extract_zip, install_dependencies, setup_environment,
      create_launchers;
    preserves_with grows_leaf.
Qed.

End RunGrows.

Lemma grows_in {T} (f : state -> list T) Q s s' x :
  grows f Q s s' -> In x (f s) -> In x (f s').
Proof. intros [l [E _]] H. rewrite E. apply in_or_app. now left. Qed.

Section HealthyRest.

Variable w : world.
Variable self : installer.
Variable install_core : bool.
Hypothesis Hlog : log_sink_ok w self.
Hypothesis os_ok : forall o, os_error w o = None.

(** On a host that refuses nothing, a run that has its dependencies
    installed and built goes on to the launchers and returns [True]
    after the record of success. *)
Lemma from_dependencies_completes s t t' :
  npm_install w (demo_dir self) = Ok t ->
  npm_run_build w (demo_dir self) = Ok t' ->
  let r := from_dependencies w self s in
  fst r = Ok true /\
  In (NpmInstall (demo_dir self)) (ops (snd r)) /\
  last (stdout (snd r)) EmptyString
  = log_entry "🎉 Installation completed successfully!" "INFO".
Proof.
  intros Hnpm Hbuild r. subst r. unfold from_dependencies.
  pose proof (install_dependencies_run w self Hlog (demo_dir self) "Demo" s) as Hdeps.
  cbn zeta in Hdeps. rewrite Hnpm, Hbuild in Hdeps.
  rewrite (bind_ok _ _ _ _ _ Hdeps). clear Hdeps. run.
  lazymatch goal with
  | |- context [from_environment w self ?s3] =>
      assert (Hin : In (NpmInstall (demo_dir self)) (ops s3))
        by (rewrite progressed_ops, logged_ops; cbn [ops set_fs add_op npm_build_issued];
            rewrite logged_ops; cbn [ops set_fs add_op npm_install_issued];
            rewrite logged_ops;
            apply in_or_app; left; apply in_or_app; right; now left);
      set (S3 := s3) in *; clearbody S3
  end.
  pose proof (resume_grows_ops w self install_core SetupEnvironment S3) as Hops.
  cbn [resume] in Hops. unfold from_environment in *.
  pose proof (setup_environment_ok w self Hlog os_ok S3) as F5.
  step_bind E5 s5; [| rewrite E5 in F5; discriminate F5].
  run. unfold from_launchers.
  pose proof (create_launchers_ok w self Hlog os_ok
                (progressed self 90 "Environment configured" s5)) as F6.
  revert Hops. rewrite (bind_ok _ _ _ _ _ E5). run. unfold from_launchers.
  step_bind E6 s6; [| rewrite E6 in F6; discriminate F6].
  run. unfold ret. cbn [fst snd]. intros Hops.
  split; [reflexivity |]. split.
  - exact (grows_in _ _ _ _ _ Hops Hin).
  - rewrite logged_stdout. apply last_last.
Qed.

End HealthyRest.

(** On a host where everything works except version control, whose
    commands exit non-zero, the run gets each repository from its
    archive and goes on to the end. *)
Lemma healthy_run_with_failed_vcs w self install_core s :
  log_sink_ok w self ->
  demo_dir self <> log_file self ->
  demo_dir self // ".git" <> log_file self ->
  core_dir self <> log_file self ->
  core_dir self // ".git" <> log_file self ->
  healthy_but_vcs w self install_core ->
  let r := install w self install_core s in
  fst r = Ok true /\
  (exists e, is_called_process_error e /\
             In (log_entry ("⚠️ Git clone failed: " ++ exn_str e) "WARNING")
                (stdout (snd r))) /\
  (exists d, mkdtemp w = Ok d /\
             In (UrlRetrieve (demo_zip CONFIG) (d // "Demo.zip")) (ops (snd r)) /\
             (install_core = true ->
              In (UrlRetrieve (core_zip CONFIG) (d // "Core.zip")) (ops (snd r)))) /\
  In (NpmInstall (demo_dir self)) (ops (snd r)) /\
  last (stdout (snd r)) EmptyString
  = log_entry "🎉 Installation completed successfully!" "INFO".
Proof.
  intros Hlog Hd Hdg Hc Hcg
    (Hreq & Hos & Hgit & Hpull & Hclone & [d Htmp] & Hdemo & Hcore & [t Hnpm] & [t' Hbuild]) r.
  assert (Hsteps : exists sF,
             install_steps w self install_core s = (Ok true, sF) /\
             (exists e, is_called_process_error e /\
                        In (log_entry ("⚠️ Git clone failed: " ++ exn_str e) "WARNING")
                           (stdout sF)) /\
             In (UrlRetrieve (demo_zip CONFIG) (d // "Demo.zip")) (ops sF) /\
             (install_core = true ->
              In (UrlRetrieve (core_zip CONFIG) (d // "Core.zip")) (ops sF)) /\
             In (NpmInstall (demo_dir self)) (ops sF) /\
             last (stdout sF) EmptyString
             = log_entry "🎉 Installation completed successfully!" "INFO").
  { rewrite install_steps_resume. cbn [resume]. unfold from_requirements.
    step_bind E s0;
      pose proof (check_system_requirements_fst w self
                    (progressed self 0 "Starting installation..." s)
                    (log_sink_ok_works w self _ Hlog)) as Hm;
      rewrite E, Hreq in Hm; try discriminate Hm.
    injection Hm as ->. cbn [negb]. run. unfold from_directories.
    step_bind E1 s1;
      [| pose proof (setup_directories_ok w self Hlog Hos
                       (progressed self 10 "System requirements checked" s0)) as F;
         rewrite E1 in F; discriminate F].
    run. unfold from_demo.
    destruct (acquirer_falls_back w self Hlog (demo_repo CONFIG) (demo_zip CONFIG)
                (demo_dir self) "Demo" (progressed self 20 "Directories created" s1) d
                Hd Hdg Hos Hgit Hpull Hclone Htmp Hdemo)
      as (e & s2 & Hcpe & E2 & Hw & Hu).
    rewrite (bind_ok _ _ _ _ _ E2). run.
    set (s3 := progressed self 40 "Demo repository downloaded" s2).
    assert (Hw3 : In (log_entry ("⚠️ Git clone failed: " ++ exn_str e) "WARNING") (stdout s3))
      by (subst s3; now rewrite progressed_stdout).
    assert (Hu3 : In (UrlRetrieve (demo_zip CONFIG) (d // "Demo.zip")) (ops s3))
      by (subst s3; rewrite progressed_ops; exact Hu).
    clearbody s3.
    destruct install_core.
    - pose proof (resume_grows_stdout w self true AcquireCore s3) as Gout.
      pose proof (resume_grows_ops w self true AcquireCore s3) as Gops.
      cbn [resume] in Gout, Gops. revert Gout Gops. unfold from_core.
      destruct (acquirer_falls_back w self Hlog (core_repo CONFIG) (core_zip CONFIG)
                  (core_dir self) "Core" s3 d
                  Hc Hcg Hos Hgit Hpull Hclone Htmp (Hcore eq_refl))
        as (e' & s4 & _ & E4 & _ & Hu4).
      rewrite (bind_ok _ _ _ _ _ E4). run.
      pose proof (resume_grows_ops w self true InstallDependencies
                    (progressed self 60 "Core repository downloaded" s4)) as Gops'.
      cbn [resume] in Gops'.
      destruct (from_dependencies_completes w self true Hlog Hos
                  (progressed self 60 "Core repository downloaded" s4) t t' Hnpm Hbuild)
        as (F & N & L).
      destruct (from_dependencies w self
                  (progressed self 60 "Core repository downloaded" s4)) as [rF sF].
      cbn [fst snd] in *. subst rF. intros Gout Gops. exists sF.
      split; [reflexivity |]. split; [exists e; split; [exact Hcpe |] |].
      + exact (grows_in _ _ _ _ _ Gout Hw3).
      + split; [exact (grows_in _ _ _ _ _ Gops Hu3) |]. split; [| now split].
        intros _. apply (grows_in _ _ _ _ _ Gops'). rewrite progressed_ops. exact Hu4.
    - run.
      pose proof (resume_grows_stdout w self false InstallDependencies
                    (progressed self 60 "Skipping core repository" s3)) as Gout.
      pose proof (resume_grows_ops w self false InstallDependencies
                    (progressed self 60 "Skipping core repository" s3)) as Gops.
      cbn [resume] in Gout, Gops.
      destruct (from_dependencies_completes w self false Hlog Hos
                  (progressed self 60 "Skipping core repository" s3) t t' Hnpm Hbuild)
        as (F & N & L).
      destruct (from_dependencies w self
                  (progressed self 60 "Skipping core repository" s3)) as [rF sF].
      cbn [fst snd] in *. subst rF. exists sF.
      split; [reflexivity |]. split; [exists e; split; [exact Hcpe |] |].
      + apply (grows_in _ _ _ _ _ Gout). now rewrite progressed_stdout.
      + split; [| split; [discriminate | now split]].
        apply (grows_in _ _ _ _ _ Gops). now rewrite progressed_ops. }
  destruct Hsteps as (sF & E & Hw & Hu & Huc & N & L).
  subst r. rewrite install_run by exact Hlog. rewrite E. cbn [fst snd].
  split; [reflexivity |]. split; [exact Hw |]. split; [| now split].
  exists d. auto.
Qed.

(** When the acquisition of the core raises in every state, no run
    with the core flag succeeds. *)
Lemma install_false_when_core_acquisition_raises w self :
  log_sink_ok w self ->
  (forall s, exists e,
        fst (clone_or_download_repo w self (core_repo CONFIG) (core_zip CONFIG)
               (core_dir self) "Core" s) = Raise e) ->
  forall s, fst (install w self true s) = Ok false.
Proof.
  intros Hlog Hacq s. rewrite install_run by exact Hlog. unfold install_steps. run.
  step_bind E s0; [| reflexivity].
  destruct a; cbn [negb]; [| now run].
  run. step_bind E1 s1; [| reflexivity].
  run. step_bind E2 s2; [| reflexivity].
  run. step_bind E3 s3; [| reflexivity].
  destruct (Hacq (progressed self 40 "Demo repository downloaded" s2)) as [e He].
  rewrite E3 in He. discriminate He.
Qed.

(** With version control unusable, the exception that leaves the
    acquirer is the one of the archive. *)
Lemma acquirer_raises_archive_error w self repo_url zip_url destination name s d e :
  log_sink_ok w self ->
  destination <> log_file self ->
  destination // ".git" <> log_file self ->
  vcs_unusable w repo_url destination ->
  mkdtemp w = Ok d ->
  archive_fails w zip_url e ->
  fst (clone_or_download_repo w self repo_url zip_url destination name s) = Raise e.
Proof.
  intros Hlog Hd Hg Hv Htmp Ha. rewrite clone_or_download_repo_run.
  destruct Hv as [[v Hv] | [Hav [[e1 [H1 C1]] [e2 [H2 C2]]]]].
  - rewrite Hv. now apply zip_fallback_archive_fails with d.
  - unfold available in Hav.
    destruct (probe w "git") as [[[|] v] | e0]; try discriminate Hav.
    rewrite (git_attempt_run w self Hlog repo_url destination name _ Hd Hg).
    unfold vcs_answer. rewrite H1, H2.
    apply catch_class_called_process_error in C1, C2.
    destruct (has_working_copy _ _); [rewrite C1 | rewrite C2];
      now apply zip_fallback_archive_fails with d.
Qed.

(** C3. Where the log file accepts its records.  (1) In every
    acquisition call, when git is available and the version-control
    command chosen exits non-zero, the acquirer logs a WARNING record
    and goes on as the archive fallback from there.  (2) In every
    acquisition call, a download that fails, or an archive that does
    not unpack, leaves the fallback as the exception raised, and with
    it the acquirer, when git is not available or its commands exit
    non-zero.  (3) In a run, an exception that leaves the acquisition
    of the demo or of the core ends the run: [install] returns [False],
    and its final state is the state the acquirer left plus one ERROR
    record with the text of the exception, so no later step has run.
    (4) So when version control cannot deliver the demo and its archive
    fails, every run returns [False]; (5) and so does every run with the
    core flag when this holds of the core.  (6) A version-control
    failure alone does not end the run: on a host where everything
    else works, the run prints the WARNING record, downloads the
    archive of the demo (and of the core, with the flag), installs the
    dependencies and returns [True] after the record of success. *)
Theorem vcs_failure_falls_back_archive_failure_aborts w self :
  log_sink_ok w self ->
  (forall repo_url zip_url destination name s e,
      destination <> log_file self ->
      destination // ".git" <> log_file self ->
      available w "git" = true ->
      vcs_answer w s repo_url destination = Raise e ->
      is_called_process_error e ->
      let s1 := logged w self ("⚠️ Git clone failed: " ++ exn_str e) "WARNING"
                  (vcs_issued w self (add_op (RunVersion "git") s) repo_url destination name) in
      clone_or_download_repo w self repo_url zip_url destination name s
      = zip_fallback w self zip_url destination name s1 /\
      stdout s1
      = (stdout s ++ [log_entry ("Cloning " ++ name ++ " repository...") "INFO";
                      log_entry ("⚠️ Git clone failed: " ++ exn_str e) "WARNING"])%list) /\
  (forall repo_url zip_url destination name s d e,
      mkdtemp w = Ok d ->
      archive_fails w zip_url e ->
      fst (zip_fallback w self zip_url destination name s) = Raise e /\
      (forall version,
          probe w "git" = Ok (false, version) ->
          fst (clone_or_download_repo w self repo_url zip_url destination name s)
          = Raise e) /\
      (destination <> log_file self ->
       destination // ".git" <> log_file self ->
       vcs_unusable w repo_url destination ->
       fst (clone_or_download_repo w self repo_url zip_url destination name s)
       = Raise e)) /\
  (forall install_core st s s_k e s1,
      st = AcquireDemo \/ st = AcquireCore ->
      enters w self install_core s st s_k ->
      step_raises w self st s_k e s1 ->
      install w self install_core s
      = (Ok false, logged w self ("❌ Installation failed: " ++ exn_str e) "ERROR" s1) /\
      stdout (snd (install w self install_core s))
      = (stdout s1 ++ [log_entry ("❌ Installation failed: " ++ exn_str e) "ERROR"])%list /\
      ops (snd (install w self install_core s)) = ops s1) /\
  (forall install_core s e,
      demo_dir self <> log_file self ->
      demo_dir self // ".git" <> log_file self ->
      vcs_unusable w (demo_repo CONFIG) (demo_dir self) ->
      archive_fails w (demo_zip CONFIG) e ->
      fst (install w self install_core s) = Ok false) /\
  (forall s e,
      core_dir self <> log_file self ->
      core_dir self // ".git" <> log_file self ->
      vcs_unusable w (core_repo CONFIG) (core_dir self) ->
      archive_fails w (core_zip CONFIG) e ->
      fst (install w self true s) = Ok false) /\
  (forall install_core s,
      demo_dir self <> log_file self ->
      demo_dir self // ".git" <> log_file self ->
      core_dir self <> log_file self ->
      core_dir self // ".git" <> log_file self ->
      healthy_but_vcs w self install_core ->
      let r := install w self install_core s in
      fst r = Ok true /\
      (exists e, is_called_process_error e /\
                 In (log_entry ("⚠️ Git clone failed: " ++ exn_str e) "WARNING")
                    (stdout (snd r))) /\
      (exists d, mkdtemp w = Ok d /\
                 In (UrlRetrieve (demo_zip CONFIG) (d // "Demo.zip")) (ops (snd r)) /\
                 (install_core = true ->
                  In (UrlRetrieve (core_zip CONFIG) (d // "Core.zip")) (ops (snd r)))) /\
      In (NpmInstall (demo_dir self)) (ops (snd r)) /\
      last (stdout (snd r)) EmptyString
      = log_entry "🎉 Installation completed successfully!" "INFO").
Proof.
  intros Hlog. split; [| split; [| split; [| split; [| split]]]].
  - intros repo_url zip_url destination name s e Hd Hg Hav Hans Hcpe s1. split.
    + rewrite clone_or_download_repo_run. unfold available in Hav.
      destruct (probe w "git") as [[[|] v] | e0]; try discriminate Hav.
      rewrite (git_attempt_run w self Hlog repo_url destination name _ Hd Hg).
      change (vcs_answer w (add_op (RunVersion "git") s) repo_url destination)
        with (vcs_answer w s repo_url destination).
      rewrite Hans, (catch_class_called_process_error e Hcpe). reflexivity.
    + subst s1. unfold vcs_issued. rewrite logged_stdout. cbn [stdout add_op].
      rewrite logged_stdout. cbn [stdout add_op]. now rewrite <- app_assoc.
  - intros repo_url zip_url destination name s d e Hd Ha. split; [| split].
    + now apply zip_fallback_archive_fails with d.
    + intros v Hv. rewrite clone_or_download_repo_run, Hv.
      now apply zip_fallback_archive_fails with d.
    + intros Hne Hg Hv. now apply acquirer_raises_archive_error with d.
  - intros install_core st s s_k e s1 _ Hin Hraise.
    destruct (install_returns_false_when_step_raises w self install_core s st s_k e s1
                Hlog Hin Hraise) as (E & Hout & Hops & _).
    auto.
  - intros install_core s e Hd Hg Hv Ha.
    apply install_false_when_demo_acquisition_raises; [exact Hlog |].
    intros s'. now apply acquirer_raises with e.
  - intros s e Hc Hg Hv Ha.
    apply install_false_when_core_acquisition_raises; [exact Hlog |].
    intros s'. now apply acquirer_raises with e.
  - intros install_core s. now apply healthy_run_with_failed_vcs.
Qed.


(** Offline and without git, the run of the graphical installer fails;
    with a git that cannot reach the repositories, it succeeds through
    the archives. *)
Lemma offline_run_fails_failed_clone_run_succeeds :
  fst (install host_offline gui_installer false fresh_state) = Ok false /\
  fst (install host_clone_fails gui_installer true fresh_state) = Ok true.
Proof.
  split.
  - refine (proj1 (proj2 (proj2 (proj2 (vcs_failure_falls_back_archive_failure_aborts
                                           host_offline gui_installer eq_refl))))
              false fresh_state network_down _ _ _ _).
    + discriminate.
    + discriminate.
    + left. exists EmptyString. reflexivity.
    + left. reflexivity.
  - refine (proj1 (proj2 (proj2 (proj2 (proj2 (proj2
                     (vcs_failure_falls_back_archive_failure_aborts
                        host_clone_fails gui_installer eq_refl)))))
                     true fresh_state _ _ _ _ _)).
    + discriminate.
    + discriminate.
    + discriminate.
    + discriminate.
    + split; [reflexivity |]. split; [reflexivity |]. split; [reflexivity |].
      split; [intros d; exists clone_error; split; reflexivity |].
      split; [intros u d; exists clone_error; split; reflexivity |].
      split; [eexists; reflexivity |].
      split; [do 3 eexists; split; reflexivity |].
      split; [intros _; do 3 eexists; split; reflexivity |].
      split; eexists; reflexivity.
Defined.

(* ------------------------------------------------------------------ *)
(** * The handler of [install] *)

(** C8 fails where the log file refuses its records.  On a host whose
    installation root exists but whose log file cannot be appended to,
    the first record of the requirements check raises; the handler of
    [install] prints its ERROR record, raises on the same append, and
    the exception leaves [install]: no [False] is returned, and neither
    the log file nor the log callback has received the ERROR record. *)
Theorem install_raises_when_log_file_refused :
  let r := install host_unwritable_log gui_installer false rerun_state in
  fst r = Raise permission_denied /\
  stdout (snd r)
  = ["[INFO] Checking system requirements...";
     "[ERROR] ❌ Installation failed: [Errno 13] Permission denied"] /\
  log_calls (snd r) = [] /\
  fs (snd r) (log_file gui_installer) = None /\
  ops (snd r) = [].
Proof.
  vm_compute. repeat split.
Qed.

Lemma run_ok_eq {A} (m : M A) s a : fst (m s) = Ok a -> m s = (Ok a, snd (m s)).
Proof. destruct (m s) as [r s1]. cbn [fst snd]. now intros ->. Qed.

Lemma run_raise_eq {A} (m : M A) s e : fst (m s) = Raise e -> m s = (Raise e, snd (m s)).
Proof. destruct (m s) as [r s1]. cbn [fst snd]. now intros ->. Qed.

(** Where no directory can be created, the run fails in directory
    setup and the refusal is what the ERROR record says. *)
Lemma readonly_host_run_fails :
  fst (install host_readonly gui_installer false fresh_state) = Ok false /\
  In "[ERROR] ❌ Installation failed: [Errno 13] Permission denied"
     (stdout (snd (install host_readonly gui_installer false fresh_state))).
Proof.
  pose (s0 := progressed gui_installer 0 "Starting installation..." fresh_state).
  pose (s1 := progressed gui_installer 10 "System requirements checked"
                (snd (check_system_requirements host_readonly gui_installer s0))).
  destruct (install_returns_false_when_step_raises
              host_readonly gui_installer false fresh_state
              SetupDirectories s1 permission_denied
              (snd (setup_directories host_readonly gui_installer s1)) eq_refl)
    as (E & Hout & _).
  - apply enters_directories with s0; [constructor |].
    apply run_ok_eq. reflexivity.
  - apply run_raise_eq. reflexivity.
  - split; [now rewrite E |]. rewrite Hout. apply in_or_app. right. now left.
Defined.

(* ------------------------------------------------------------------ *)
(** * The core directory *)

Lemma is_under_sibling dir a b : a <> b -> is_under (dir // a) (dir // b) = false.
Proof.
  intros Hab. unfold child. induction dir as [| x dir IH]; simpl.
  - apply String.eqb_neq in Hab. now rewrite Hab.
  - now rewrite String.eqb_refl.
Qed.

(** A directory does not lie under one of its entries. *)
Lemma is_under_child dir a : is_under (dir // a) dir = false.
Proof.
  unfold child. induction dir as [| x dir IH]; simpl; [reflexivity |].
  now rewrite String.eqb_refl.
Qed.

(** What the steps other than directory setup and the acquisition of
    the core do to the core directory: nothing. *)
Ltac core_leaf :=
  idtac;
  let p := fresh "p" in
  let Hp := fresh "Hp" in
  intros p Hp; rewrite Hp; clear p Hp;
  repeat match goal with x := installer_at _ _ _ |- _ => subst x end;
  cbn [fs set_fs add_op set_tmp tmp_set tmp_cleanup add_progress_call add_stdout add_log_call
       demo_dir core_dir log_file install_dir installer_at];
  repeat match goal with
         | |- context [match ?x with _ => _ end] =>
             lazymatch x with
             | path_eq_dec _ _ => fail
             | _ => destruct x
             end
         end;
  cbn [fs set_fs]; unfold fs_set, fs_graft, fs_remove_tree, fs_makedirs;
  cbn [demo_dir core_dir log_file install_dir installer_at];
  rewrite ?(is_under_sibling _ "demo" "core") by discriminate;
  rewrite ?parent_child, ?is_under_child;
  repeat match goal with
         | |- context [path_eq_dec ?a ?b] =>
             destruct (path_eq_dec a b) as [Heq | _];
             [exfalso; revert Heq; path_neq |]
         end;
  reflexivity.

Section CoreDirectory.

Variable w : world.
Variables (dir : path) (progress_cb log_cb : bool).

Let self := installer_at dir progress_cb log_cb.

Lemma log_keeps_core message level :
  preserves (fs_same_on (fun p => p = core_dir self)) (log w self message level).
Proof. apply log_fs_frame. intros p ->. subst self. path_neq. Qed.

Lemma acquire_demo_keeps_core :
  preserves (fs_same_on (fun p => p = core_dir self))
    (clone_or_download_repo w self (demo_repo CONFIG) (demo_zip CONFIG) (demo_dir self) "Demo").
Proof.
  pose proof log_keeps_core as Hlog.
  unfold clone_or_download_repo, check_command, git_attempt, zip_fallback, download_file,
    extract_zip.
  preserves_with core_leaf.
Qed.

Lemma install_dependencies_keeps_core :
  preserves (fs_same_on (fun p => p = core_dir self))
    (install_dependencies w self (demo_dir self) "Demo").
Proof.
  pose proof log_keeps_core as Hlog.
  unfold install_dependencies. preserves_with core_leaf.
Qed.

Lemma setup_environment_keeps_core :
  preserves (fs_same_on (fun p => p = core_dir self)) (setup_environment w self).
Proof.
  pose proof log_keeps_core as Hlog.
  unfold setup_environment. preserves_with core_leaf.
Qed.

Lemma create_launchers_keeps_core :
  preserves (fs_same_on (fun p => p = core_dir self)) (create_launchers w self).
Proof.
  pose proof log_keeps_core as Hlog.
  unfold create_launchers. preserves_with core_leaf.
Qed.

End CoreDirectory.

Lemma bind_inv_ok {A B} (m : M A) (k : A -> M B) s b s' :
  bind m k s = (Ok b, s') -> exists a s1, m s = (Ok a, s1) /\ k a s1 = (Ok b, s').
Proof.
  unfold bind. destruct (m s) as [[a | e] s1]; [eauto | discriminate].
Qed.

Lemma fs_exists_some f p : fs_exists f p = true -> exists n, f p = Some n.
Proof. unfold fs_exists. destruct (f p); [eauto | discriminate]. Qed.

Lemma fs_exists_none f p : fs_exists f p = false -> f p = None.
Proof. unfold fs_exists. now destruct (f p). Qed.

Section CoreDirectoryRun.

Variable w : world.
Variables (dir : path) (progress_cb log_cb : bool).

Let self := installer_at dir progress_cb log_cb.


End CoreDirectoryRun.

#[local] Hint Resolve acquire_demo_keeps_core install_dependencies_keeps_core
  setup_environment_keeps_core create_launchers_keeps_core log_keeps_core : preserves.


Section CoreDirectoryKept.

Variable w : world.
Variables (dir : path) (progress_cb log_cb : bool).

Let self := installer_at dir progress_cb log_cb.



End CoreDirectoryKept.




(* ------------------------------------------------------------------ *)
(** * Progress *)

Lemma hook_percent_bounds b p : hook_percent b = Some p -> 0 <= p <= 100.
Proof.
  destruct b as [[bn bs] total]. unfold hook_percent.
  destruct (0 <? total) eqn:Ht; [| discriminate]. intros [= <-].
  apply Z.ltb_lt in Ht. split; [| apply Z.le_min_l].
  apply Z.min_glb; [lia |]. apply Z.div_pos; [| assumption].
  apply Z.mul_nonneg_nonneg; [| lia]. apply Z.mul_nonneg_nonneg; apply N2Z.is_nonneg.
Qed.

Lemma download_percents_bounds w url :
  Forall (fun v => 0 <= v <= 100) (download_percents w url).
Proof.
  unfold download_percents. induction (url_blocks w url) as [| b l IH]; simpl.
  - constructor.
  - apply Forall_app. split; [| assumption].
    destruct (hook_percent b) as [p |] eqn:Hp; constructor; [| constructor].
    now apply hook_percent_bounds with b.
Qed.

Lemma hook_calls_values self description w url :
  map fst (hook_calls self description (url_blocks w url))
  = reported self (download_percents w url).
Proof.
  unfold hook_calls, reported, download_percents.
  destruct (progress_callback self); [| reflexivity].
  induction (url_blocks w url) as [| b l IH]; cbn [flat_map]; [reflexivity |].
  rewrite map_app, IH. now destruct (hook_percent b).
Qed.

Lemma hooked_progress self description blocks s :
  progress_calls (hooked self description blocks s)
  = (progress_calls s ++ hook_calls self description blocks)%list.
Proof.
  unfold hooked, hook_calls. revert s.
  induction blocks as [| b blocks IH]; intros s.
  - cbn [for_each ret snd flat_map]. now destruct (progress_callback self); rewrite app_nil_r.
  - cbn [for_each flat_map]. unfold bind. rewrite progress_hook_run. rewrite IH.
    unfold progress_hook, hook_percent. destruct b as [[bn bs] total].
    destruct (0 <? total).
    + rewrite update_progress_run. cbn [snd]. rewrite progressed_progress.
      destruct (progress_callback self); [| now rewrite !app_nil_r].
      now rewrite <- app_assoc.
    + cbn [ret snd]. now destruct (progress_callback self).
Qed.

Section StepProgress.

Variable w : world.
Variable self : installer.

Lemma setup_directories_same_progress :
  preserves (same progress_calls) (setup_directories w self).
Proof. unfold setup_directories. preserves_with same_leaf. Qed.

Lemma git_attempt_same_progress repo_url destination name :
  preserves (same progress_calls) (git_attempt w self repo_url destination name).
Proof. unfold git_attempt. preserves_with same_leaf. Qed.

Lemma install_dependencies_same_progress directory name :
  preserves (same progress_calls) (install_dependencies w self directory name).
Proof. unfold install_dependencies. preserves_with same_leaf. Qed.

Lemma setup_environment_same_progress :
  preserves (same progress_calls) (setup_environment w self).
Proof. unfold setup_environment. preserves_with same_leaf. Qed.

Lemma create_launchers_same_progress :
  preserves (same progress_calls) (create_launchers w self).
Proof. unfold create_launchers. preserves_with same_leaf. Qed.

(** Steps without progress calls after a step keep what that step
    reported. *)
Lemma progress_after {A B} (m : M A) (k : A -> M B) s X :
  progress_calls (snd (m s)) = (progress_calls s ++ X)%list ->
  (forall a, preserves (same progress_calls) (k a)) ->
  progress_calls (snd (bind m k s)) = (progress_calls s ++ X)%list.
Proof.
  intros Hm Hk. unfold bind. destruct (m s) as [[a | e] s1]; cbn [snd] in *.
  - now rewrite (Hk a s1).
  - exact Hm.
Qed.

(** The progress calls of a download are those of its report hook, if
    it gets that far. *)
Lemma download_file_progress url destination description s :
  exists D,
    progress_calls (snd (download_file w self url destination description s))
    = (progress_calls s ++ D)%list /\
    (D = [] \/ map fst D = reported self (download_percents w url)).
Proof.
  unfold download_file. log_split.
  - rewrite bind_perform, bind_for_each_hook. cbn beta.
    lazymatch goal with
    | |- context [bind ?m ?k ?s1] =>
        assert (H : preserves (same progress_calls) (bind m k))
          by preserves_with same_leaf;
        specialize (H s1); destruct (bind m k s1) as [r s2]
    end.
    cbn [snd] in *. unfold same in H.
    exists (hook_calls self description (url_blocks w url)).
    split; [| right; apply hook_calls_values].
    rewrite H, hooked_progress. cbn [progress_calls add_op]. now rewrite logged_progress.
  - exists []. cbn [snd progress_calls add_stdout]. rewrite app_nil_r. auto.
Qed.

(** The progress calls of the fallback are those of its download. *)
Lemma zip_fallback_progress zip_url destination name s :
  exists D,
    progress_calls (snd (zip_fallback w self zip_url destination name s))
    = (progress_calls s ++ D)%list /\
    (D = [] \/ map fst D = reported self (download_percents w zip_url)).
Proof.
  unfold zip_fallback. log_split.
  - unfold with_temporary_directory. rewrite ?bind_assoc, bind_perform, bind_answer.
    destruct (mkdtemp w) as [d | e].
    + cbn beta.
      lazymatch goal with
      | |- context [bind (download_file w self ?u ?p ?n) ?k ?s1] =>
          destruct (download_file_progress u p n s1) as [D [ED HD]];
          assert (H : progress_calls (snd (bind (download_file w self u p n) k s1))
                      = (progress_calls s1 ++ D)%list)
            by (apply progress_after;
                [exact ED | intros _; unfold extract_zip; preserves_with same_leaf]);
          destruct (bind (download_file w self u p n) k s1) as [r s2]
      end.
      cbn [snd] in *. exists D. split; [| exact HD].
      cbn [progress_calls tmp_cleanup set_tmp add_op]. rewrite H.
      cbn [progress_calls add_op]. now rewrite logged_progress.
    + exists []. cbn [snd progress_calls add_op]. rewrite logged_progress, app_nil_r. auto.
  - exists []. cbn [snd progress_calls add_stdout]. rewrite app_nil_r. auto.
Qed.

Lemma acquirer_progress repo_url zip_url destination name s :
  exists D,
    progress_calls (snd (clone_or_download_repo w self repo_url zip_url destination name s))
    = (progress_calls s ++ D)%list /\
    (D = [] \/ map fst D = reported self (download_percents w zip_url)).
Proof.
  rewrite clone_or_download_repo_run.
  destruct (probe w "git") as [[[|] v] | e].
  - pose proof (git_attempt_same_progress repo_url destination name
                  (add_op (RunVersion "git") s)) as H.
    destruct (git_attempt w self repo_url destination name (add_op (RunVersion "git") s))
      as [[[|] | e] s1]; cbn [snd] in H; unfold same in H; cbn [progress_calls add_op] in H.
    + exists []. cbn [snd]. rewrite H, app_nil_r. auto.
    + destruct (zip_fallback_progress zip_url destination name s1) as [D [E HD]].
      exists D. now rewrite E, H.
    + exists []. cbn [snd]. rewrite H, app_nil_r. auto.
  - destruct (zip_fallback_progress zip_url destination name (add_op (RunVersion "git") s))
      as [D [E HD]].
    exists D. now rewrite E.
  - exists []. cbn [snd progress_calls add_op]. rewrite app_nil_r. auto.
Qed.

End StepProgress.

Lemma reported_app self l1 l2 :
  reported self (l1 ++ l2) = (reported self l1 ++ reported self l2)%list.
Proof. unfold reported. now destruct (progress_callback self). Qed.

Section Emits.

Variable w : world.
Variable self : installer.

Lemma emits_weaken (P Q : list Z -> Prop) m :
  (forall l, P l -> Q l) -> emits self P m -> emits self Q m.
Proof.
  intros HPQ Hm s. destruct (Hm s) as (ex & X & rest & HP & E & V & S).
  exists ex, X, rest. auto.
Qed.

(** The end of the block: a last record and [return True]. *)
Lemma emits_return message level :
  emits self (eq []) (log w self message level ;; ret true).
Proof.
  intros s. exists [], [], []. log_split; cbn [ret snd fst progress_calls add_stdout];
    rewrite ?logged_progress, app_nil_r; unfold reported;
    repeat split; now destruct (progress_callback self).
Qed.

(** A step without progress calls in front of the rest. *)
Lemma emits_after_step P (m : M unit) k :
  preserves (same progress_calls) m -> emits self P k -> emits self P (m ;; k).
Proof.
  intros Hm Hk s. specialize (Hm s). unfold same in Hm. unfold bind.
  destruct (m s) as [[[] | e] s1]; cbn [snd] in Hm.
  - destruct (Hk s1) as (ex & X & rest & HP & E & V & S).
    exists ex, X, rest. rewrite E, Hm. auto.
  - destruct (Hk s) as (ex & _ & _ & HP & _).
    exists ex, [], (reported self ex). cbn [snd fst map app].
    rewrite Hm, app_nil_r. repeat split; [assumption | discriminate].
Qed.

(** A checkpoint in front of the rest. *)
Lemma emits_checkpoint P value message k :
  emits self P k ->
  emits self (fun l => exists l', P l' /\ l = value :: l')
    (update_progress self value message ;; k).
Proof.
  intros Hk s. rewrite bind_update_progress.
  destruct (Hk (progressed self value message s)) as (ex & X & rest & HP & E & V & S).
  exists (value :: ex),
    ((if progress_callback self then [(value, message)] else []) ++ X)%list, rest.
  split; [eauto |]. split; [| split; [| assumption]].
  - now rewrite E, progressed_progress, app_assoc.
  - revert V. unfold reported. destruct (progress_callback self); cbn [app map fst].
    + now intros ->.
    + auto.
Qed.

(** An acquisition in front of the rest: the values of its download, or
    nothing. *)
Lemma emits_acquisition P repo_url zip_url destination name k :
  emits self P k ->
  emits self (fun l => exists D l', (D = [] \/ D = download_percents w zip_url) /\
                                    P l' /\ l = (D ++ l')%list)
    (clone_or_download_repo w self repo_url zip_url destination name ;; k).
Proof.
  intros Hk s.
  destruct (acquirer_progress w self repo_url zip_url destination name s) as [D [ED HD]].
  assert (HD' : exists D', (D' = [] \/ D' = download_percents w zip_url) /\
                           map fst D = reported self D').
  { destruct HD as [-> | HD].
    - exists []. split; [now left |]. unfold reported. now destruct (progress_callback self).
    - eauto. }
  destruct HD' as (D' & HD' & EV). unfold bind.
  destruct (clone_or_download_repo w self repo_url zip_url destination name s)
    as [[[] | e] s1]; cbn [snd] in ED.
  - destruct (Hk s1) as (ex & X & rest & HP & E & V & S).
    exists (D' ++ ex)%list, (D ++ X)%list, rest.
    split; [eauto |]. split; [| split; [| assumption]].
    + now rewrite E, ED, app_assoc.
    + now rewrite map_app, <- app_assoc, V, EV, reported_app.
  - destruct (Hk s) as (ex & _ & _ & HP & _).
    exists (D' ++ ex)%list, D, (reported self ex). cbn [snd fst].
    split; [eauto |]. split; [assumption |]. split; [| discriminate].
    now rewrite EV, reported_app.
Qed.

End Emits.

Section RunProgress.

Variable w : world.
Variable self : installer.
Variable install_core : bool.

Lemma from_launchers_emits : emits self (eq [100]) (from_launchers w self).
Proof.
  unfold from_launchers.
  apply emits_after_step; [apply create_launchers_same_progress |].
  eapply emits_weaken; [| apply emits_checkpoint, emits_return].
  now intros l (l' & <- & ->).
Qed.

Lemma from_environment_emits : emits self (eq [90; 100]) (from_environment w self).
Proof.
  unfold from_environment.
  apply emits_after_step; [apply setup_environment_same_progress |].
  eapply emits_weaken; [| apply emits_checkpoint, from_launchers_emits].
  now intros l (l' & <- & ->).
Qed.

Lemma from_dependencies_emits : emits self (eq [80; 90; 100]) (from_dependencies w self).
Proof.
  unfold from_dependencies.
  apply emits_after_step; [apply install_dependencies_same_progress |].
  eapply emits_weaken; [| apply emits_checkpoint, from_environment_emits].
  now intros l (l' & <- & ->).
Qed.

Lemma from_core_emits : emits self (core_values w) (from_core w self).
Proof.
  unfold from_core.
  eapply emits_weaken; [| apply emits_acquisition, emits_checkpoint, from_dependencies_emits].
  intros l (D & l' & HD & (l'' & <- & ->) & ->). exists D. auto.
Qed.

Lemma from_demo_emits :
  emits self (demo_values w install_core) (from_demo w self install_core).
Proof.
  unfold from_demo.
  pose (Pc := fun l : list Z =>
                exists D2,
                  (D2 = [] \/ install_core = true /\
                              D2 = download_percents w (core_zip CONFIG)) /\
                  l = (D2 ++ [60; 80; 90; 100])%list).
  assert (Hrest : emits self Pc
                    (if install_core then from_core w self
                     else update_progress self 60 "Skipping core repository" ;;
                          from_dependencies w self)).
  { destruct install_core.
    - eapply emits_weaken; [| apply from_core_emits].
      intros l (D2 & HD2 & ->). exists D2. split; [| reflexivity].
      destruct HD2; auto.
    - eapply emits_weaken; [| apply emits_checkpoint, from_dependencies_emits].
      intros l (l' & <- & ->). exists []. auto. }
  eapply emits_weaken;
    [| apply emits_acquisition, (emits_checkpoint self Pc), Hrest].
  intros l (D1 & l' & HD1 & (l'' & (D2 & HD2 & ->) & ->) & ->).
  exists D1, D2. auto.
Qed.

Lemma from_directories_emits :
  emits self (fun l => exists l', demo_values w install_core l' /\ l = 20 :: l')
    (from_directories w self install_core).
Proof.
  unfold from_directories.
  apply emits_after_step; [apply setup_directories_same_progress |].
  apply emits_checkpoint, from_demo_emits.
Qed.

Lemma install_steps_emits :
  emits self (run_values w install_core) (install_steps w self install_core).
Proof.
  intros s. rewrite install_steps_resume. cbn [resume]. unfold from_requirements.
  set (s0 := progressed self 0 "Starting installation..." s).
  assert (E0 : progress_calls s0
               = (progress_calls s
                  ++ if progress_callback self then [(0, "Starting installation...")] else [])%list)
    by apply progressed_progress.
  clearbody s0.
  pose proof (check_system_requirements_same_progress w self s0) as Hc.
  unfold same in Hc.
  destruct (check_system_requirements w self s0) as [[[|] | e] s1] eqn:Ec;
    cbn [snd] in Hc;
    [ rewrite (bind_ok _ _ _ _ _ Ec) | rewrite (bind_ok _ _ _ _ _ Ec)
    | rewrite (bind_raise _ _ _ _ _ Ec) ];
    cbn [negb].
  - (* requirements met *)
    destruct (emits_checkpoint self _ 10 "System requirements checked" _
                from_directories_emits s1)
      as (ex & X & rest & (l1 & (l2 & (D1 & D2 & HD1 & HD2 & ->) & ->) & ->) & E & V & S).
    exists ([0; 10; 20] ++ D1 ++ [40] ++ D2 ++ [60; 80; 90; 100])%list,
      ((if progress_callback self then [(0, "Starting installation...")] else []) ++ X)%list,
      rest.
    split; [exists D1, D2; auto |]. split; [| split; [| exact S]].
    + now rewrite E, Hc, E0, app_assoc.
    + revert V. unfold reported. destruct (progress_callback self); cbn [app map fst].
      * now intros ->.
      * auto.
  - (* requirements not met *)
    exists checkpoints, (if progress_callback self then [(0, "Starting installation...")] else []),
      (reported self [10; 20; 40; 60; 80; 90; 100]).
    log_split; cbn [ret snd fst progress_calls add_stdout]; rewrite ?logged_progress, Hc;
      (split; [exists [], []; auto |]; split; [assumption |]; split; [| discriminate];
       unfold reported, checkpoints; now destruct (progress_callback self)).
  - (* the check raises *)
    exists checkpoints, (if progress_callback self then [(0, "Starting installation...")] else []),
      (reported self [10; 20; 40; 60; 80; 90; 100]).
    cbn [snd fst]. rewrite Hc.
    split; [exists [], []; auto |]. split; [assumption |]. split; [| discriminate].
    unfold reported, checkpoints. now destruct (progress_callback self).
Qed.

Lemma install_emits :
  emits self (run_values w install_core) (install w self install_core).
Proof.
  intros s. destruct (install_steps_emits s) as (ex & X & rest & HP & E & V & S).
  exists ex, X, rest. rewrite install_run_any.
  destruct (install_steps w self install_core s) as [[b | e] s1]; cbn [fst snd] in *.
  - auto.
  - destruct (log_cases w self ("❌ Installation failed: " ++ exn_str e) "ERROR" s1)
      as [-> | [e' ->]];
      cbn [fst snd progress_calls add_stdout]; rewrite ?logged_progress;
      repeat split; auto; discriminate.
Qed.

End RunProgress.

Lemma nondecreasing_app_l l1 l2 : nondecreasing (l1 ++ l2) -> nondecreasing l1.
Proof.
  induction l1 as [| a l1 IH]; [exact (fun _ => I) |].
  destruct l1 as [| b l1]; [exact (fun _ => I) |].
  cbn [app nondecreasing]. intros [Hab H]. split; [assumption |]. apply IH. exact H.
Qed.

Lemma nondecreasing_checkpoints : nondecreasing checkpoints.
Proof. cbn. lia. Qed.

(** C1, as the code has it.  The values passed to the progress callback
    during a run are an initial part of
    0, 10, 20, D1, 40, D2, 60, 80, 90, 100
    (nothing at all without a callback), where D1 and D2 are empty or
    the percentages, each between 0 and 100, that the archive download
    of the demo and of the core reports; D2 is empty without the core
    flag.  So every value is one of the checkpoints 0, 10, 20, 40, 60,
    80, 90, 100 or such a percentage: 60 follows the core step whether
    it ran or was skipped, and a 70 can only be a percentage of a
    download.  Without such percentages the values are an initial part
    of the checkpoints and non-decreasing.  A run that returns [True]
    has emitted the whole list, whose last value is 100. *)
Theorem progress_follows_checkpoints w self install_core s :
  exists D1 D2 X rest,
    progress_calls (snd (install w self install_core s)) = (progress_calls s ++ X)%list /\
    (map fst X ++ rest)%list
    = reported self ([0; 10; 20] ++ D1 ++ [40] ++ D2 ++ [60; 80; 90; 100])%list /\
    (D1 = [] \/ D1 = download_percents w (demo_zip CONFIG)) /\
    (D2 = [] \/ install_core = true /\ D2 = download_percents w (core_zip CONFIG)) /\
    Forall (fun v => 0 <= v <= 100) (D1 ++ D2) /\
    (forall v, In v (map fst X) -> In v checkpoints \/ In v (D1 ++ D2)) /\
    (In 70 (map fst X) -> In 70 (D1 ++ D2)) /\
    (D1 = [] -> D2 = [] ->
     (map fst X ++ rest)%list = reported self checkpoints /\ nondecreasing (map fst X)) /\
    (fst (install w self install_core s) = Ok true ->
     rest = [] /\ (progress_callback self = true -> last (map fst X) 0 = 100)).
Proof.
  destruct (install_emits w self install_core s)
    as (ex & X & rest & (D1 & D2 & HD1 & HD2 & ->) & E & V & S).
  exists D1, D2, X, rest.
  assert (Hin : forall v, In v (map fst X) -> In v checkpoints \/ In v (D1 ++ D2)).
  { intros v Hv.
    assert (Hall : In v ([0; 10; 20] ++ D1 ++ [40] ++ D2 ++ [60; 80; 90; 100])%list).
    { revert V. unfold reported. destruct (progress_callback self); intros V.
      - rewrite <- V. apply in_or_app. now left.
      - apply app_eq_nil in V. destruct V as [V _]. rewrite V in Hv. destruct Hv. }
    rewrite !in_app_iff in Hall. rewrite in_app_iff. unfold checkpoints.
    cbn [In] in *. tauto. }
  split; [exact E |]. split; [exact V |]. split; [exact HD1 |]. split; [exact HD2 |].
  split; [| split; [exact Hin | split; [| split]]].
  - apply Forall_app. split.
    + destruct HD1 as [-> | ->]; [constructor | apply download_percents_bounds].
    + destruct HD2 as [-> | [_ ->]]; [constructor | apply download_percents_bounds].
  - intros H. destruct (Hin 70 H) as [Hc | Hd]; [| exact Hd].
    unfold checkpoints in Hc. cbn [In] in Hc.
    repeat (destruct Hc as [Hc | Hc]; [discriminate Hc |]). destruct Hc.
  - intros -> ->. split; [exact V |].
    cbn [app] in V. revert V. unfold reported.
    destruct (progress_callback self).
    + intros V. apply nondecreasing_app_l with rest. rewrite V.
      apply nondecreasing_checkpoints.
    + intros V. apply app_eq_nil in V. destruct V as [-> _]. exact I.
  - intros H. split; [now apply S |].
    intros Hcb. rewrite (S H), app_nil_r in V. rewrite V. unfold reported. rewrite Hcb.
    change ([0; 10; 20] ++ D1 ++ [40] ++ D2 ++ [60; 80; 90; 100])%list
      with ([0; 10; 20] ++ D1 ++ [40] ++ D2 ++ [60; 80; 90] ++ [100])%list.
    rewrite !app_assoc. apply last_last.
Qed.

(** The successful run of the graphical installer ends at 100. *)
Lemma progress_ends_at_hundred :
  last (map fst (progress_calls (snd (install host_ready gui_installer true fresh_state)))) 0
  = 100.
Proof.
  destruct (progress_follows_checkpoints host_ready gui_installer true fresh_state)
    as (D1 & D2 & X & rest & E & _ & _ & _ & _ & _ & _ & _ & S).
  rewrite E. exact (proj2 (S eq_refl) eq_refl).
Defined.

(** C1 as stated fails when an archive is downloaded: on a host without
    git the successful run reports 0, 50 and 100 for the download after
    the checkpoint 20, so the values go down, and 50 is no checkpoint. *)
Lemma progress_drops_during_archive_download :
  fst (install host_without_git gui_installer false fresh_state) = Ok true /\
  map fst (progress_calls (snd (install host_without_git gui_installer false fresh_state)))
  = [0; 10; 20; 0; 50; 100; 40; 60; 80; 90; 100] /\
  ~ nondecreasing
      (map fst (progress_calls
                  (snd (install host_without_git gui_installer false fresh_state)))) /\
  ~ In 50 [0; 10; 20; 40; 60; 70; 80; 90; 100].
Proof.
  assert (E : map fst (progress_calls
                         (snd (install host_without_git gui_installer false fresh_state)))
              = [0; 10; 20; 0; 50; 100; 40; 60; 80; 90; 100]) by (vm_compute; reflexivity).
  split; [vm_compute; reflexivity |]. split; [exact E |]. split.
  - rewrite E. cbn. lia.
  - cbn. intros H. repeat (destruct H as [H | H]; [discriminate H |]). exact H.
Qed.

(* ------------------------------------------------------------------ *)
(** * Further properties of the installation engine *)

(** ** Paths inside and outside a directory *)

Lemma is_under_app d l : is_under d (d ++ l)%list = true.
Proof.
  induction d as [| x d IH]; [reflexivity |]. cbn [app is_under].
  now rewrite String.eqb_refl.
Qed.

Lemma is_under_refl d : is_under d d = true.
Proof. rewrite <- (app_nil_r d) at 2. apply is_under_app. Qed.

Lemma is_under_trans a b p :
  is_under a b = true -> is_under b p = true -> is_under a p = true.
Proof.
  revert b p. induction a as [| x a IH]; intros b p Hab Hbp; [reflexivity |].
  destruct b as [| y b]; [discriminate Hab |].
  destruct p as [| z p]; [discriminate Hbp |].
  cbn [is_under] in *.
  apply andb_true_iff in Hab as [Hxy Hab]. apply andb_true_iff in Hbp as [Hyz Hbp].
  apply String.eqb_eq in Hxy, Hyz. subst. rewrite String.eqb_refl. cbn [andb].
  now apply IH with b.
Qed.

(** A path outside a directory is none of the paths inside it, and is
    outside every directory inside it. *)
Lemma outside_neq d p q : is_under d p = false -> is_under d q = true -> p <> q.
Proof. intros Hp Hq ->. congruence. Qed.

Lemma outside_below d q p : is_under d p = false -> is_under d q = true -> is_under q p = false.
Proof.
  intros Hp Hq. destruct (is_under q p) eqn:E; [| reflexivity].
  now rewrite (is_under_trans d q p Hq E) in Hp.
Qed.

Ltac under_root :=
  first [ apply is_under_refl
        | unfold child; rewrite <- ?app_assoc; apply is_under_app ].

(* ------------------------------------------------------------------ *)
(** ** The log file is only appended to *)

Lemma str_app_nil_r (a : string) : a ++ EmptyString = a.
Proof. induction a as [| c a IH]; [reflexivity |]. cbn. now rewrite IH. Qed.

Lemma str_app_assoc (a b c : string) : (a ++ b) ++ c = a ++ b ++ c.
Proof. induction a as [| x a IH]; [reflexivity |]. cbn. now rewrite IH. Qed.

#[local] Instance log_kept_preorder self : PreOrder (log_kept self).
Proof.
  split.
  - intros s. exists EmptyString. now rewrite str_app_nil_r.
  - intros a b c [t1 E1] [t2 E2]. exists (t1 ++ t2). now rewrite E2, E1, str_app_assoc.
Qed.

Lemma child_neq_self (d : path) x : d // x <> d.
Proof.
  unfold child. intros H. rewrite <- (app_nil_r d) in H at 2.
  apply app_inv_head in H. discriminate H.
Qed.

Lemma log_kept_same_file self s s' :
  fs s' (log_file self) = fs s (log_file self) -> log_kept self s s'.
Proof.
  intros E. exists EmptyString. unfold file_content. now rewrite E, str_app_nil_r.
Qed.

Ltac kept_leaf :=
  idtac;
  apply log_kept_same_file;
  repeat match goal with x := installer_at _ _ _ |- _ => subst x end;
  cbn [fs set_fs add_op set_tmp tmp_set tmp_cleanup add_progress_call add_stdout add_log_call
       demo_dir core_dir log_file install_dir installer_at];
  repeat match goal with
         | |- context [match ?x with _ => _ end] =>
             lazymatch x with
             | path_eq_dec _ _ => fail
             | is_under _ _ => fail
             | _ => destruct x
             end
         end;
  cbn [fs set_fs]; unfold fs_set, fs_graft, fs_remove_tree, fs_makedirs;
  cbn [demo_dir core_dir log_file install_dir installer_at];
  rewrite ?(is_under_sibling _ "demo" "install.log") by discriminate;
  rewrite ?(is_under_sibling _ "core" "install.log") by discriminate;
    rewrite ?parent_child, ?is_under_child;
  repeat match goal with
         | |- context [path_eq_dec ?a ?b] =>
             let Heq := fresh "Heq" in
             destruct (path_eq_dec a b) as [Heq | _];
             [exfalso; revert Heq; first [apply child_neq_self | path_neq] |]
         end;
  reflexivity.

Section LogKept.

Variable w : world.
Variables (dir : path) (progress_cb log_cb : bool).

Let self := installer_at dir progress_cb log_cb.

Lemma log_log_kept message level : preserves (log_kept self) (log w self message level).
Proof.
  intros s. fold (logged w self message level s). unfold log_kept, file_content.
  rewrite logged_fs.
  destruct (fs_exists (fs s) (parent (log_file self)));
    [destruct (append_error w (log_file self)) |];
    try (exists EmptyString; now rewrite str_app_nil_r).
  unfold fs_set. destruct (path_eq_dec (log_file self) (log_file self)); [| contradiction].
  eauto.
Qed.

Lemma touch_log_kept : preserves (log_kept self) (touch w (log_file self)).
Proof.
  unfold touch.
  preserves_with ltac:(idtac; first [ now apply log_kept_same_file | reflexivity ]).
  lazymatch goal with
  | |- log_kept _ ?s _ => destruct (fs_exists (fs s) (log_file self)) eqn:Hex; [reflexivity |]
  end.
  exists EmptyString. unfold file_content. cbn [fs set_fs]. unfold fs_set.
  destruct (path_eq_dec (log_file self) (log_file self)); [| contradiction].
  apply fs_exists_none in Hex. now rewrite Hex.
Qed.

Lemma install_log_kept install_core : preserves (log_kept self) (install w self install_core).
Proof.
  pose proof log_log_kept as Hlog. pose proof touch_log_kept as Htouch.
  unfold install, install_steps, check_system_requirements, requirement_errors,
    setup_directories, clone_or_download_repo, check_command, git_attempt, zip_fallback,
    download_file, extract_zip, install_dependencies, setup_environment, create_launchers.
  preserves_with kept_leaf.
Qed.

End LogKept.

(** X2. [install] only ever appends to [install.log]: whatever the host
    answers, the content the file had before the run is still the
    beginning of its content after the run. *)
Theorem install_appends_to_log w dir progress_cb log_cb install_core s :
  let self := installer_at dir progress_cb log_cb in
  exists t,
    file_content (fs (snd (install w self install_core s))) (log_file self)
    = file_content (fs s) (log_file self) ++ t.
Proof. intros self. apply (install_log_kept w dir progress_cb log_cb install_core s). Qed.

(* ------------------------------------------------------------------ *)
(** ** On a second run the log file receives every record *)

Lemma lines_app l1 l2 : lines (l1 ++ l2) = lines l1 ++ lines l2.
Proof.
  induction l1 as [| e l1 IH]; [reflexivity |]. cbn [app lines].
  now rewrite IH, !str_app_assoc.
Qed.

#[local] Instance log_mirrors_preorder self : PreOrder (log_mirrors self).
Proof.
  split.
  - intros s Hex. split; [assumption |]. exists []. cbn [lines].
    now rewrite app_nil_r, str_app_nil_r.
  - intros a b c H1 H2 Hex. destruct (H1 Hex) as (Hb & l1 & S1 & F1).
    destruct (H2 Hb) as (Hc & l2 & S2 & F2). split; [assumption |].
    exists (l1 ++ l2)%list. now rewrite S2, S1, F2, F1, lines_app, app_assoc, str_app_assoc.
Qed.

Lemma log_mirrors_quiet self s s' :
  stdout s' = stdout s ->
  file_content (fs s') (log_file self) = file_content (fs s) (log_file self) ->
  (fs_exists (fs s) (parent (log_file self)) = true ->
   fs_exists (fs s') (parent (log_file self)) = true) ->
  log_mirrors self s s'.
Proof.
  intros Hs Hf Hr Hex. split; [now apply Hr |]. exists []. cbn [lines].
  now rewrite Hs, Hf, app_nil_r, str_app_nil_r.
Qed.

Ltac mirrors_leaf :=
  idtac;
  repeat match goal with x := installer_at _ _ _ |- _ => subst x end;
  cbn [fs set_fs add_op set_tmp tmp_set tmp_cleanup add_progress_call add_stdout add_log_call
       demo_dir core_dir log_file install_dir installer_at];
  repeat match goal with
         | |- context [match ?x with _ => _ end] =>
             lazymatch x with
             | path_eq_dec _ _ => fail
             | is_under _ _ => fail
             | _ => destruct x
             end
         end;
  (apply log_mirrors_quiet;
  [ reflexivity
  | unfold file_content;
    cbn [fs set_fs add_op set_tmp tmp_set tmp_cleanup add_progress_call add_stdout
         add_log_call]; unfold fs_set, fs_graft, fs_remove_tree, fs_makedirs;
    cbn [demo_dir core_dir log_file install_dir installer_at];
    rewrite ?(is_under_sibling _ "demo" "install.log") by discriminate;
    rewrite ?(is_under_sibling _ "core" "install.log") by discriminate;
    rewrite ?parent_child, ?is_under_child;
    repeat match goal with
           | |- context [path_eq_dec ?a ?b] =>
               let Heq := fresh "Heq" in
               destruct (path_eq_dec a b) as [Heq | _];
               [exfalso; revert Heq; first [apply child_neq_self | path_neq] |]
           end;
    reflexivity
  | cbn [log_file installer_at]; rewrite parent_child; unfold fs_exists;
    cbn [fs set_fs add_op set_tmp tmp_set tmp_cleanup add_progress_call add_stdout
         add_log_call]; unfold fs_set, fs_graft, fs_remove_tree, fs_makedirs;
    cbn [demo_dir core_dir log_file install_dir installer_at];
    rewrite ?parent_child, ?is_under_child, ?is_under_refl;
    repeat match goal with
           | |- context [path_eq_dec ?a ?b] => destruct (path_eq_dec a b)
           end;
    solve [ exact (fun H => H) | intros _; reflexivity
          | match goal with |- context [fs ?s ?p] => destruct (fs s p) end;
            solve [ exact (fun H => H) | intros _; reflexivity ] ] ]).

Section LogMirrors.

Variable w : world.
Variables (dir : path) (progress_cb log_cb : bool).

Let self := installer_at dir progress_cb log_cb.

Hypothesis Hlog : log_sink_ok w self.

Lemma log_log_mirrors message level : preserves (log_mirrors self) (log w self message level).
Proof.
  intros s Hex. fold (logged w self message level s).
  assert (Hfs : fs (logged w self message level s)
                = fs_set (fs s) (log_file self)
                    (File (file_content (fs s) (log_file self)
                           ++ log_entry message level ++ nl)))
    by (now rewrite logged_fs, Hex, Hlog).
  split; [| exists [log_entry message level]; split].
  - unfold fs_exists in *. rewrite Hfs. unfold fs_set.
    now destruct (path_eq_dec (parent (log_file self)) (log_file self)).
  - apply logged_stdout.
  - unfold file_content at 1. rewrite Hfs. unfold fs_set.
    destruct (path_eq_dec (log_file self) (log_file self)); [| contradiction].
    cbn [lines]. now rewrite str_app_nil_r.
Qed.

Lemma touch_log_mirrors : preserves (log_mirrors self) (touch w (log_file self)).
Proof.
  unfold touch.
  preserves_with ltac:(idtac; first [ now apply log_mirrors_quiet | reflexivity ]).
  lazymatch goal with
  | |- log_mirrors _ ?s _ => destruct (fs_exists (fs s) (log_file self)) eqn:Hex; [reflexivity |]
  end.
  apply log_mirrors_quiet; [reflexivity | |].
  - unfold file_content. cbn [fs set_fs]. unfold fs_set.
    destruct (path_eq_dec (log_file self) (log_file self)); [| contradiction].
    apply fs_exists_none in Hex. now rewrite Hex.
  - unfold fs_exists. cbn [fs set_fs]. unfold fs_set.
    now destruct (path_eq_dec (parent (log_file self)) (log_file self)).
Qed.

Lemma install_log_mirrors install_core :
  preserves (log_mirrors self) (install w self install_core).
Proof.
  pose proof log_log_mirrors as Hl. pose proof touch_log_mirrors as Htouch.
  unfold install, install_steps, check_system_requirements, requirement_errors,
    setup_directories, clone_or_download_repo, check_command, git_attempt, zip_fallback,
    download_file, extract_zip, install_dependencies, setup_environment, create_launchers.
  preserves_with mirrors_leaf.
Qed.

End LogMirrors.

(** X3. On a host where the installation root already exists and the
    log file can be appended to, a run of [install] adds to the log file
    exactly the records it prints, in order and one per line, whether
    it succeeds or fails. *)
Theorem install_log_mirrors_stdout w dir progress_cb log_cb install_core s :
  let self := installer_at dir progress_cb log_cb in
  log_sink_ok w self ->
  fs_exists (fs s) dir = true ->
  exists l,
    stdout (snd (install w self install_core s)) = (stdout s ++ l)%list /\
    file_content (fs (snd (install w self install_core s))) (log_file self)
    = file_content (fs s) (log_file self) ++ lines l.
Proof.
  intros self Hlog Hex.
  apply (install_log_mirrors w dir progress_cb log_cb Hlog install_core s).
  subst self. cbn [log_file installer_at]. now rewrite parent_child.
Qed.

(** A second run of the graphical installer on a host without node:
    what the log file gained is what was printed. *)
Lemma rerun_log_mirrors_stdout :
  exists l,
    stdout (snd (install host_without_node gui_installer false rerun_state))
    = (stdout rerun_state ++ l)%list /\
    file_content (fs (snd (install host_without_node gui_installer false rerun_state)))
      (log_file gui_installer)
    = file_content (fs rerun_state) (log_file gui_installer) ++ lines l.
Proof.
  exact (install_log_mirrors_stdout host_without_node (user_home // "anarqq-ecosystem")
           true true false rerun_state eq_refl eq_refl).
Defined.

(* ------------------------------------------------------------------ *)
(** ** Where the operations of a run act *)


Section OperationsInPlace.

Variable w : world.
Variables (dir : path) (progress_cb log_cb : bool).

Let self := installer_at dir progress_cb log_cb.


End OperationsInPlace.


(* ------------------------------------------------------------------ *)
(** ** No temporary files are left behind *)

#[local] Instance tmp_same_outside_preorder d : PreOrder (tmp_same_outside d).
Proof.
  split; [intros s q _; reflexivity |].
  intros a b c H1 H2 q Hq. rewrite (H2 q Hq). now apply H1.
Qed.

#[local] Instance tmp_restored_preorder w : PreOrder (tmp_restored w).
Proof.
  split; [intros s _ q; reflexivity |].
  intros a b c H1 H2 Hfresh q. specialize (H1 Hfresh).
  rewrite H2; [apply H1 |]. intros d q' Hd Hq'. rewrite H1. now apply Hfresh with d.
Qed.

Lemma tmp_restored_same w s s' : same tmp s s' -> tmp_restored w s s'.
Proof. intros E _ q. unfold same in E. now rewrite E. Qed.

Ltac tmp_outside_leaf :=
  idtac;
  let q := fresh "q" in
  let Hq := fresh "Hq" in
  intros q Hq;
  cbn [tmp set_tmp tmp_set tmp_cleanup set_fs add_op add_progress_call add_stdout add_log_call];
  repeat match goal with
         | |- context [match ?x with _ => _ end] =>
             lazymatch x with
             | path_eq_dec _ _ => fail
             | is_under _ _ => fail
             | _ => destruct x
             end
         end;
  cbn [tmp set_tmp tmp_set tmp_cleanup set_fs add_op add_progress_call add_stdout add_log_call];
  repeat match goal with
         | |- context [path_eq_dec q ?p] =>
             let Heq := fresh "Heq" in
             destruct (path_eq_dec q p) as [Heq | _];
             [exfalso; revert Heq; apply (outside_neq _ _ _ Hq); under_root |]
         end;
  reflexivity.

Section TemporaryFiles.

Variable w : world.
Variable self : installer.

Lemma log_tmp_outside d message level :
  preserves (tmp_same_outside d) (log w self message level).
Proof. intros s q _. now rewrite (log_same_tmp w self message level s). Qed.

(** What runs inside the temporary directory changes the temporary
    area inside it only. *)
Lemma fallback_body_tmp_outside zip_url destination name d :
  preserves (tmp_same_outside d)
    (download_file w self zip_url (d // (name ++ ".zip")) (name ++ " repository") ;;
     extract_zip w self (d // (name ++ ".zip")) (d // "extracted") (name ++ " repository") ;;
     extracted_dirs <- iterdir w (d // "extracted") ;;
     match extracted_dirs with
     | [] => ret tt
     | (entry, t) :: _ =>
         dest_exists <- path_exists destination ;;
         when dest_exists (rmtree w destination) ;;
         move w (d // "extracted" // entry) t destination ;;
         log w self ("✅ Downloaded and extracted " ++ name) "INFO"
     end).
Proof.
  pose proof (log_tmp_outside d) as Hl.
  unfold download_file, extract_zip.
  preserves_with tmp_outside_leaf.
Qed.

Lemma zip_fallback_tmp_restored zip_url destination name :
  preserves (tmp_restored w) (zip_fallback w self zip_url destination name).
Proof.
  intros s Hfresh q. unfold zip_fallback. log_split.
  - unfold with_temporary_directory. rewrite ?bind_assoc, bind_perform, bind_answer.
    destruct (mkdtemp w) as [d | e] eqn:Hd; [| cbn [snd tmp add_op]; now rewrite logged_tmp].
    cbn beta.
    lazymatch goal with
    | |- context [bind ?m ?k ?s1] =>
        pose proof (fallback_body_tmp_outside zip_url destination name d s1 q) as Hout;
        destruct (bind m k s1) as [r s2]
    end.
    cbn [snd tmp tmp_cleanup set_tmp add_op] in *.
    destruct (is_under d q) eqn:Hq.
    + symmetry. now apply (Hfresh d q eq_refl).
    + rewrite (Hout eq_refl). cbn [tmp add_op]. now rewrite logged_tmp.
  - reflexivity.
Qed.

Lemma acquirer_tmp_restored repo_url zip_url destination name :
  preserves (tmp_restored w) (clone_or_download_repo w self repo_url zip_url destination name).
Proof.
  pose proof zip_fallback_tmp_restored as Hz.
  assert (Hl : forall m l, preserves (tmp_restored w) (log w self m l))
    by (intros m l s; apply tmp_restored_same, log_same_tmp).
  unfold clone_or_download_repo, check_command, git_attempt.
  preserves_with ltac:(idtac; apply tmp_restored_same; same_leaf).
Qed.

Lemma install_tmp_restored install_core :
  preserves (tmp_restored w) (install w self install_core).
Proof.
  pose proof acquirer_tmp_restored as Ha.
  assert (Hl : forall m l, preserves (tmp_restored w) (log w self m l))
    by (intros m l s; apply tmp_restored_same, log_same_tmp).
  unfold install, install_steps, check_system_requirements, requirement_errors,
    check_command, setup_directories, install_dependencies, setup_environment,
    create_launchers.
  preserves_with ltac:(idtac; apply tmp_restored_same; same_leaf).
Qed.

End TemporaryFiles.

(** X5. The archive fallback cleans up after itself on every way out:
    where the temporary directory the host hands out is new, the
    temporary area after [clone_or_download_repo] -- and after a whole
    run of [install] -- is what it was before, whether the download,
    the extraction or the move succeeded or raised. *)
Theorem no_temporary_files_left w self :
  (forall repo_url zip_url destination name s,
      (forall d q, mkdtemp w = Ok d -> is_under d q = true -> tmp s q = None) ->
      forall q,
        tmp (snd (clone_or_download_repo w self repo_url zip_url destination name s)) q
        = tmp s q) /\
  (forall install_core s,
      (forall d q, mkdtemp w = Ok d -> is_under d q = true -> tmp s q = None) ->
      forall q, tmp (snd (install w self install_core s)) q = tmp s q).
Proof.
  split.
  - intros repo_url zip_url destination name s. apply acquirer_tmp_restored.
  - intros install_core s. apply install_tmp_restored.
Qed.

(** After an offline run without git, which fails in the download, the
    temporary area is empty again. *)
Lemma offline_run_leaves_no_temporary_files :
  tmp (snd (install host_offline gui_installer false fresh_state))
      ["tmp"; "tmpq1w2e3"; "Demo.zip"]
  = tmp fresh_state ["tmp"; "tmpq1w2e3"; "Demo.zip"].
Proof.
  exact (proj2 (no_temporary_files_left host_offline gui_installer) false fresh_state
           (fun d q _ _ => eq_refl) ["tmp"; "tmpq1w2e3"; "Demo.zip"]).
Defined.

(* ------------------------------------------------------------------ *)
(** ** What the archive fallback does to the destination *)

Lemma is_under_parent d : is_under (parent d) d = true.
Proof.
  unfold parent. induction d as [| x d IH]; [reflexivity |].
  destruct d as [| y d]; [reflexivity |].
  change (removelast (x :: y :: d)) with (x :: removelast (y :: d)).
  cbn [is_under]. now rewrite String.eqb_refl, IH.
Qed.

Lemma parent_not_under d : d <> [] -> is_under d (parent d) = false.
Proof.
  unfold parent. induction d as [| x d IH]; [contradiction |]. intros _.
  destruct d as [| y d]; [reflexivity |].
  change (removelast (x :: y :: d)) with (x :: removelast (y :: d)).
  cbn [is_under]. rewrite String.eqb_refl. apply IH. discriminate.
Qed.

(** X6. When the archive fallback gets its archive and the host lets
    the removal and the move through, the first top-level entry of the
    archive takes the place of the destination (a directory, or
    missing).  Where the parent of the destination exists, or the entry
    is not a file, the fallback returns normally and every path at or
    below the destination holds what the entry holds there: a file the
    entry does not have is gone, local changes included.  Where the
    parent exists nothing else changes but the log file; where it is
    missing, the missing directories above the destination have been
    made and nothing else has changed.  Where the parent is missing and
    the entry is a file, the move raises [FileNotFoundError]. *)
Theorem archive_fallback_replaces_destination
    w self zip_url destination name s d entry t rest :
  log_sink_ok w self ->
  mkdtemp w = Ok d ->
  url_fetch w zip_url = Ok (Ok ((entry, t) :: rest)) ->
  os_error w (RmTree destination) = None ->
  os_error w (Move (d // "extracted" // entry) destination) = None ->
  is_under destination (log_file self) = false ->
  is_under (log_file self) destination = false ->
  (forall c, fs s destination <> Some (File c)) ->
  let r := zip_fallback w self zip_url destination name s in
  (fs_exists (fs s) (parent destination) = true \/ (forall c, t [] <> Some (File c)) ->
   fst r = Ok tt /\
   (forall q, is_under destination q = true ->
              fs (snd r) q = t (skipn (length destination) q)) /\
   (forall q, is_under destination q = false -> q <> log_file self ->
              fs_exists (fs s) (parent destination) = true \/
              is_under q (parent destination) = false ->
              fs (snd r) q = fs s q) /\
   (forall q, fs_exists (fs s) (parent destination) = false ->
              is_under q (parent destination) = true ->
              fs (snd r) q = match fs s q with Some n => Some n | None => Some Dir end)) /\
  (forall c, fs_exists (fs s) (parent destination) = false ->
             t [] = Some (File c) ->
             fst r = Raise (no_such_file w destination)).
Proof.
  intros Hlog Hd Hf Hrm Hmv Hout Habove _ r. subst r.
  assert (Hne : destination <> []) by (intros ->; discriminate Hout).
  assert (Hpl : parent destination <> log_file self).
  { intros E. pose proof (is_under_parent destination) as H. rewrite E in H. congruence. }
  assert (Hpu : is_under destination (parent destination) = false)
    by now apply parent_not_under.
  destruct (zip_fallback_run w self Hlog zip_url destination name s d entry t rest Hd Hf)
    as (s5 & F5 & _ & _ & ->).
  rewrite (place_entry_run w self Hlog (d // "extracted" // entry) t destination name s5
             Hrm Hmv).
  set (s1 := if fs_exists (fs s5) destination
             then set_fs (fs_remove_tree (fs s5) destination)
                    (add_op (RmTree destination) s5)
             else s5).
  assert (F1 : forall q, is_under destination q = false -> q <> log_file self ->
                         fs s1 q = fs s q).
  { intros q Hq Hl. subst s1. destruct (fs_exists (fs s5) destination).
    - cbn [fs set_fs]. unfold fs_remove_tree. rewrite Hq. now apply F5.
    - now apply F5. }
  assert (Hex : fs_exists (fs s1) (parent destination)
                = fs_exists (fs s) (parent destination))
    by (unfold fs_exists; now rewrite F1).
  rewrite Hex. clearbody s1. split.
  - intros Hcase.
    assert (E : exists f,
               (if fs_exists (fs s) (parent destination)
                then (Ok tt, logged w self ("✅ Downloaded and extracted " ++ name) "INFO"
                               (set_fs (fs_graft (fs (add_op (Move (d // "extracted" // entry)
                                                              destination) s1))
                                          destination t)
                                  (add_op (Move (d // "extracted" // entry) destination) s1)))
                else match t [] with
                     | Some (File _) =>
                         (Raise (no_such_file w destination),
                          add_op (Move (d // "extracted" // entry) destination) s1)
                     | _ =>
                         (Ok tt, logged w self ("✅ Downloaded and extracted " ++ name) "INFO"
                                   (set_fs (fs_graft
                                              (fs_makedirs
                                                 (fs (add_op (Move (d // "extracted" // entry)
                                                                destination) s1))
                                                 (parent destination))
                                              destination t)
                                      (add_op (Move (d // "extracted" // entry) destination)
                                         s1)))
                     end)
               = (Ok tt, logged w self ("✅ Downloaded and extracted " ++ name) "INFO"
                           (set_fs (fs_graft f destination t)
                              (add_op (Move (d // "extracted" // entry) destination) s1))) /\
               f = if fs_exists (fs s) (parent destination) then fs s1
                   else fs_makedirs (fs s1) (parent destination)).
    { destruct (fs_exists (fs s) (parent destination)); [eauto |].
      destruct Hcase as [Hcase | Hcase]; [discriminate Hcase |].
      destruct (t []) as [[c |] |] eqn:Ht; [now specialize (Hcase c) | eauto | eauto]. }
    destruct E as (f & -> & Ef). cbn [fst snd fs tmp_cleanup set_tmp add_op].
    split; [reflexivity |]. split; [| split].
    + intros q Hq. rewrite logged_fs_other by (intros ->; congruence).
      cbn [fs set_fs]. unfold fs_graft. now rewrite Hq.
    + intros q Hq Hl Hq'. rewrite logged_fs_other by exact Hl.
      cbn [fs set_fs]. unfold fs_graft. rewrite Hq, Ef.
      destruct (fs_exists (fs s) (parent destination)); [now apply F1 |].
      destruct Hq' as [Hq' | Hq']; [discriminate Hq' |].
      unfold fs_makedirs. rewrite Hq'. now apply F1.
    + intros q Hmiss Hq.
      assert (Hq1 : is_under destination q = false).
      { destruct (is_under destination q) eqn:Hdq; [| reflexivity].
        now rewrite (is_under_trans _ _ _ Hdq Hq) in Hpu. }
      assert (Hql : q <> log_file self).
      { intros ->. now rewrite (is_under_trans _ _ _ Hq (is_under_parent destination))
          in Habove. }
      rewrite logged_fs_other by exact Hql.
      cbn [fs set_fs]. unfold fs_graft. rewrite Hq1, Ef, Hmiss.
      unfold fs_makedirs. rewrite Hq. now rewrite F1.
  - intros c Hmiss Ht. now rewrite Hmiss, Ht.
Qed.

(** Without git, the fallback over an installed demo removes the
    environment file the user edited. *)
Lemma archive_fallback_drops_user_environment :
  fs (snd (zip_fallback host_ready gui_installer (demo_zip CONFIG) (demo_dir gui_installer)
             "Demo" installed_state))
     (demo_dir gui_installer // ".env")
  = None.
Proof.
  refine (proj1 (proj2 (proj1 (archive_fallback_replaces_destination
                                 host_ready gui_installer (demo_zip CONFIG)
                                 (demo_dir gui_installer)
                                 "Demo" installed_state ["tmp"; "tmpq1w2e3"]
                                 "anarqq-ecosystem-demo-main" demo_tree []
                                 eq_refl eq_refl eq_refl eq_refl eq_refl eq_refl eq_refl _)
                          (or_introl eq_refl)))
            (demo_dir gui_installer // ".env") eq_refl).
  discriminate.
Defined.

(** X7. An archive without entries is not skipped: extraction creates
    nothing, so listing the extracted directory raises
    [FileNotFoundError] and the fallback raises it, with the
    destination and every path but the log file untouched and nothing
    removed or moved. *)
Theorem empty_archive_raises w self zip_url destination name s d :
  log_sink_ok w self ->
  mkdtemp w = Ok d ->
  url_fetch w zip_url = Ok (Ok []) ->
  tmp s (d // "extracted") = None ->
  let r := zip_fallback w self zip_url destination name s in
  fst r = Raise (no_such_file w (d // "extracted")) /\
  (forall q, q <> log_file self -> fs (snd r) q = fs s q) /\
  (exists l, ops (snd r) = (ops s ++ l)%list /\
             Forall (fun o => match o with RmTree _ | Move _ _ => False | _ => True end) l).
Proof.
  intros Hlog Hd Hf Hfresh r. subst r.
  assert (Nzip : d // "extracted" <> d // (name ++ ".zip")).
  { unfold child. intros H. apply app_inv_head in H. injection H as H.
    repeat (destruct name as [| ? name]; cbn in H;
            [discriminate H | first [discriminate H | injection H as _ H]]). }
  assert (E : exists s',
             zip_fallback w self zip_url destination name s
             = (Raise (no_such_file w (d // "extracted")), s') /\
             (forall q, q <> log_file self -> fs s' q = fs s q) /\
             (exists l, ops s' = (ops s ++ l)%list /\
                        Forall (fun o => match o with
                                         | RmTree _ | Move _ _ => False
                                         | _ => True
                                         end) l)).
  { unfold zip_fallback, with_temporary_directory. run.
    rewrite bind_answer, Hd. unfold download_file. run.
    rewrite bind_for_each_hook. cbn beta. rewrite bind_assoc, bind_answer, Hf.
    run. unfold extract_zip. run.
    repeat first [ rewrite logged_tmp | progress cbn [tmp add_op tmp_set set_tmp] ].
    destruct (path_eq_dec (d // (name ++ ".zip")) (d // (name ++ ".zip")));
      [| contradiction].
    rewrite bind_answer. run. unfold iterdir. run.
    repeat first [ rewrite logged_tmp | rewrite hooked_tmp
                 | progress cbn [tmp add_op tmp_set set_tmp] ].
    destruct (path_eq_dec (d // "extracted") (d // (name ++ ".zip"))); [contradiction |].
    rewrite Hfresh. rewrite bind_raise_now.
    eexists. split; [reflexivity |]. split.
    - intros q Hq.
      repeat first [ rewrite logged_fs_other by exact Hq | rewrite hooked_fs
                   | progress cbn [fs add_op tmp_set set_tmp tmp_cleanup] ].
      reflexivity.
    - repeat first [ rewrite logged_ops | rewrite hooked_ops
                   | progress cbn [ops add_op tmp_set set_tmp tmp_cleanup] ].
      rewrite <- !app_assoc. eexists. split; [reflexivity |].
      repeat constructor. }
  destruct E as (s' & -> & Hfs & Hops). cbn [fst snd]. auto.
Qed.

(* ------------------------------------------------------------------ *)
(** ** The percentages of a download *)

(** X8. The report hook of [download_file] stays silent while the total
    size is unknown (not positive).  With a known total it reports one
    percentage per block, between 0 and 100, that does not decrease
    from a block to a later one and is 100 once the blocks received
    cover the total. *)
Theorem download_percentage_shape self description s :
  (forall bn bs total,
      total <= 0 -> progress_hook self description (bn, bs, total) s = (Ok tt, s)) /\
  (forall bn bn' bs total,
      progress_callback self = true ->
      0 < total ->
      (bn <= bn')%N ->
      exists p p',
        progress_calls (snd (progress_hook self description (bn, bs, total) s))
        = (progress_calls s
           ++ [(p, ("Downloading " ++ description ++ "... " ++ str_of_Z p ++ "%")%string)])%list /\
        progress_calls (snd (progress_hook self description (bn', bs, total) s))
        = (progress_calls s
           ++ [(p', ("Downloading " ++ description ++ "... " ++ str_of_Z p' ++ "%")%string)])%list /\
        0 <= p /\ p <= p' /\ p' <= 100 /\
        (total <= Z.of_N bn' * Z.of_N bs -> p' = 100)).
Proof.
  split.
  - intros bn bs total Ht. unfold progress_hook.
    destruct (0 <? total) eqn:E; [| reflexivity]. apply Z.ltb_lt in E. lia.
  - intros bn bn' bs total Hcb Ht Hle. unfold progress_hook.
    apply Z.ltb_lt in Ht as Hlt. rewrite Hlt, !update_progress_run. cbn [snd].
    rewrite !progressed_progress, Hcb.
    do 2 eexists. split; [reflexivity |]. split; [reflexivity |].
    assert (Hb : 0 <= Z.of_N bn * Z.of_N bs * 100) by
      (apply Z.mul_nonneg_nonneg; [apply Z.mul_nonneg_nonneg; apply N2Z.is_nonneg | lia]).
    assert (Hm : Z.of_N bn * Z.of_N bs * 100 <= Z.of_N bn' * Z.of_N bs * 100).
    { apply Z.mul_le_mono_nonneg_r; [lia |].
      apply Z.mul_le_mono_nonneg_r; [apply N2Z.is_nonneg | lia]. }
    split; [| split; [| split]].
    + apply Z.min_glb; [lia |]. now apply Z.div_pos.
    + apply Z.min_le_compat_l. now apply Z.div_le_mono.
    + apply Z.le_min_l.
    + intros Hcover. apply Z.min_l. apply Z.div_le_lower_bound; lia.
Qed.

(** The last of three blocks of 8192 bytes for a file of 16384 bytes is
    reported as 100. *)
Lemma download_last_block_is_hundred :
  exists p,
    progress_calls (snd (progress_hook gui_installer "Demo repository"
                           (2%N, 8192%N, 16384) fresh_state))
    = [(p, "Downloading Demo repository... " ++ str_of_Z p ++ "%")] /\
    p = 100.
Proof.
  destruct (proj2 (download_percentage_shape gui_installer "Demo repository" fresh_state)
              1%N 2%N 8192%N 16384 eq_refl eq_refl)
    as (p & p' & _ & E & _ & _ & _ & H100).
  - discriminate.
  - exists p'. split; [exact E | apply H100; discriminate].
Defined.

(** The demo archive of the host has no entries: the fallback raises. *)
Lemma empty_demo_archive_raises :
  fst (zip_fallback host_empty_archive gui_installer (demo_zip CONFIG)
         (demo_dir gui_installer) "Demo" fresh_state)
  = Raise (no_such_file host_empty_archive ["tmp"; "tmpq1w2e3"; "extracted"]).
Proof.
  exact (proj1 (empty_archive_raises host_empty_archive gui_installer (demo_zip CONFIG)
                  (demo_dir gui_installer) "Demo" fresh_state ["tmp"; "tmpq1w2e3"]
                  eq_refl eq_refl eq_refl eq_refl)).
Defined.

(* ------------------------------------------------------------------ *)
(** ** The records of the requirements check *)

(** One step of a run with the state after it abstracted: what it
    printed and that the next record can be written. *)
Lemma log_step_out {B} w self message level (k : unit -> M B) s :
  log_works w self s ->
  exists s1,
    bind (log w self message level) k s = k tt s1 /\
    stdout s1 = (stdout s ++ [log_entry message level])%list /\
    log_works w self s1.
Proof.
  intros Hw. exists (logged w self message level s).
  split; [now apply bind_log |]. split; [apply logged_stdout | now apply log_works_logged].
Qed.

Lemma check_command_step_out {B} w self command (k : bool * string -> M B) s :
  log_works w self s ->
  exists s1,
    bind (check_command w command) k s
    = match probe w command with
      | Ok r => k r s1
      | Raise e => (Raise e, s1)
      end /\
    stdout s1 = stdout s /\
    log_works w self s1.
Proof.
  intros Hw. exists (add_op (RunVersion command) s).
  split; [apply bind_check_command |]. split; [reflexivity | exact Hw].
Qed.

Lemma perform_step_out {B} w self o (k : unit -> M B) s :
  log_works w self s ->
  exists s1, bind (perform o) k s = k tt s1 /\ stdout s1 = stdout s /\ log_works w self s1.
Proof. intros Hw. exists (add_op o s). split; [reflexivity |]. split; [reflexivity | exact Hw]. Qed.

Ltac step_out :=
  rewrite ?bind_assoc;
  lazymatch goal with
  | Hw : log_works ?w ?self ?s |- context [bind (log ?w ?self ?m ?l) ?k ?s] =>
      let s1 := fresh "s" in
      let E := fresh "E" in
      let Hw1 := fresh "Hw" in
      destruct (log_step_out w self m l k s Hw) as (s1 & -> & E & Hw1);
      rewrite ?bind_ret; cbn beta; clear Hw
  | Hw : log_works ?w ?self ?s |- context [bind (check_command ?w ?c) ?k ?s] =>
      let s1 := fresh "s" in
      let E := fresh "E" in
      let Hw1 := fresh "Hw" in
      destruct (check_command_step_out w self c k s Hw) as (s1 & -> & E & Hw1);
      cbn beta; clear Hw
  | Hw : log_works ?w ?self ?s |- context [bind (perform ?o) ?k ?s] =>
      let s1 := fresh "s" in
      let E := fresh "E" in
      let Hw1 := fresh "Hw" in
      destruct (perform_step_out w self o k s Hw) as (s1 & -> & E & Hw1);
      cbn beta; clear Hw
  end.

Ltac probe_out w c := step_out; destruct (probe w c) as [[[|] ?] | ?].

(** X9. Where its records can be written and every version query
    comes back, the requirements check prints seven records -- a
    heading, the Python version, one per tool and one for the disk --
    and as many of them are ERROR records as the error tally counts:
    the check passes exactly when it printed no ERROR record. *)
Theorem requirements_errors_are_printed w self s :
  log_works w self s ->
  probes_answer w = true ->
  exists records,
    stdout (snd (check_system_requirements w self s)) = (stdout s ++ records)%list /\
    length records = 7%nat /\
    Z.of_nat (length (filter is_error_record records)) = error_tally w /\
    (fst (check_system_requirements w self s) = Ok true <->
     filter is_error_record records = []).
Proof.
  intros Hw Hp.
  pose proof (check_system_requirements_fst w self s Hw) as Hv.
  unfold requirements_value in Hv.
  rewrite (probes_answer_value w Hp) in Hv. rewrite Hv. clear Hv.
  unfold probes_answer, answers in Hp. cbn [forallb] in Hp.
  unfold check_system_requirements, requirement_errors, error_tally, available,
    insufficient_disk.
  do 2 step_out.
  probe_out w "node"; [| | discriminate Hp];
  (step_out; probe_out w "npm"; [| | cbn in Hp; discriminate Hp]);
  (step_out; probe_out w "git"; [| | cbn in Hp; discriminate Hp]);
  (step_out; probe_out w "docker"; [| | cbn in Hp; discriminate Hp]); clear Hp;
  step_out.
  all: rewrite ?bind_assoc; unfold try_except; unfold bind at 1; cbn beta; step_out;
    rewrite bind_answer;
    (destruct (disk_usage w (home w)) as [free | e];
     [ destruct (_ <=? free) | unfold catch_all ]);
    step_out; unfold ret; cbn [snd fst];
    repeat match goal with
           | E : stdout ?x = _ |- context [stdout ?x] => rewrite E; clear E
           end;
    rewrite <- !app_assoc; eexists; (split; [reflexivity |]); (split; [reflexivity |]);
    unfold is_error_record, log_entry; cbn;
    (split; [reflexivity | split; intros H; first [reflexivity | discriminate H]]).
Qed.

(** With node missing, the one ERROR record of the check is the only
    one printed. *)
Lemma requirements_errors_without_node :
  exists records,
    stdout (snd (check_system_requirements host_without_node gui_installer fresh_state))
    = (stdout fresh_state ++ records)%list /\
    length records = 7%nat /\
    Z.of_nat (length (filter is_error_record records)) = error_tally host_without_node /\
    (fst (check_system_requirements host_without_node gui_installer fresh_state) = Ok true <->
     filter is_error_record records = []).
Proof.
  exact (requirements_errors_are_printed host_without_node gui_installer fresh_state
           (fun _ => eq_refl) eq_refl).
Defined.

(* ------------------------------------------------------------------ *)
(** ** An optional tool that cannot be run *)

Lemma probe_raises w command e :
  run_version w command = Raise e ->
  exn_kind e = CalledProcessError \/ exn_kind e = OtherException ->
  probe w command = Raise e.
Proof.
  intros Hr Hk. unfold probe. rewrite Hr. unfold catch_class.
  now destruct Hk as [-> | ->].
Qed.

(** X10. [check_command] turns only a timeout and a missing executable
    into "not available".  When the version query of docker, an
    optional tool, raises anything else (a permission error, say), the
    requirements check raises it, and the run of [install] fails: it
    returns [False] after an ERROR record with the text of the
    exception, having issued nothing but the queries of the check.  *)
Theorem unusable_optional_tool_fails_run w self install_core s e :
  log_sink_ok w self ->
  answers w "node" = true ->
  answers w "npm" = true ->
  answers w "git" = true ->
  run_version w "docker" = Raise e ->
  exn_kind e = CalledProcessError \/ exn_kind e = OtherException ->
  check_command w "docker" s = (Raise e, add_op (RunVersion "docker") s) /\
  fst (check_system_requirements w self s) = Raise e /\
  fst (install w self install_core s) = Ok false /\
  last (stdout (snd (install w self install_core s))) EmptyString
  = log_entry ("❌ Installation failed: " ++ exn_str e) "ERROR" /\
  (exists l, ops (snd (install w self install_core s)) = (ops s ++ l)%list /\
             Forall is_probe l).
Proof.
  intros Hlog Hn Hm Hg Hr Hk.
  pose proof (probe_raises w "docker" e Hr Hk) as Hd.
  assert (Hv : requirements_value w = Raise e).
  { unfold requirements_value, requirement_errors_value. unfold answers in Hn, Hm, Hg.
    rewrite Hd.
    destruct (probe w "node"); [| discriminate Hn].
    destruct (probe w "npm"); [| discriminate Hm].
    destruct (probe w "git"); [| discriminate Hg]. reflexivity. }
  split; [now rewrite check_command_run, Hd |].
  split; [now rewrite check_system_requirements_fst by log_side |].
  set (s0 := progressed self 0 "Starting installation..." s).
  pose proof (check_system_requirements_fst w self s0 (log_sink_ok_works w self s0 Hlog))
    as Hf.
  rewrite Hv in Hf. apply run_raise_eq in Hf.
  pose proof (check_system_requirements_probes_only w self s0) as Ho.
  destruct (install_returns_false_when_step_raises w self install_core s
              CheckRequirements s0 e (snd (check_system_requirements w self s0)) Hlog)
    as (E & Hout & Hops & _).
  - constructor.
  - exact Hf.
  - rewrite E. cbn [fst]. split; [reflexivity |]. split.
    + cbn [snd]. rewrite logged_stdout. apply last_last.
    + cbn [snd]. rewrite logged_ops. destruct Ho as [l [El Fl]]. exists l.
      split; [| exact Fl]. rewrite El. subst s0. now rewrite progressed_ops.
Qed.

(** With a docker executable that may not be run, the run fails although
    node, npm and git are in place. *)
Lemma docker_denied_run_fails :
  fst (install host_docker_denied gui_installer false fresh_state) = Ok false.
Proof.
  exact (proj1 (proj2 (proj2 (unusable_optional_tool_fails_run
                                host_docker_denied gui_installer false fresh_state
                                permission_denied eq_refl eq_refl eq_refl eq_refl eq_refl
                                (or_intror eq_refl))))).
Defined.

(* ------------------------------------------------------------------ *)
(** ** When the archive is not downloaded *)

Lemma catch_class_other e :
  exn_kind e <> CalledProcessError -> catch_class CalledProcessError e = false.
Proof. unfold catch_class. destruct (exn_kind e); intros H; try reflexivity. now elim H. Qed.

(** X11. With git available, the acquirer issues the version query and
    one git command, and the archive fallback starts only after a
    non-zero exit of that command.  When the command succeeds the
    acquirer returns with the delivered working tree at the
    destination; when it raises anything but [CalledProcessError] the
    acquirer raises the same exception.  In both cases nothing is
    downloaded. *)
Theorem git_outcome_decides_download w self repo_url zip_url destination name s :
  log_sink_ok w self ->
  destination <> log_file self ->
  destination // ".git" <> log_file self ->
  available w "git" = true ->
  let r := clone_or_download_repo w self repo_url zip_url destination name s in
  (forall t,
      vcs_answer w s repo_url destination = Ok t ->
      fst r = Ok tt /\
      ops (snd r) = (ops s ++ [RunVersion "git"; vcs_op s repo_url destination])%list /\
      (forall q, is_under destination q = true -> q <> log_file self ->
                 fs (snd r) q = t (skipn (length destination) q))) /\
  (forall e,
      vcs_answer w s repo_url destination = Raise e ->
      exn_kind e <> CalledProcessError ->
      fst r = Raise e /\
      ops (snd r) = (ops s ++ [RunVersion "git"; vcs_op s repo_url destination])%list).
Proof.
  intros Hlog Hd Hg Hav r. subst r.
  rewrite clone_or_download_repo_run. unfold available in Hav.
  destruct (probe w "git") as [[[|] v] | e0]; try discriminate Hav.
  rewrite (git_attempt_run w self Hlog repo_url destination name _ Hd Hg).
  change (vcs_answer w (add_op (RunVersion "git") s) repo_url destination)
    with (vcs_answer w s repo_url destination).
  change (vcs_done_message (add_op (RunVersion "git") s) destination name)
    with (vcs_done_message s destination name).
  assert (Eops : ops (vcs_issued w self (add_op (RunVersion "git") s) repo_url destination name)
                 = (ops s ++ [RunVersion "git"; vcs_op s repo_url destination])%list).
  { unfold vcs_issued. cbn [ops add_op]. rewrite logged_ops. cbn [ops add_op].
    now rewrite <- app_assoc. }
  split.
  - intros t Ht. rewrite Ht. cbn [fst snd]. split; [reflexivity |]. split.
    + now rewrite logged_ops.
    + intros q Hq Hne. rewrite logged_fs_other by exact Hne. cbn [fs set_fs].
      unfold fs_graft. now rewrite Hq.
  - intros e He Hk. rewrite He, (catch_class_other e Hk). cbn [fst snd]. auto.
Qed.

(** Where git is found but cannot be run on a command, the acquirer
    raises and does not fall back to the archive. *)
Lemma broken_git_is_no_fallback :
  fst (clone_or_download_repo host_git_breaks gui_installer (demo_repo CONFIG)
         (demo_zip CONFIG) (demo_dir gui_installer) "Demo" fresh_state)
  = Raise permission_denied.
Proof.
  refine (proj1 (proj2 (git_outcome_decides_download
                          host_git_breaks gui_installer (demo_repo CONFIG) (demo_zip CONFIG)
                          (demo_dir gui_installer) "Demo" fresh_state
                          eq_refl _ _ eq_refl)
                   permission_denied eq_refl _)); discriminate.
Defined.

(* ------------------------------------------------------------------ *)
(** ** Directory setup *)

Lemma mkdir_step_out {B} w p (k : unit -> M B) s :
  (exists e, bind (mkdir w p) k s = (Raise e, add_op (Mkdir p) s)) \/
  (exists s1,
      bind (mkdir w p) k s = k tt s1 /\
      fs s1 p = match fs s p with Some n => Some n | None => Some Dir end /\
      (forall q, q <> p -> fs s1 q = fs s q)).
Proof.
  unfold mkdir. rewrite bind_assoc, bind_os_call.
  destruct (os_error w (Mkdir p)) as [e |]; [left; eauto | right].
  rewrite bind_modify. eexists. split; [reflexivity |].
  cbn [fs add_op]. unfold fs_exists.
  destruct (fs s p) as [n |] eqn:E; cbn [fs add_op set_fs].
  - split; [exact E | reflexivity].
  - unfold fs_set. split.
    + now destruct (path_eq_dec p p).
    + intros q Hq. now destruct (path_eq_dec q p).
Qed.

Lemma touch_step_out {B} w p (k : unit -> M B) s :
  (exists e, bind (touch w p) k s = (Raise e, add_op (Touch p) s)) \/
  (exists s1,
      bind (touch w p) k s = k tt s1 /\
      fs s1 p = match fs s p with Some n => Some n | None => Some (File EmptyString) end /\
      (forall q, q <> p -> fs s1 q = fs s q)).
Proof.
  unfold touch. rewrite bind_assoc, bind_os_call.
  destruct (os_error w (Touch p)) as [e |]; [left; eauto | right].
  rewrite bind_modify. eexists. split; [reflexivity |].
  cbn [fs add_op]. unfold fs_exists.
  destruct (fs s p) as [n |] eqn:E; cbn [fs add_op set_fs].
  - split; [exact E | reflexivity].
  - unfold fs_set. split.
    + now destruct (path_eq_dec p p).
    + intros q Hq. now destruct (path_eq_dec q p).
Qed.

(** Directory setup, when it returns. *)
Lemma setup_directories_result w dir progress_cb log_cb s :
  let self := installer_at dir progress_cb log_cb in
  let s' := snd (setup_directories w self s) in
  fst (setup_directories w self s) = Ok tt ->
  (forall p, In p [install_dir self; demo_dir self; core_dir self] ->
             fs s' p = match fs s p with Some n => Some n | None => Some Dir end) /\
  fs_exists (fs s') (log_file self) = true /\
  (forall p, ~ In p [install_dir self; demo_dir self; core_dir self; log_file self] ->
             fs s' p = fs s p).
Proof.
  intros self s'. subst s'.
  assert (Nrd : install_dir self <> demo_dir self) by (symmetry; apply child_neq_self).
  assert (Nrc : install_dir self <> core_dir self) by (symmetry; apply child_neq_self).
  assert (Nrl : install_dir self <> log_file self) by (symmetry; apply child_neq_self).
  assert (Ndc : demo_dir self <> core_dir self) by (subst self; path_neq).
  assert (Ndl : demo_dir self <> log_file self) by (subst self; path_neq).
  assert (Ncl : core_dir self <> log_file self) by (subst self; path_neq).
  unfold setup_directories.
  log_split; [| discriminate].
  set (s0 := logged w self "Setting up directories..." "INFO" s).
  assert (F0 : forall q, q <> log_file self -> fs s0 q = fs s q)
    by (intros q Hq; now apply logged_fs_other).
  clearbody s0.
  destruct (mkdir_step_out w (install_dir self)
              (fun _ => mkdir w (demo_dir self) ;; mkdir w (core_dir self) ;;
                        touch w (log_file self) ;;
                        log w self ("✅ Directories created at: "
                                    ++ str_of_path w (install_dir self)) "INFO") s0)
    as [[e ->] | (s1 & -> & P1 & F1)]; [discriminate |].
  destruct (mkdir_step_out w (demo_dir self)
              (fun _ => mkdir w (core_dir self) ;; touch w (log_file self) ;;
                        log w self ("✅ Directories created at: "
                                    ++ str_of_path w (install_dir self)) "INFO") s1)
    as [[e ->] | (s2 & -> & P2 & F2)]; [discriminate |].
  destruct (mkdir_step_out w (core_dir self)
              (fun _ => touch w (log_file self) ;;
                        log w self ("✅ Directories created at: "
                                    ++ str_of_path w (install_dir self)) "INFO") s2)
    as [[e ->] | (s3 & -> & P3 & F3)]; [discriminate |].
  destruct (touch_step_out w (log_file self)
              (fun _ => log w self ("✅ Directories created at: "
                                    ++ str_of_path w (install_dir self)) "INFO") s3)
    as [[e ->] | (s4 & -> & P4 & F4)]; [discriminate |].
  intros _.
  lazymatch goal with
  | |- context [snd (log w self ?m ?l s4)] =>
      change (snd (log w self m l s4)) with (logged w self m l s4)
  end.
  split; [| split].
  - intros p [<- | [<- | [<- | []]]]; rewrite logged_fs_other by assumption.
    + rewrite F4, F3, F2, P1, F0 by assumption. reflexivity.
    + rewrite F4, F3, P2, F1, F0 by (assumption || (intros H; symmetry in H; contradiction)).
      reflexivity.
    + rewrite F4, P3, F2, F1, F0 by (assumption || (intros H; symmetry in H; contradiction)).
      reflexivity.
  - unfold fs_exists. rewrite logged_fs.
    assert (E4 : exists n, fs s4 (log_file self) = Some n)
      by (rewrite P4; destruct (fs s3 (log_file self)); eauto).
    destruct E4 as [n E4].
    destruct (fs_exists (fs s4) (parent (log_file self)));
      [destruct (append_error w (log_file self)) |]; rewrite ?E4; try reflexivity.
    unfold fs_set. now destruct (path_eq_dec (log_file self) (log_file self)).
  - intros p Hp. cbn [In] in Hp.
    rewrite logged_fs_other, F4, F3, F2, F1, F0 by (intros ->; tauto). reflexivity.
Qed.

(** X12. When [setup_directories] returns, the installation root, the
    demo directory and the core directory are in place -- each one as it
    was if it existed, a new directory otherwise -- the log file exists,
    and no other path has changed. *)
Theorem setup_directories_postcondition w dir progress_cb log_cb s :
  let self := installer_at dir progress_cb log_cb in
  let s' := snd (setup_directories w self s) in
  fst (setup_directories w self s) = Ok tt ->
  (forall p, In p [install_dir self; demo_dir self; core_dir self] ->
             fs s' p = match fs s p with Some n => Some n | None => Some Dir end) /\
  fs_exists (fs s') (log_file self) = true /\
  (forall p, ~ In p [install_dir self; demo_dir self; core_dir self; log_file self] ->
             fs s' p = fs s p).
Proof. apply setup_directories_result. Qed.

(** On a host without an installation, directory setup creates the log
    file. *)
Lemma setup_directories_creates_log_file :
  fs_exists (fs (snd (setup_directories host_ready gui_installer fresh_state)))
    (log_file gui_installer) = true.
Proof.
  exact (proj1 (proj2 (setup_directories_postcondition
                         host_ready (user_home // "anarqq-ecosystem") true true fresh_state
                         eq_refl))).
Defined.

(* ------------------------------------------------------------------ *)
(** ** What a successful run has produced *)

#[local] Instance exists_kept_preorder p : PreOrder (exists_kept p).
Proof.
  split; [intros s H; exact H |].
  intros a b c H1 H2 H. apply H2, H1, H.
Qed.

Lemma write_text_step_out {B} w p text (k : unit -> M B) s :
  (exists e, bind (write_text w p text) k s = (Raise e, add_op (WriteText p) s)) \/
  (exists s1,
      bind (write_text w p text) k s = k tt s1 /\
      fs s1 p = Some (File text) /\
      (forall q, q <> p -> fs s1 q = fs s q)).
Proof.
  unfold write_text. rewrite bind_assoc, bind_os_call.
  destruct (os_error w (WriteText p)) as [e |]; [left; eauto | right].
  rewrite bind_modify. eexists. split; [reflexivity |].
  cbn [fs add_op set_fs]. unfold fs_set. split.
  - now destruct (path_eq_dec p p).
  - intros q Hq. now destruct (path_eq_dec q p).
Qed.

Lemma chmod_step_out {B} w p (k : unit -> M B) s :
  (exists e, bind (chmod w p) k s = (Raise e, add_op (Chmod p) s)) \/
  (exists s1, bind (chmod w p) k s = k tt s1 /\ fs s1 = fs s).
Proof.
  unfold chmod. rewrite bind_os_call.
  destruct (os_error w (Chmod p)) as [e |]; [left; eauto | right; eauto].
Qed.

Ltac exists_leaf :=
  idtac;
  let Hex := fresh "Hex" in
  repeat match goal with x := installer_at _ _ _ |- _ => subst x end;
  cbn [fs set_fs add_op set_tmp tmp_set tmp_cleanup add_progress_call add_stdout add_log_call
       demo_dir core_dir log_file install_dir installer_at];
  repeat match goal with
         | |- context [match ?x with _ => _ end] =>
             lazymatch x with
             | path_eq_dec _ _ => fail
             | is_under _ _ => fail
             | _ => destruct x
             end
         end;
  unfold exists_kept, fs_exists;
  cbn [fs set_fs add_op set_tmp tmp_set tmp_cleanup add_progress_call add_stdout
       add_log_call]; unfold fs_set, fs_graft, fs_remove_tree, fs_makedirs;
  cbn [demo_dir core_dir log_file install_dir installer_at];
  rewrite ?is_under_child;
  rewrite ?(is_under_sibling _ "demo" "install.log") by discriminate;
  rewrite ?(is_under_sibling _ "core" "install.log") by discriminate;
  rewrite ?parent_child, ?is_under_child, ?is_under_refl;
  repeat match goal with
         | |- context [path_eq_dec ?a ?b] => destruct (path_eq_dec a b)
         end;
  solve [ exact (fun H => H) | intros _; reflexivity
        | match goal with |- context [fs ?s ?p] => destruct (fs s p) end;
          solve [ exact (fun H => H) | intros _; reflexivity ] ].

Section SuccessfulRun.

Variable w : world.
Variables (dir : path) (progress_cb log_cb : bool).

Let self := installer_at dir progress_cb log_cb.

Lemma log_exists_kept p message level :
  preserves (exists_kept p) (log w self message level).
Proof.
  intros s Hex. fold (logged w self message level s). unfold fs_exists in *.
  rewrite logged_fs.
  destruct (fs_exists (fs s) (parent (log_file self)));
    [destruct (append_error w (log_file self)) |]; try exact Hex.
  unfold fs_set. now destruct (path_eq_dec p (log_file self)).
Qed.

Lemma from_demo_keeps_root install_core :
  preserves (exists_kept (install_dir self)) (from_demo w self install_core).
Proof.
  pose proof (log_exists_kept (install_dir self)) as Hl.
  unfold from_demo, from_core, from_dependencies, from_environment, from_launchers,
    clone_or_download_repo, check_command, git_attempt, zip_fallback,
    download_file, extract_zip, install_dependencies, setup_environment, create_launchers.
  preserves_with exists_leaf.
Qed.

Lemma from_demo_keeps_log_file install_core :
  preserves (exists_kept (log_file self)) (from_demo w self install_core).
Proof.
  pose proof (log_exists_kept (log_file self)) as Hl.
  unfold from_demo, from_core, from_dependencies, from_environment, from_launchers,
    clone_or_download_repo, check_command, git_attempt, zip_fallback,
    download_file, extract_zip, install_dependencies, setup_environment, create_launchers.
  preserves_with exists_leaf.
Qed.

Lemma bind_ret_r {A} (m : M A) s : bind m ret s = m s.
Proof. unfold bind, ret. now destruct (m s) as [[a | e] s1]. Qed.

Lemma log_returns_logged message level s s1 :
  log w self message level s = (Ok tt, s1) -> s1 = logged w self message level s.
Proof. intros H. unfold logged. now rewrite H. Qed.

(** When [create_launchers] returns, both scripts are files. *)
Lemma create_launchers_postcondition s s1 :
  create_launchers w self s = (Ok tt, s1) ->
  (exists c, fs s1 (start_script w self) = Some (File c)) /\
  (exists c, fs s1 (stop_script w self) = Some (File c)).
Proof.
  unfold create_launchers, start_script, stop_script. intros H.
  apply bind_inv_ok in H as ([] & s0 & _ & H).
  apply bind_inv_ok in H as ([] & s2 & H2 & H3).
  apply log_returns_logged in H3. subst s1.
  destruct (String.eqb (os_name w) "nt").
  - assert (N1 : install_dir self // "start-demo.bat" <> log_file self)
      by (subst self; path_neq).
    assert (N2 : install_dir self // "stop-services.bat" <> log_file self)
      by (subst self; path_neq).
    assert (N3 : install_dir self // "start-demo.bat" <> install_dir self // "stop-services.bat")
      by (subst self; path_neq).
    rewrite !logged_fs_other by assumption.
    lazymatch type of H2 with
    | bind (write_text w ?p ?t) ?k ?s = _ =>
        destruct (write_text_step_out w p t k s) as [[e E] | (sa & E & Pa & Fa)];
        rewrite E in H2; [discriminate H2 |]
    end.
    rewrite <- bind_ret_r in H2.
    lazymatch type of H2 with
    | bind (write_text w ?p ?t) ?k ?s = _ =>
        destruct (write_text_step_out w p t k s) as [[e E'] | (sb & E' & Pb & Fb)];
        rewrite E' in H2; [discriminate H2 |]
    end.
    injection H2 as <-. rewrite Fb by assumption. eauto.
  - assert (N1 : install_dir self // "start-demo.sh" <> log_file self)
      by (subst self; path_neq).
    assert (N2 : install_dir self // "stop-services.sh" <> log_file self)
      by (subst self; path_neq).
    assert (N3 : install_dir self // "start-demo.sh" <> install_dir self // "stop-services.sh")
      by (subst self; path_neq).
    rewrite !logged_fs_other by assumption.
    lazymatch type of H2 with
    | bind (write_text w ?p ?t) ?k ?s = _ =>
        destruct (write_text_step_out w p t k s) as [[e E] | (sa & E & Pa & Fa)];
        rewrite E in H2; [discriminate H2 |]
    end.
    lazymatch type of H2 with
    | bind (chmod w ?p) ?k ?s = _ =>
        destruct (chmod_step_out w p k s) as [[e E1] | (sa' & E1 & Fa')];
        rewrite E1 in H2; [discriminate H2 |]
    end.
    lazymatch type of H2 with
    | bind (write_text w ?p ?t) ?k ?s = _ =>
        destruct (write_text_step_out w p t k s) as [[e E'] | (sb & E' & Pb & Fb)];
        rewrite E' in H2; [discriminate H2 |]
    end.
    rewrite <- bind_ret_r in H2.
    lazymatch type of H2 with
    | bind (chmod w ?p) ?k ?s = _ =>
        destruct (chmod_step_out w p k s) as [[e E2] | (sb' & E2 & Fb')];
        rewrite E2 in H2; [discriminate H2 |]
    end.
    injection H2 as <-. rewrite Fb', Fb, Fa' by assumption. eauto.
Qed.

(** Whatever comes before the launchers, a rest of the run that returns
    [True] has written them and ends with the record of success. *)
Lemma from_launchers_postcondition s s1 :
  from_launchers w self s = (Ok true, s1) ->
  (exists c, fs s1 (start_script w self) = Some (File c)) /\
  (exists c, fs s1 (stop_script w self) = Some (File c)) /\
  last (stdout s1) EmptyString = log_entry "🎉 Installation completed successfully!" "INFO".
Proof.
  unfold from_launchers. intros H.
  apply bind_inv_ok in H as ([] & s2 & H2 & H).
  rewrite bind_update_progress in H.
  apply bind_inv_ok in H as ([] & s3 & H3 & H).
  injection H as <-. apply log_returns_logged in H3. subst s3.
  destruct (create_launchers_postcondition s s2 H2) as [[c1 E1] [c2 E2]].
  assert (N1 : start_script w self <> log_file self)
    by (unfold start_script; subst self; destruct (String.eqb _ _); path_neq).
  assert (N2 : stop_script w self <> log_file self)
    by (unfold stop_script; subst self; destruct (String.eqb _ _); path_neq).
  rewrite !logged_fs_other, !progressed_fs by assumption.
  split; [eauto |]. split; [eauto |].
  rewrite logged_stdout. apply last_last.
Qed.

Lemma from_demo_postcondition install_core s s1 :
  from_demo w self install_core s = (Ok true, s1) ->
  (exists c, fs s1 (start_script w self) = Some (File c)) /\
  (exists c, fs s1 (stop_script w self) = Some (File c)) /\
  last (stdout s1) EmptyString = log_entry "🎉 Installation completed successfully!" "INFO".
Proof.
  unfold from_demo, from_core, from_dependencies, from_environment. intros H.
  apply bind_inv_ok in H as ([] & s2 & _ & H). rewrite bind_update_progress in H.
  assert (Hdeps : forall s3,
             (install_dependencies w self (demo_dir self) "Demo" ;;
              update_progress self 80 "Dependencies installed" ;;
              setup_environment w self ;;
              update_progress self 90 "Environment configured" ;;
              from_launchers w self) s3 = (Ok true, s1) ->
             exists s4, from_launchers w self s4 = (Ok true, s1)).
  { intros s3 H3. apply bind_inv_ok in H3 as ([] & s4 & _ & H3).
    rewrite bind_update_progress in H3.
    apply bind_inv_ok in H3 as ([] & s5 & _ & H3).
    rewrite bind_update_progress in H3. eauto. }
  destruct install_core.
  - apply bind_inv_ok in H as ([] & s3 & _ & H). rewrite bind_update_progress in H.
    destruct (Hdeps _ H) as [s4 H4]. now apply from_launchers_postcondition with s4.
  - rewrite bind_update_progress in H.
    destruct (Hdeps _ H) as [s4 H4]. now apply from_launchers_postcondition with s4.
Qed.

End SuccessfulRun.

(** X13. A run of [install] that returns [True] has produced what it
    announces: the installation root and the log file exist, both
    launcher scripts of the host's OS family are files, and the last
    record printed is the one of success. *)
Theorem successful_run_postcondition w dir progress_cb log_cb install_core s :
  let self := installer_at dir progress_cb log_cb in
  let s' := snd (install w self install_core s) in
  fst (install w self install_core s) = Ok true ->
  fs_exists (fs s') (install_dir self) = true /\
  fs_exists (fs s') (log_file self) = true /\
  (exists c, fs s' (start_script w self) = Some (File c)) /\
  (exists c, fs s' (stop_script w self) = Some (File c)) /\
  last (stdout s') EmptyString = log_entry "🎉 Installation completed successfully!" "INFO".
Proof.
  intros self s'. subst s'. rewrite install_run_any.
  destruct (install_steps w self install_core s) as [[b | e] s1] eqn:E; cbn [fst snd];
    [| destruct (log w self ("❌ Installation failed: " ++ exn_str e) "ERROR" s1)
         as [[[] | e'] s'']; discriminate].
  intros [= ->]. rewrite install_steps_resume in E. cbn [resume] in E.
  unfold from_requirements in E.
  apply bind_inv_ok in E as (met & s2 & _ & E).
  destruct met; cbn [negb] in E;
    [| apply bind_inv_ok in E as ([] & s3 & _ & E); discriminate E].
  rewrite bind_update_progress in E. unfold from_directories in E.
  apply bind_inv_ok in E as ([] & s3 & E3 & E). rewrite bind_update_progress in E.
  destruct (setup_directories_result w dir progress_cb log_cb
              (progressed self 10 "System requirements checked" s2))
    as (Hdirs & Hlogf & _).
  { fold self. now rewrite E3. }
  fold self in Hdirs, Hlogf. rewrite E3 in Hdirs, Hlogf. cbn [snd] in Hdirs, Hlogf.
  pose proof (from_demo_keeps_root w dir progress_cb log_cb install_core
                (progressed self 20 "Directories created" s3)) as Kr.
  pose proof (from_demo_keeps_log_file w dir progress_cb log_cb install_core
                (progressed self 20 "Directories created" s3)) as Kl.
  fold self in Kr, Kl. rewrite E in Kr, Kl. cbn [snd] in Kr, Kl.
  unfold exists_kept in Kr, Kl. rewrite progressed_fs in Kr, Kl.
  split; [| split].
  - apply Kr. unfold fs_exists. rewrite (Hdirs (install_dir self)) by (left; reflexivity).
    now destruct (fs _ (install_dir self)).
  - now apply Kl.
  - now apply (from_demo_postcondition w dir progress_cb log_cb install_core
                 (progressed self 20 "Directories created" s3)).
Qed.

(** The run on a host where everything works has written the start
    script. *)
Lemma ready_host_has_start_script :
  exists c,
    fs (snd (install host_ready gui_installer true fresh_state))
       (start_script host_ready gui_installer)
    = Some (File c).
Proof.
  exact (proj1 (proj2 (proj2 (successful_run_postcondition
                                host_ready (user_home // "anarqq-ecosystem") true true true
                                fresh_state eq_refl)))).
Defined.

(* ------------------------------------------------------------------ *)
(** * The front ends *)

Lemma lower_ascii_y c : lower_ascii c = "y"%char -> c = "y"%char \/ c = "Y"%char.
Proof.
  destruct c as [[|] [|] [|] [|] [|] [|] [|] [|]]; vm_compute; intros H;
    try discriminate H; auto.
Qed.

(** Only [y] and [Y] are read as a yes. *)
Lemma lower_is_y (t : string) :
  String.eqb (lower t) "y" = true <-> t = "y" \/ t = "Y".
Proof.
  rewrite String.eqb_eq. split.
  - destruct t as [| c [| c' t]]; cbn [lower]; intros H; try discriminate H.
    injection H as H. apply lower_ascii_y in H. destruct H as [-> | ->]; auto.
  - intros [-> | ->]; reflexivity.
Qed.

Lemma bind_print {B} line (k : unit -> M B) s : bind (print line) k s = k tt (add_stdout line s).
Proof. reflexivity. Qed.

Section Console.

Variable w : world.
Variable Path : string -> path.

(** Without callbacks nothing is delivered to a callback. *)
Lemma install_without_callbacks d install_core :
  preserves (same progress_calls) (install w (installer_at d false false) install_core) /\
  preserves (same log_calls) (install w (installer_at d false false) install_core).
Proof.
  split;
    unfold install, install_steps, check_system_requirements, requirement_errors,
      setup_directories, clone_or_download_repo, check_command, git_attempt, zip_fallback,
      download_file, extract_zip, install_dependencies, setup_environment, create_launchers,
      log, progress_hook, update_progress;
    cbn [progress_callback log_callback installer_at when];
    preserves_with same_leaf.
Qed.

(** The installer [console_install] runs, by the first line typed. *)
Lemma console_installer line :
  (if nonempty (strip line)
   then relocate (new_installer w) (Path (strip line))
   else new_installer w)
  = installer_at (if nonempty (strip line) then Path (strip line)
                  else home w // "anarqq-ecosystem") false false.
Proof. now destruct (nonempty (strip line)). Qed.

Lemma console_install_run line1 line2 rest s :
  let self := installer_at (if nonempty (strip line1) then Path (strip line1)
                            else home w // "anarqq-ecosystem") false false in
  let install_core := String.eqb (lower (strip line2)) "y" in
  exists s0,
    fs s0 = fs s /\ tmp s0 = tmp s /\ ops s0 = ops s /\
    progress_calls s0 = progress_calls s /\ log_calls s0 = log_calls s /\
    (exists l, stdout s0 = (stdout s ++ l)%list) /\
    match install w self install_core s0 with
    | (Ok true, s1) =>
        exists s2, console_install w Path (line1 :: line2 :: rest) s = (Ok true, s2) /\
                   fs s2 = fs s1 /\ ops s2 = ops s1 /\ tmp s2 = tmp s1 /\
                   progress_calls s2 = progress_calls s1 /\ log_calls s2 = log_calls s1
    | (Ok false, s1) =>
        console_install w Path (line1 :: line2 :: rest) s
        = (Ok false, add_stdout (nl ++ "❌ Installation failed. Check the log for details.") s1)
    | (Raise e, s1) =>
        console_install w Path (line1 :: line2 :: rest) s = (Raise e, s1)
    end.
Proof.
  intros self install_core.
  unfold console_install, input. rewrite !bind_print. cbn beta.
  rewrite ?bind_assoc, ?bind_print, ?bind_ret. cbn beta iota.
  rewrite ?bind_assoc, ?bind_print, ?bind_ret. cbn beta iota.
  rewrite console_installer. fold self install_core.
  rewrite bind_print. cbn beta.
  lazymatch goal with
  | |- context [bind (install w self install_core) _ ?s0] => exists s0; set (S0 := s0)
  end.
  split; [reflexivity |]. split; [reflexivity |]. split; [reflexivity |].
  split; [reflexivity |]. split; [reflexivity |]. split.
  - subst S0. cbn [stdout add_stdout]. rewrite <- !app_assoc. eexists. reflexivity.
  - clearbody S0.
    destruct (install w self install_core S0) as [[[|] | e] s1] eqn:E;
      [rewrite (bind_ok _ _ _ _ _ E) | rewrite (bind_ok _ _ _ _ _ E); reflexivity
      | rewrite (bind_raise _ _ _ _ _ E); reflexivity].
    rewrite !bind_print. destruct (String.eqb (os_name w) "nt");
      rewrite bind_print; cbn [ret]; eexists; (split; [reflexivity |]);
      repeat split.
Qed.

End Console.

Lemma nonempty_false t : nonempty t = false <-> t = EmptyString.
Proof. destruct t; cbn; split; intros H; try reflexivity; discriminate H. Qed.

(** The run of [console_install] on two answers, in terms of the run of
    the engine it starts. *)
Lemma console_install_engine w Path line1 line2 rest s :
  exists dir install_core s0,
    (strip line1 = EmptyString -> dir = home w // "anarqq-ecosystem") /\
    (strip line1 <> EmptyString -> dir = Path (strip line1)) /\
    (install_core = true <-> strip line2 = "y" \/ strip line2 = "Y") /\
    fs s0 = fs s /\ ops s0 = ops s /\ tmp s0 = tmp s /\
    let r := install w (installer_at dir false false) install_core s0 in
    let c := console_install w Path (line1 :: line2 :: rest) s in
    fst c = fst r /\
    fs (snd c) = fs (snd r) /\
    ops (snd c) = ops (snd r) /\
    tmp (snd c) = tmp (snd r) /\
    progress_calls (snd c) = progress_calls s /\
    log_calls (snd c) = log_calls s /\
    (fst r = Ok false ->
     last (stdout (snd c)) EmptyString
     = nl ++ "❌ Installation failed. Check the log for details.").
Proof.
  destruct (console_install_run w Path line1 line2 rest s)
    as (s0 & Hfs & Htmp & Hops & Hp & Hl & _ & Hrun).
  set (dir := if nonempty (strip line1) then Path (strip line1)
              else home w // "anarqq-ecosystem") in *.
  set (install_core := String.eqb (lower (strip line2)) "y") in *.
  exists dir, install_core, s0.
  split; [intros H; subst dir; now rewrite (proj2 (nonempty_false _) H) |].
  split.
  { intros H. subst dir. destruct (nonempty (strip line1)) eqn:E; [reflexivity |].
    now apply nonempty_false in E. }
  split; [apply lower_is_y |].
  split; [exact Hfs |]. split; [exact Hops |]. split; [exact Htmp |].
  cbn zeta.
  destruct (install_without_callbacks w dir install_core) as [Kp Kl].
  specialize (Kp s0). specialize (Kl s0). unfold same in Kp, Kl.
  destruct (install w (installer_at dir false false) install_core s0)
    as [[[|] | e] s1]; cbn [fst snd] in *.
  - destruct Hrun as (s2 & -> & F & O & T & P & L). cbn [fst snd].
    repeat split; first [assumption | congruence | discriminate].
  - rewrite Hrun. cbn [fst snd fs ops tmp progress_calls log_calls stdout add_stdout].
    repeat split; try congruence. intros _. apply last_last.
  - rewrite Hrun. cbn [fst snd]. repeat split; first [congruence | discriminate].
Qed.

(** X14. [console_install] runs the engine once, on the two answers
    typed: in the default directory when the first answer is blank, in
    the directory typed otherwise; with the core exactly when the second
    answer, stripped, is [y] or [Y] (a [yes] is a no).  It returns or
    raises what [install] does, changes the file system and issues
    operations only through it, installs no callback -- nothing is
    delivered to one -- and ends a failed run with the failure line. *)
Theorem console_install_runs_engine w Path line1 line2 rest s :
  exists dir install_core s0,
    (strip line1 = EmptyString -> dir = home w // "anarqq-ecosystem") /\
    (strip line1 <> EmptyString -> dir = Path (strip line1)) /\
    (install_core = true <-> strip line2 = "y" \/ strip line2 = "Y") /\
    fs s0 = fs s /\ ops s0 = ops s /\ tmp s0 = tmp s /\
    let r := install w (installer_at dir false false) install_core s0 in
    let c := console_install w Path (line1 :: line2 :: rest) s in
    fst c = fst r /\
    fs (snd c) = fs (snd r) /\
    ops (snd c) = ops (snd r) /\
    tmp (snd c) = tmp (snd r) /\
    progress_calls (snd c) = progress_calls s /\
    log_calls (snd c) = log_calls s /\
    (fst r = Ok false ->
     last (stdout (snd c)) EmptyString
     = nl ++ "❌ Installation failed. Check the log for details.").
Proof. apply console_install_engine. Qed.

(** X15. With fewer than two lines to read, [console_install] raises
    [EOFError] at a prompt, before the engine is started: the file
    system is untouched and no operation was issued. *)
Theorem console_install_end_of_input w Path typed s :
  (length typed < 2)%nat ->
  let c := console_install w Path typed s in
  fst c = Raise eof_error /\ fs (snd c) = fs s /\ ops (snd c) = ops s.
Proof.
  intros Hlen c. subst c. unfold console_install, input.
  destruct typed as [| line1 [| line2 rest]]; [| | cbn in Hlen; lia];
    rewrite !bind_print; cbn beta;
    rewrite ?bind_assoc, ?bind_print, ?bind_ret; cbn beta iota;
    rewrite ?bind_assoc, ?bind_print, ?bind_ret; cbn beta iota;
    rewrite ?bind_raise_now; repeat split.
Qed.

(** Started without input, the console installer stops at the first
    prompt. *)
Lemma console_install_without_input :
  fst (console_install host_ready (fun _ => user_home) [] fresh_state) = Raise eof_error.
Proof.
  refine (proj1 (console_install_end_of_input host_ready (fun _ => user_home) []
                   fresh_state _)).
  cbn. lia.
Defined.

(* ------------------------------------------------------------------ *)
(** ** The exit status *)

Lemma main_console w Path argv gui_available gui_session typed s :
  nth 1 argv EmptyString = "--console" \/ gui_available = false ->
  main w Path argv gui_available gui_session typed s = console_install w Path typed s.
Proof.
  intros H. unfold main.
  destruct ((1 <? length argv)%nat && String.eqb (nth 1 argv EmptyString) "--console")
    eqn:E; [reflexivity |].
  destruct H as [H | ->]; [| reflexivity].
  apply String.eqb_eq in H as H'. rewrite H', andb_true_r in E.
  destruct argv as [| a [| b argv]]; cbn in H; try discriminate H.
  discriminate E.
Qed.

(** X16. In console mode -- forced by [--console] as the first
    argument, or because Tk is missing -- the exit status of the script
    is 0 exactly when the run of [install] returned [True], and 1
    otherwise; an exception that leaves [install] is reported as an
    unexpected error on the last line printed. *)
Theorem console_mode_exit_status
    w Path argv gui_available gui_session line1 line2 rest s :
  nth 1 argv EmptyString = "--console" \/ gui_available = false ->
  exists dir install_core s0,
    (strip line1 = EmptyString -> dir = home w // "anarqq-ecosystem") /\
    (strip line1 <> EmptyString -> dir = Path (strip line1)) /\
    (install_core = true <-> strip line2 = "y" \/ strip line2 = "Y") /\
    fs s0 = fs s /\ ops s0 = ops s /\
    let r := install w (installer_at dir false false) install_core s0 in
    let x := run_script w Path argv gui_available gui_session (line1 :: line2 :: rest) s in
    (fst x = 0 <-> fst r = Ok true) /\
    (fst x = 1 <-> fst r <> Ok true) /\
    fs (snd x) = fs (snd r) /\
    (forall e, fst r = Raise e ->
               last (stdout (snd x)) EmptyString = nl ++ "Unexpected error: " ++ exn_str e).
Proof.
  intros Hmode. unfold run_script. rewrite (main_console _ _ _ _ _ _ _ Hmode).
  set (s' := if gui_available then s
             else add_stdout "GUI not available, running in console mode" s).
  assert (Hfs : fs s' = fs s) by (subst s'; now destruct gui_available).
  assert (Hops : ops s' = ops s) by (subst s'; now destruct gui_available).
  clearbody s'.
  destruct (console_install_engine w Path line1 line2 rest s')
    as (dir & install_core & s0 & D1 & D2 & C & F & O & _ & R).
  exists dir, install_core, s0.
  split; [exact D1 |]. split; [exact D2 |]. split; [exact C |].
  split; [congruence |]. split; [congruence |].
  cbn zeta in *. destruct R as (Rf & Rfs & _).
  destruct (console_install w Path (line1 :: line2 :: rest) s') as [[b | e] s1];
    cbn [fst snd] in *; rewrite <- Rf.
  - destruct b; cbn [fst snd]; repeat split; try congruence; try discriminate;
      try (intros H; exfalso; now apply H); assumption.
  - cbn [fst snd fs add_stdout stdout].
    split; [split; discriminate |]. split; [split; [discriminate | reflexivity] |].
    split; [assumption |]. intros e' [= <-]. apply last_last.
Qed.

(** White space outside ASCII is stripped from an answer as well. *)
Lemma strip_no_break_space :
  strip (no_break_space ++ " y" ++ no_break_space ++ nl) = "y".
Proof. reflexivity. Qed.

(** The script started with [--console] on a host without node, the
    second answer typed with a no-break space after it. *)
Lemma console_flag_exit_status :
  exists dir install_core s0,
    (strip "" = EmptyString -> dir = home host_without_node // "anarqq-ecosystem") /\
    (strip "" <> EmptyString -> dir = (fun _ : string => user_home) (strip "")) /\
    (install_core = true <->
     strip ("y" ++ no_break_space) = "y" \/ strip ("y" ++ no_break_space) = "Y") /\
    fs s0 = fs fresh_state /\ ops s0 = ops fresh_state /\
    let r := install host_without_node (installer_at dir false false) install_core s0 in
    let x := run_script host_without_node (fun _ => user_home) ["install.py"; "--console"]
               true (ret tt) [EmptyString; "y" ++ no_break_space] fresh_state in
    (fst x = 0 <-> fst r = Ok true) /\
    (fst x = 1 <-> fst r <> Ok true) /\
    fs (snd x) = fs (snd r) /\
    (forall e, fst r = Raise e ->
               last (stdout (snd x)) EmptyString = nl ++ "Unexpected error: " ++ exn_str e).
Proof.
  exact (console_mode_exit_status host_without_node (fun _ => user_home)
           ["install.py"; "--console"] true (ret tt) EmptyString ("y" ++ no_break_space) []
           fresh_state (or_introl eq_refl)).
Defined.

(* ------------------------------------------------------------------ *)
(** ** The window *)

Lemma skipn_app_length {T} (a b : list T) : skipn (length a) (a ++ b)%list = b.
Proof. induction a as [| x a IH]; [reflexivity | exact IH]. Qed.

(** What the deliveries to [add_log] leave in the log pane, and to
    [update_progress] in the progress bar. *)
Lemma add_log_deliveries l g :
  let g' := fold_left (fun g entry => gui_add_log entry g) l g in
  log_text g' = log_text g ++ lines l /\
  progress_var g' = progress_var g /\
  gui_installer_of g' = gui_installer_of g /\
  install_dir_var g' = install_dir_var g /\
  install_core_var g' = install_core_var g /\
  install_btn_normal g' = install_btn_normal g /\
  dialogs g' = dialogs g.
Proof.
  revert g. induction l as [| e l IH]; intros g; cbn [fold_left lines].
  - rewrite str_app_nil_r. repeat split.
  - destruct (IH (gui_add_log e g)) as (T & P & I & D & C & B & X). cbn zeta in *.
    rewrite T, P, I, D, C, B, X. cbn [gui_add_log log_text progress_var gui_installer_of
      install_dir_var install_core_var install_btn_normal dialogs].
    rewrite !str_app_assoc. repeat split.
Qed.

Lemma last_default {T} (x : T) l d d' : last (x :: l) d = last (x :: l) d'.
Proof.
  revert x. induction l as [| y l IH]; intros x; [reflexivity |].
  change (last (y :: l) d = last (y :: l) d'). apply IH.
Qed.

Lemma update_progress_deliveries (X : list (Z * string)) g :
  let g' := fold_left (fun g c => gui_update_progress (fst c) (snd c) g) X g in
  progress_var g' = last (map fst X) (progress_var g) /\
  log_text g' = log_text g /\
  gui_installer_of g' = gui_installer_of g /\
  install_dir_var g' = install_dir_var g /\
  install_core_var g' = install_core_var g /\
  install_btn_normal g' = install_btn_normal g /\
  dialogs g' = dialogs g.
Proof.
  revert g. induction X as [| c X IH]; intros g; cbn [fold_left map].
  - repeat split.
  - destruct (IH (gui_update_progress (fst c) (snd c) g)) as (P & T & I & D & C & B & Y).
    cbn zeta in *. rewrite P, T, I, D, C, B, Y.
    cbn [gui_update_progress log_text progress_var gui_installer_of
      install_dir_var install_core_var install_btn_normal dialogs].
    repeat split. destruct X as [| c' X]; [reflexivity |].
    cbn [map]. change (last (fst c :: fst c' :: map fst X) (progress_var g))
      with (last (fst c' :: map fst X) (progress_var g)).
    apply last_default.
Qed.

Lemma deliver_callbacks_display s s' X L g :
  progress_calls s' = (progress_calls s ++ X)%list ->
  log_calls s' = (log_calls s ++ L)%list ->
  let g' := deliver_callbacks s s' g in
  progress_var g' = last (map fst X) (progress_var g) /\
  log_text g' = log_text g ++ lines L /\
  gui_installer_of g' = gui_installer_of g /\
  install_dir_var g' = install_dir_var g /\
  install_core_var g' = install_core_var g /\
  install_btn_normal g' = install_btn_normal g /\
  dialogs g' = dialogs g.
Proof.
  intros HX HL. unfold deliver_callbacks. rewrite HX, HL, !skipn_app_length.
  destruct (update_progress_deliveries X g) as (P & T & I & D & C & B & Y).
  destruct (add_log_deliveries L
              (fold_left (fun g c => gui_update_progress (fst c) (snd c) g) X g))
    as (T' & P' & I' & D' & C' & B' & Y').
  cbn zeta in *. rewrite T', P', I', D', C', B', Y', P, T, I, D, C, B, Y. repeat split.
Qed.

Section Window.

Variable w : world.
Variable self : installer.

Lemma log_grows_log_calls message level :
  preserves (grows log_calls (fun _ => True)) (log w self message level).
Proof. unfold log. preserves_with grows_leaf. Qed.

Lemma install_grows_log_calls install_core :
  preserves (grows log_calls (fun _ => True)) (install w self install_core).
Proof.
  pose proof log_grows_log_calls as Hl.
  unfold install, install_steps, check_system_requirements, requirement_errors,
    setup_directories, clone_or_download_repo, check_command, git_attempt, zip_fallback,
    download_file, extract_zip, install_dependencies, setup_environment, create_launchers.
  preserves_with grows_leaf.
Qed.

Lemma install_grows_progress_calls install_core :
  preserves (grows progress_calls (fun _ => True)) (install w self install_core).
Proof.
  intros s. destruct (install_emits w self install_core s) as (ex & X & rest & _ & E & _).
  exists X. split; [exact E |]. now apply Forall_forall.
Qed.

End Window.

#[local] Instance callback_mirrors_preorder : PreOrder callback_mirrors.
Proof.
  split.
  - intros s. exists []. now rewrite !app_nil_r.
  - intros a b c [l1 [S1 C1]] [l2 [S2 C2]]. exists (l1 ++ l2)%list.
    now rewrite S2, C2, S1, C1, !app_assoc.
Qed.

Lemma callback_mirrors_quiet s s' :
  stdout s' = stdout s -> log_calls s' = log_calls s -> callback_mirrors s s'.
Proof. intros S C. exists []. now rewrite S, C, !app_nil_r. Qed.

Ltac callback_leaf :=
  idtac;
  repeat match goal with
         | |- callback_mirrors ?s (if ?b then _ else _) => destruct b
         | |- callback_mirrors ?s (match ?x with _ => _ end) => destruct x
         end;
  apply callback_mirrors_quiet; reflexivity.

Section WindowLog.

Variable w : world.
Variable self : installer.
Hypothesis Hlog : log_sink_ok w self.
Hypothesis Hcb : log_callback self = true.

Lemma log_callback_mirrors message level :
  preserves callback_mirrors (log w self message level).
Proof.
  intros s. fold (logged w self message level s). exists [log_entry message level].
  split; [apply logged_stdout |].
  rewrite logged_log_calls by log_side. now rewrite Hcb.
Qed.

Lemma install_callback_mirrors install_core :
  preserves callback_mirrors (install w self install_core).
Proof.
  pose proof log_callback_mirrors as Hl.
  unfold install, install_steps, check_system_requirements, requirement_errors,
    setup_directories, clone_or_download_repo, check_command, git_attempt, zip_fallback,
    download_file, extract_zip, install_dependencies, setup_environment, create_launchers.
  preserves_with callback_leaf.
Qed.

End WindowLog.

Section StartInstallation.

Variable w : world.
Variable Path : string -> path.

(** The run of [start_installation] in terms of the run of the engine
    it starts. *)
Lemma start_installation_run g s :
  let self := relocate (gui_installer_of g) (Path (install_dir_var g)) in
  let r := install w self (install_core_var g) s in
  exists X L d,
    progress_calls (snd r) = (progress_calls s ++ X)%list /\
    log_calls (snd r) = (log_calls s ++ L)%list /\
    ((exists t m, d = ShowInfo t m) <-> fst r = Ok true) /\
    (fst r = Ok false ->
     d = ShowError "Error" "Installation failed. Check the log for details.") /\
    (forall e, fst r = Raise e ->
               d = ShowError "Error" ("Installation failed: " ++ exn_str e)) /\
    snd (start_installation w Path g s) = snd r /\
    let g' := fst (start_installation w Path g s) in
    gui_installer_of g' = self /\
    install_dir_var g' = install_dir_var g /\
    install_core_var g' = install_core_var g /\
    install_btn_normal g' = true /\
    dialogs g' = (dialogs g ++ [d])%list /\
    progress_var g' = last (map fst X) (progress_var g) /\
    log_text g' = log_text g ++ lines L.
Proof.
  intros self r.
  destruct (install_grows_progress_calls w self (install_core_var g) s) as [X [HX _]].
  destruct (install_grows_log_calls w self (install_core_var g) s) as [L [HL _]].
  fold r in HX, HL.
  unfold start_installation.
  cbn [gui_installer_of install_dir_var install_core_var set_install_btn set_installer].
  fold self. fold r.
  destruct r as [res s1] eqn:Er. cbn [fst snd] in *.
  destruct (deliver_callbacks_display s s1 X L
              (set_installer self (set_install_btn false g)) HX HL)
    as (P & T & I & D & C & B & Y).
  cbn zeta in *.
  cbn [set_installer set_install_btn gui_installer_of install_dir_var install_core_var
       progress_var log_text install_btn_normal dialogs] in P, T, I, D, C, B, Y.
  exists X, L.
  destruct res as [[|] | e];
    (lazymatch goal with |- context [show_dialog ?d _] => exists d end);
    (split; [exact HX |]); (split; [exact HL |]);
    (split; [split; [intros (t & m & H); first [reflexivity | discriminate H]
                    | intros H; first [discriminate H | eauto]] |]);
    (split; [intros H; first [reflexivity | discriminate H] |]);
    (split; [intros e' H; first [discriminate H | injection H as <-; reflexivity] |]);
    cbn [fst snd set_install_btn show_dialog gui_installer_of install_dir_var
         install_core_var progress_var log_text install_btn_normal dialogs];
    rewrite ?I, ?D, ?C, ?Y, ?P, ?T; repeat split.
Qed.

End StartInstallation.

Lemma last_Forall {T} (P : T -> Prop) l d : Forall P l -> P d -> P (last l d).
Proof.
  induction 1 as [| x l Hx Hl IH]; intros Hd; [exact Hd |].
  destruct l as [| y l]; [exact Hx | now apply IH].
Qed.

(** X19. With both callbacks bound, the window shows the run.  The
    progress bar stays between 0 and 100 and stands at 100 after a run
    that returned [True]; and where the log file accepts its records,
    the log pane has gained exactly the records the run printed, one
    per line. *)
Theorem window_shows_the_run w Path g s :
  progress_callback (gui_installer_of g) = true ->
  log_callback (gui_installer_of g) = true ->
  let self := relocate (gui_installer_of g) (Path (install_dir_var g)) in
  let r := install w self (install_core_var g) s in
  let g' := fst (start_installation w Path g s) in
  (fst r = Ok true -> progress_var g' = 100) /\
  (0 <= progress_var g <= 100 -> 0 <= progress_var g' <= 100) /\
  (log_sink_ok w self ->
   exists l, stdout (snd r) = (stdout s ++ l)%list /\
             log_text g' = log_text g ++ lines l).
Proof.
  intros Hp Hl self r g'. subst g'.
  destruct (start_installation_run w Path g s)
    as (X & L & d & HX & HL & _ & _ & _ & _ & Hg).
  cbn zeta in *. fold self in HX, HL, Hg. fold r in HX, HL.
  destruct Hg as (_ & _ & _ & _ & _ & P & T). rewrite P, T.
  destruct (install_emits w self (install_core_var g) s)
    as (ex & X' & rest & (D1 & D2 & HD1 & HD2 & ->) & E & V & S).
  fold r in E, S. rewrite HX in E. apply app_inv_head in E. subst X'.
  unfold reported in V. replace (progress_callback self) with true in V
    by (symmetry; exact Hp).
  split; [| split].
  - intros Hok. rewrite (S Hok), app_nil_r in V. rewrite V.
    change ([0; 10; 20] ++ D1 ++ [40] ++ D2 ++ [60; 80; 90; 100])%list
      with ([0; 10; 20] ++ D1 ++ [40] ++ D2 ++ [60; 80; 90] ++ [100])%list.
    rewrite !app_assoc. apply last_last.
  - intros Hb. apply (last_Forall (fun v => 0 <= v <= 100)); [| exact Hb].
    assert (F : Forall (fun v => 0 <= v <= 100)
                  ([0; 10; 20] ++ D1 ++ [40] ++ D2 ++ [60; 80; 90; 100])%list).
    { repeat (apply Forall_app; split);
        try (repeat constructor; lia).
      - destruct HD1 as [-> | ->]; [constructor | apply download_percents_bounds].
      - destruct HD2 as [-> | [_ ->]]; [constructor | apply download_percents_bounds]. }
    rewrite <- V in F. now apply Forall_app in F.
  - intros Hlog.
    destruct (install_callback_mirrors w self Hlog Hl (install_core_var g) s)
      as (l & Hs & Hc).
    fold r in Hs, Hc. rewrite HL in Hc. apply app_inv_head in Hc. subst L. eauto.
Qed.

(** The window as it opens, on a host where everything works: after
    Install the progress bar stands at 100. *)
Lemma window_at_hundred_after_install :
  progress_var (fst (start_installation host_ready (fun _ => user_home // "anarqq-ecosystem")
                       (new_gui host_ready) fresh_state))
  = 100.
Proof.
  exact (proj1 (window_shows_the_run host_ready (fun _ => user_home // "anarqq-ecosystem")
                  (new_gui host_ready) fresh_state eq_refl eq_refl) eq_refl).
Defined.
